(** * FSearch database engine: index store, search views, work queue, snapshot codec

    A shallow embedding of [src/fsearch_database.c].  Pointers to entries are
    addresses into an explicit heap, C arrays indexed by a sort key are finite
    maps from the key to the container (an absent key is a NULL slot),
    fixed-width integers are [Z] with their wrap-around written out, files are
    byte sequences, and the signals the engine posts are collected in a trace.
    A function that fails, or that may not return, has an optional result. *)

From Stdlib Require Import ZArith Lia.
From stdpp Require Import base option list gmap strings.

Local Open Scope Z_scope.

(* ===================================================================== *)
(** * Machine integers and byte sequences *)
(* ===================================================================== *)

Definition uint8_t (z : Z) : Z := z mod 2 ^ 8.
Definition uint16_t (z : Z) : Z := z mod 2 ^ 16.
Definition uint32_t (z : Z) : Z := z mod 2 ^ 32.
Definition uint64_t (z : Z) : Z := z mod 2 ^ 64.

(** [int32_t]: the largest value, and the value an operation wraps around
    to. *)
Definition INT32_MAX : Z := 2 ^ 31 - 1.
Definition int32_t (z : Z) : Z := (z + 2 ^ 31) mod 2 ^ 32 - 2 ^ 31.
Definition in_int32 (z : Z) : Prop := - 2 ^ 31 <= z < 2 ^ 31.

(** Reinterpretation of a 64-bit pattern as [off_t] / [time_t]. *)
Definition int64_t (z : Z) : Z :=
  let u := uint64_t z in if u <? 2 ^ 63 then u else u - 2 ^ 64.

(** [memcpy] of an [n]-byte integer to and from memory (little-endian). *)
Fixpoint le_bytes (n : nat) (v : Z) : list Z :=
  match n with
  | O => []
  | S k => v mod 256 :: le_bytes k (v / 256)
  end.

Fixpoint le_value (bs : list Z) : Z :=
  match bs with
  | [] => 0
  | b :: rest => b + 256 * le_value rest
  end.

(** The C string held by a buffer: the bytes before the first NUL. *)
Fixpoint c_str (buf : list Z) : list Z :=
  match buf with
  | [] => []
  | b :: rest => if b =? 0 then [] else b :: c_str rest
  end.

(* ===================================================================== *)
(** * Snapshot codec: header *)
(* ===================================================================== *)

Definition DATABASE_MAJOR_VERSION : Z := 1.
Definition DATABASE_MINOR_VERSION : Z := 0.
(** ["FSDB"] *)
Definition DATABASE_MAGIC_NUMBER : list Z := [70; 83; 68; 66].

(** A file opened for reading is the sequence of bytes not yet consumed.
    [fread (ptr, size, 1, stream) == 1] holds when one element of [size]
    bytes could be read. *)
Definition read_element_from_file (size : nat) (stream : list Z)
  : option (list Z * list Z) :=
  if bool_decide (size ≠ 0%nat ∧ (size <= length stream)%nat)
  then Some (take size stream, drop size stream)
  else None.

(** [load_header]: [Some rest] when the function returns [true], leaving the
    stream at [rest]; [None] when it returns [false]. *)
Definition load_header (fp : list Z) : option (list Z) :=
  '(magic, fp) ← read_element_from_file (length DATABASE_MAGIC_NUMBER) fp;
  if bool_decide (c_str (magic ++ [0]) ≠ DATABASE_MAGIC_NUMBER) then None
  else
    '(majorver, fp) ← read_element_from_file 1 fp;
    if bool_decide (le_value majorver ≠ DATABASE_MAJOR_VERSION) then None
    else
      '(minorver, fp) ← read_element_from_file 1 fp;
      if bool_decide (le_value minorver > DATABASE_MINOR_VERSION) then None
      else Some fp.

(* ===================================================================== *)
(** * Entries *)
(* ===================================================================== *)

Inductive FsearchDatabaseEntryType :=
  | DATABASE_ENTRY_TYPE_NONE
  | DATABASE_ENTRY_TYPE_FOLDER
  | DATABASE_ENTRY_TYPE_FILE.

Global Instance FsearchDatabaseEntryType_eq_dec : EqDecision FsearchDatabaseEntryType.
Proof. solve_decision. Defined.

(** Modelled from the spec: the entry structure is declared in
    fsearch_database_entry.h, which is not among the sources.  Its fields are
    those of the spec's data model (type, name, parent, size, mtime, idx) and
    the [db_index] that [save_folders] reads.  A pointer to an entry is an
    address; [e_parent = None] is the NULL parent.  The name holds the bytes
    of the C string without its terminator. *)
Record FsearchDatabaseEntry := {
  e_type : FsearchDatabaseEntryType;
  e_name : list Z;
  e_size : Z;
  e_mtime : Z;
  e_parent : option nat;
  e_idx : Z;
  e_db_index : Z;
}.

Global Instance FsearchDatabaseEntry_eq_dec : EqDecision FsearchDatabaseEntry.
Proof. solve_decision. Defined.

(** The memory holding the entries: address to entry. *)
Abbreviation Heap := (gmap nat FsearchDatabaseEntry).

Definition db_entry_set_name (name : list Z) (e : FsearchDatabaseEntry) :=
  {| e_type := e_type e; e_name := name; e_size := e_size e; e_mtime := e_mtime e;
     e_parent := e_parent e; e_idx := e_idx e; e_db_index := e_db_index e |}.
Definition db_entry_set_size (size : Z) (e : FsearchDatabaseEntry) :=
  {| e_type := e_type e; e_name := e_name e; e_size := size; e_mtime := e_mtime e;
     e_parent := e_parent e; e_idx := e_idx e; e_db_index := e_db_index e |}.
Definition db_entry_set_mtime (mtime : Z) (e : FsearchDatabaseEntry) :=
  {| e_type := e_type e; e_name := e_name e; e_size := e_size e; e_mtime := mtime;
     e_parent := e_parent e; e_idx := e_idx e; e_db_index := e_db_index e |}.
Definition db_entry_set_parent (parent : option nat) (e : FsearchDatabaseEntry) :=
  {| e_type := e_type e; e_name := e_name e; e_size := e_size e; e_mtime := e_mtime e;
     e_parent := parent; e_idx := e_idx e; e_db_index := e_db_index e |}.
Definition db_entry_set_idx (idx : Z) (e : FsearchDatabaseEntry) :=
  {| e_type := e_type e; e_name := e_name e; e_size := e_size e; e_mtime := e_mtime e;
     e_parent := e_parent e; e_idx := uint32_t idx; e_db_index := e_db_index e |}.
Definition db_entry_set_type (type : FsearchDatabaseEntryType) (e : FsearchDatabaseEntry) :=
  {| e_type := type; e_name := e_name e; e_size := e_size e; e_mtime := e_mtime e;
     e_parent := e_parent e; e_idx := e_idx e; e_db_index := e_db_index e |}.

(** The type of the entry at an address ([DATABASE_ENTRY_TYPE_NONE] for an
    address that holds no entry). *)
Definition db_entry_get_type (h : Heap) (entry : nat) : FsearchDatabaseEntryType :=
  from_option e_type DATABASE_ENTRY_TYPE_NONE (h !! entry).

Definition db_entry_is_folder (h : Heap) (entry : nat) : bool :=
  bool_decide (db_entry_get_type h entry = DATABASE_ENTRY_TYPE_FOLDER).

(* ===================================================================== *)
(** * Sort keys and entries containers *)
(* ===================================================================== *)

(** Modelled from the spec: [FsearchDatabaseIndexProperty] is declared in
    fsearch_database_index.h, which is not among the sources.  The sort keys
    are the five the spec names; [DATABASE_INDEX_PROPERTY_NONE] is the absent
    secondary key.  An array of [NUM_DATABASE_INDEX_PROPERTIES] slots has one
    slot per sort key. *)
Inductive FsearchDatabaseIndexProperty :=
  | DATABASE_INDEX_PROPERTY_NAME
  | DATABASE_INDEX_PROPERTY_PATH
  | DATABASE_INDEX_PROPERTY_SIZE
  | DATABASE_INDEX_PROPERTY_MODIFICATION_TIME
  | DATABASE_INDEX_PROPERTY_EXTENSION
  | DATABASE_INDEX_PROPERTY_NONE.

Global Instance FsearchDatabaseIndexProperty_eq_dec : EqDecision FsearchDatabaseIndexProperty.
Proof. solve_decision. Defined.

Definition property_code (k : FsearchDatabaseIndexProperty) : nat :=
  match k with
  | DATABASE_INDEX_PROPERTY_NAME => 0
  | DATABASE_INDEX_PROPERTY_PATH => 1
  | DATABASE_INDEX_PROPERTY_SIZE => 2
  | DATABASE_INDEX_PROPERTY_MODIFICATION_TIME => 3
  | DATABASE_INDEX_PROPERTY_EXTENSION => 4
  | DATABASE_INDEX_PROPERTY_NONE => 5
  end.

Definition property_of_code (n : nat) : option FsearchDatabaseIndexProperty :=
  match n with
  | 0 => Some DATABASE_INDEX_PROPERTY_NAME
  | 1 => Some DATABASE_INDEX_PROPERTY_PATH
  | 2 => Some DATABASE_INDEX_PROPERTY_SIZE
  | 3 => Some DATABASE_INDEX_PROPERTY_MODIFICATION_TIME
  | 4 => Some DATABASE_INDEX_PROPERTY_EXTENSION
  | 5 => Some DATABASE_INDEX_PROPERTY_NONE
  | _ => None
  end%nat.

Global Instance FsearchDatabaseIndexProperty_countable :
  Countable FsearchDatabaseIndexProperty :=
  inj_countable property_code property_of_code
    (λ k, match k with
          | DATABASE_INDEX_PROPERTY_NAME | DATABASE_INDEX_PROPERTY_PATH
          | DATABASE_INDEX_PROPERTY_SIZE | DATABASE_INDEX_PROPERTY_MODIFICATION_TIME
          | DATABASE_INDEX_PROPERTY_EXTENSION | DATABASE_INDEX_PROPERTY_NONE => eq_refl
          end).

(** The range of [for (i = 0; i < NUM_DATABASE_INDEX_PROPERTIES; ++i)]. *)
Definition index_properties : list FsearchDatabaseIndexProperty :=
  [ DATABASE_INDEX_PROPERTY_NAME; DATABASE_INDEX_PROPERTY_PATH;
    DATABASE_INDEX_PROPERTY_SIZE; DATABASE_INDEX_PROPERTY_MODIFICATION_TIME;
    DATABASE_INDEX_PROPERTY_EXTENSION ].

Definition NUM_DATABASE_INDEX_PROPERTIES : Z := Z.of_nat (length index_properties).

(** Modelled from the spec: the entries container lives in
    fsearch_database_entries_container.c, which is not among the sources.  It
    holds entries of one type in sort order, possibly sharded: the shards in
    order, [joined] their concatenation, [get (i)] the i-th entry of it. *)
Record FsearchDatabaseEntriesContainer := {
  c_containers : list (list nat);
  c_sort_order : FsearchDatabaseIndexProperty;
  c_secondary_sort_order : FsearchDatabaseIndexProperty;
  c_entry_type : FsearchDatabaseEntryType;
}.

Global Instance FsearchDatabaseEntriesContainer_eq_dec :
  EqDecision FsearchDatabaseEntriesContainer.
Proof. solve_decision. Defined.

Definition fsearch_database_entries_container_get_joined
    (c : FsearchDatabaseEntriesContainer) : list nat :=
  concat (c_containers c).

Definition fsearch_database_entries_container_get_num_entries
    (c : FsearchDatabaseEntriesContainer) : Z :=
  Z.of_nat (length (fsearch_database_entries_container_get_joined c)).

Definition fsearch_database_entries_container_get_entry
    (c : FsearchDatabaseEntriesContainer) (idx : Z) : option nat :=
  fsearch_database_entries_container_get_joined c !! Z.to_nat idx.

(** Modelled from the spec: [steal] removes the entry if present and returns
    whether it was removed. *)
Definition fsearch_database_entries_container_steal
    (c : FsearchDatabaseEntriesContainer) (entry : nat)
  : FsearchDatabaseEntriesContainer * bool :=
  ({| c_containers := filter (λ p, p ≠ entry) <$> c_containers c;
      c_sort_order := c_sort_order c;
      c_secondary_sort_order := c_secondary_sort_order c;
      c_entry_type := c_entry_type c |},
   bool_decide (entry ∈ fsearch_database_entries_container_get_joined c)).

(* ===================================================================== *)
(** * Include and exclude managers, per-root indices *)
(* ===================================================================== *)

(** Modelled from the spec: the include descriptor of
    fsearch_database_include.h (path, one_file_system, monitor,
    scan_after_launch, id), as constructed in tests/test_database_include.c. *)
Record FsearchDatabaseInclude := {
  include_path : string;
  include_one_file_system : bool;
  include_monitor : bool;
  include_scan_after_launch : bool;
  include_id : Z;
}.

Global Instance FsearchDatabaseInclude_eq_dec : EqDecision FsearchDatabaseInclude.
Proof. solve_decision. Defined.

(** Modelled from the spec: an include manager is the sequence of its
    includes ([get_includes]); an exclude manager the sequence of its exclude
    patterns.  [equal] compares the contents. *)
Abbreviation FsearchDatabaseIncludeManager := (list FsearchDatabaseInclude).
Abbreviation FsearchDatabaseExcludeManager := (list string).

Definition fsearch_database_include_manager_get_includes
    (m : FsearchDatabaseIncludeManager) : list FsearchDatabaseInclude := m.

Definition fsearch_database_include_manager_equal
    (a b : FsearchDatabaseIncludeManager) : bool := bool_decide (a = b).

Definition fsearch_database_exclude_manager_equal
    (a b : FsearchDatabaseExcludeManager) : bool := bool_decide (a = b).

(** Modelled from the spec: a per-root index (fsearch_database_index.c is not
    among the sources) has the id and property flags it was created with, the
    files and folders its scan found, and is monitoring or not. *)
Record FsearchDatabaseIndex := {
  index_id : Z;
  index_flags : Z;
  index_files : list nat;
  index_folders : list nat;
  index_monitoring : bool;
}.

Global Instance FsearchDatabaseIndex_eq_dec : EqDecision FsearchDatabaseIndex.
Proof. solve_decision. Defined.

Definition fsearch_database_index_get_id (index : FsearchDatabaseIndex) : Z := index_id index.
Definition fsearch_database_index_get_flags (index : FsearchDatabaseIndex) : Z := index_flags index.
Definition fsearch_database_index_get_files (index : FsearchDatabaseIndex) : list nat :=
  index_files index.
Definition fsearch_database_index_get_folders (index : FsearchDatabaseIndex) : list nat :=
  index_folders index.

Definition fsearch_database_index_start_monitoring
    (index : FsearchDatabaseIndex) (start : bool) : FsearchDatabaseIndex :=
  {| index_id := index_id index; index_flags := index_flags index;
     index_files := index_files index; index_folders := index_folders index;
     index_monitoring := start |}.

(** A cancellation token, as the code observes it: the answer it gives at
    each program point of the call that polls it.  [None] is the NULL token. *)
Abbreviation GCancellable := (option (nat → bool)).

Definition g_cancellable_is_cancelled (cancellable : GCancellable) (point : nat) : bool :=
  match cancellable with
  | Some token => token point
  | None => false
  end.

(** Once cancelled, a token stays cancelled (the sources never reset one). *)
Definition cancellable_sticky (cancellable : GCancellable) : Prop :=
  ∀ token, cancellable = Some token →
    ∀ p q : nat, (p ≤ q)%nat → token p = true → token q = true.

(* ===================================================================== *)
(** * Index store *)
(* ===================================================================== *)

Record FsearchDatabaseIndexStore := {
  store_indices : list FsearchDatabaseIndex;
  store_file_container : gmap FsearchDatabaseIndexProperty FsearchDatabaseEntriesContainer;
  store_folder_container : gmap FsearchDatabaseIndexProperty FsearchDatabaseEntriesContainer;
  store_include_manager : FsearchDatabaseIncludeManager;
  store_exclude_manager : FsearchDatabaseExcludeManager;
  store_flags : Z;
  store_is_sorted : bool;
  store_running : bool;
}.

Global Instance FsearchDatabaseIndexStore_eq_dec : EqDecision FsearchDatabaseIndexStore.
Proof. solve_decision. Defined.

Definition set_store_indices (v : list FsearchDatabaseIndex) (s : FsearchDatabaseIndexStore) :=
  {| store_indices := v; store_file_container := store_file_container s;
     store_folder_container := store_folder_container s;
     store_include_manager := store_include_manager s;
     store_exclude_manager := store_exclude_manager s; store_flags := store_flags s;
     store_is_sorted := store_is_sorted s; store_running := store_running s |}.
Definition set_store_file_container v (s : FsearchDatabaseIndexStore) :=
  {| store_indices := store_indices s; store_file_container := v;
     store_folder_container := store_folder_container s;
     store_include_manager := store_include_manager s;
     store_exclude_manager := store_exclude_manager s; store_flags := store_flags s;
     store_is_sorted := store_is_sorted s; store_running := store_running s |}.
Definition set_store_folder_container v (s : FsearchDatabaseIndexStore) :=
  {| store_indices := store_indices s; store_file_container := store_file_container s;
     store_folder_container := v;
     store_include_manager := store_include_manager s;
     store_exclude_manager := store_exclude_manager s; store_flags := store_flags s;
     store_is_sorted := store_is_sorted s; store_running := store_running s |}.
Definition set_store_is_sorted (v : bool) (s : FsearchDatabaseIndexStore) :=
  {| store_indices := store_indices s; store_file_container := store_file_container s;
     store_folder_container := store_folder_container s;
     store_include_manager := store_include_manager s;
     store_exclude_manager := store_exclude_manager s; store_flags := store_flags s;
     store_is_sorted := v; store_running := store_running s |}.
Definition set_store_running (v : bool) (s : FsearchDatabaseIndexStore) :=
  {| store_indices := store_indices s; store_file_container := store_file_container s;
     store_folder_container := store_folder_container s;
     store_include_manager := store_include_manager s;
     store_exclude_manager := store_exclude_manager s; store_flags := store_flags s;
     store_is_sorted := store_is_sorted s; store_running := v |}.

(** [array[k] = c] for a container pointer [c] that may be NULL. *)
Definition set_slot (k : FsearchDatabaseIndexProperty)
    (c : option FsearchDatabaseEntriesContainer)
    (array : gmap FsearchDatabaseIndexProperty FsearchDatabaseEntriesContainer) :=
  match c with
  | Some c => <[k := c]> array
  | None => delete k array
  end.

Definition sorted_entries_free (self : FsearchDatabaseIndexStore) : FsearchDatabaseIndexStore :=
  foldl (λ s i, set_store_folder_container (delete i (store_folder_container s))
                  (set_store_file_container (delete i (store_file_container s)) s))
        self index_properties.

Definition has_flag (self : FsearchDatabaseIndexStore) (index : FsearchDatabaseIndex) : bool :=
  let store_flags := store_flags self in
  let index_flags := fsearch_database_index_get_flags index in
  bool_decide (Z.land store_flags index_flags = store_flags).

Definition index_store_has_index_with_same_id
    (self : FsearchDatabaseIndexStore) (index : FsearchDatabaseIndex) : bool :=
  existsb (λ index_stored,
             bool_decide (fsearch_database_index_get_id index_stored
                          = fsearch_database_index_get_id index))
          (store_indices self).

Definition index_store_new (include_manager : FsearchDatabaseIncludeManager)
    (exclude_manager : FsearchDatabaseExcludeManager) (flags : Z) : FsearchDatabaseIndexStore :=
  {| store_indices := []; store_file_container := ∅; store_folder_container := ∅;
     store_include_manager := include_manager; store_exclude_manager := exclude_manager;
     store_flags := flags; store_is_sorted := false; store_running := false |}.

(** [g_return_val_if_fail (self->is_sorted, NULL)], then the slot. *)
Definition index_store_get_files (self : FsearchDatabaseIndexStore)
    (sort_order : FsearchDatabaseIndexProperty) : option FsearchDatabaseEntriesContainer :=
  if store_is_sorted self then store_file_container self !! sort_order else None.

Definition index_store_get_folders (self : FsearchDatabaseIndexStore)
    (sort_order : FsearchDatabaseIndexProperty) : option FsearchDatabaseEntriesContainer :=
  if store_is_sorted self then store_folder_container self !! sort_order else None.

Definition index_store_get_num_fast_sort_indices (self : FsearchDatabaseIndexStore) : nat :=
  foldl (λ num_fast_sort_indices i,
           if bool_decide (is_Some (store_folder_container self !! i))
              && bool_decide (is_Some (store_file_container self !! i))
           then S num_fast_sort_indices else num_fast_sort_indices)
        0%nat index_properties.

Definition index_store_get_num_files (self : FsearchDatabaseIndexStore) : Z :=
  match store_file_container self !! DATABASE_INDEX_PROPERTY_NAME with
  | Some c => fsearch_database_entries_container_get_num_entries c
  | None => 0
  end.

Definition index_store_get_num_folders (self : FsearchDatabaseIndexStore) : Z :=
  match store_folder_container self !! DATABASE_INDEX_PROPERTY_NAME with
  | Some c => fsearch_database_entries_container_get_num_entries c
  | None => 0
  end.

(* ===================================================================== *)
(** * Store mutation, search views and the work queue *)
(* ===================================================================== *)

Inductive GtkSortType := GTK_SORT_ASCENDING | GTK_SORT_DESCENDING.

Global Instance GtkSortType_eq_dec : EqDecision GtkSortType.
Proof. solve_decision. Defined.

Section Engine.

(** The collaborators the spec keeps outside the engine.  The directory
    scanner: what [fsearch_database_index_new] followed by
    [fsearch_database_index_scan] finds for an include (files, folders), or
    [None] when no index results.  The sorter behind
    [fsearch_database_entries_container_new]: the shards, in sort order.
    The position search behind [fsearch_database_entries_container_insert]. *)
Variable scan_include :
  FsearchDatabaseInclude → FsearchDatabaseExcludeManager → Z → GCancellable →
  option (list nat * list nat).
Variable sort_entries :
  FsearchDatabaseIndexProperty → FsearchDatabaseIndexProperty →
  FsearchDatabaseEntryType → list nat → list (list nat).
Variable insert_sorted : FsearchDatabaseEntriesContainer → nat → list (list nat).

(** Modelled from the spec: [new] "returns a container in sorted order;
    fails with Cancelled if the token trips mid-build".  [point] is the
    program point of the caller at which the build runs. *)
Definition fsearch_database_entries_container_new (entries : list nat)
    (copy_on_write : bool) (sort_order secondary_sort_order : FsearchDatabaseIndexProperty)
    (entry_type : FsearchDatabaseEntryType) (cancellable : GCancellable) (point : nat)
  : option FsearchDatabaseEntriesContainer :=
  if g_cancellable_is_cancelled cancellable point then None
  else Some {| c_containers := sort_entries sort_order secondary_sort_order entry_type entries;
               c_sort_order := sort_order;
               c_secondary_sort_order := secondary_sort_order;
               c_entry_type := entry_type |}.

(** Modelled from the spec: [insert] "places e in its sorted position". *)
Definition fsearch_database_entries_container_insert
    (c : FsearchDatabaseEntriesContainer) (entry : nat) : FsearchDatabaseEntriesContainer :=
  {| c_containers := insert_sorted c entry;
     c_sort_order := c_sort_order c;
     c_secondary_sort_order := c_secondary_sort_order c;
     c_entry_type := c_entry_type c |}.

(** Modelled from the spec: [fsearch_database_index_new (id, include,
    exclude, flags, ...)] and [fsearch_database_index_scan]. *)
Definition fsearch_database_index_new_and_scan (include : FsearchDatabaseInclude)
    (exclude_manager : FsearchDatabaseExcludeManager) (flags : Z)
    (cancellable : GCancellable) : option FsearchDatabaseIndex :=
  '(files, folders) ← scan_include include exclude_manager flags cancellable;
  Some {| index_id := include_id include; index_flags := flags;
          index_files := files; index_folders := folders; index_monitoring := false |}.

(** The inner loops of the add and remove functions, over one slot. *)
Definition slot_insert_all (entries : list nat)
    (array : gmap FsearchDatabaseIndexProperty FsearchDatabaseEntriesContainer)
    (i : FsearchDatabaseIndexProperty) :=
  match array !! i with
  | None => array
  | Some container =>
      <[i := foldl fsearch_database_entries_container_insert container entries]> array
  end.

Definition slot_steal_all (entries : list nat)
    (array : gmap FsearchDatabaseIndexProperty FsearchDatabaseEntriesContainer)
    (i : FsearchDatabaseIndexProperty) :=
  match array !! i with
  | None => array
  | Some container =>
      <[i := foldl (λ c entry, (fsearch_database_entries_container_steal c entry).1)
                   container entries]> array
  end.

(** A NULL array of entries and an empty one are treated alike by every
    function below, so both are the empty list. *)
Definition index_store_add_entries (self : FsearchDatabaseIndexStore)
    (entries : list nat) (is_dir : bool) : FsearchDatabaseIndexStore :=
  if bool_decide (entries = []) then self
  else if is_dir then
    set_store_folder_container
      (foldl (slot_insert_all entries) (store_folder_container self) index_properties) self
  else
    set_store_file_container
      (foldl (slot_insert_all entries) (store_file_container self) index_properties) self.

(** The remove functions abort ([g_assert_not_reached]) when the index is
    not a member of the store: [None]. *)
Definition index_store_remove_folders (self : FsearchDatabaseIndexStore)
    (folders : list nat) (index : FsearchDatabaseIndex) : option FsearchDatabaseIndexStore :=
  if bool_decide (folders = []) then Some self
  else if bool_decide (index ∈ store_indices self) then
    Some (set_store_folder_container
            (foldl (slot_steal_all folders) (store_folder_container self) index_properties)
            self)
  else None.

Definition index_store_remove_files (self : FsearchDatabaseIndexStore)
    (files : list nat) (index : FsearchDatabaseIndex) : option FsearchDatabaseIndexStore :=
  if bool_decide (files = []) then Some self
  else if bool_decide (index ∈ store_indices self) then
    Some (set_store_file_container
            (foldl (slot_steal_all files) (store_file_container self) index_properties)
            self)
  else None.

Definition index_store_remove_entry (h : Heap) (self : FsearchDatabaseIndexStore)
    (entry : option nat) (index : FsearchDatabaseIndex) : option FsearchDatabaseIndexStore :=
  match entry with
  | None => Some self
  | Some entry =>
      if bool_decide (index ∈ store_indices self) then
        if db_entry_is_folder h entry then
          Some (set_store_folder_container
                  (foldl (slot_steal_all [entry]) (store_folder_container self)
                         index_properties) self)
        else
          Some (set_store_file_container
                  (foldl (slot_steal_all [entry]) (store_file_container self)
                         index_properties) self)
      else None
  end.

(** Program points of [index_store_start] at which the token is polled:
    the check after the scans, the ten container builds, the final check. *)
Definition POINT_AFTER_SCAN : nat := 0.
Definition POINT_FINAL_CHECK : nat := 11.

(** The body of the loop that merges the scanned indices into the store. *)
Definition index_store_merge_index
    (acc : FsearchDatabaseIndexStore * list nat * list nat) (index : FsearchDatabaseIndex)
  : FsearchDatabaseIndexStore * list nat * list nat :=
  let '(self, store_files, store_folders) := acc in
  if index_store_has_index_with_same_id self index || negb (has_flag self index) then acc
  else
    (set_store_is_sorted false (set_store_indices (store_indices self ++ [index]) self),
     store_files ++ fsearch_database_index_get_files index,
     store_folders ++ fsearch_database_index_get_folders index).

Definition index_store_start (self : FsearchDatabaseIndexStore) (cancellable : GCancellable)
  : FsearchDatabaseIndexStore :=
  if store_running self then self
  else
    let includes := fsearch_database_include_manager_get_includes (store_include_manager self) in
    let indices :=
      omap (λ include, fsearch_database_index_new_and_scan include
                         (store_exclude_manager self) (store_flags self) cancellable)
           includes in
    if g_cancellable_is_cancelled cancellable POINT_AFTER_SCAN then self
    else
      let '(self, store_files, store_folders) :=
        foldl index_store_merge_index (self, [], []) indices in
      let build entries k type point :=
        fsearch_database_entries_container_new entries false k
          DATABASE_INDEX_PROPERTY_NONE type cancellable point in
      let self := set_store_folder_container
        (set_slot DATABASE_INDEX_PROPERTY_NAME
           (build store_folders DATABASE_INDEX_PROPERTY_NAME DATABASE_ENTRY_TYPE_FOLDER 1%nat)
           (store_folder_container self)) self in
      let self := set_store_file_container
        (set_slot DATABASE_INDEX_PROPERTY_NAME
           (build store_files DATABASE_INDEX_PROPERTY_NAME DATABASE_ENTRY_TYPE_FILE 2%nat)
           (store_file_container self)) self in
      let self := set_store_folder_container
        (set_slot DATABASE_INDEX_PROPERTY_PATH
           (build store_folders DATABASE_INDEX_PROPERTY_PATH DATABASE_ENTRY_TYPE_FOLDER 3%nat)
           (store_folder_container self)) self in
      let self := set_store_file_container
        (set_slot DATABASE_INDEX_PROPERTY_PATH
           (build store_files DATABASE_INDEX_PROPERTY_PATH DATABASE_ENTRY_TYPE_FILE 4%nat)
           (store_file_container self)) self in
      let self := set_store_folder_container
        (set_slot DATABASE_INDEX_PROPERTY_SIZE
           (build store_folders DATABASE_INDEX_PROPERTY_SIZE DATABASE_ENTRY_TYPE_FOLDER 5%nat)
           (store_folder_container self)) self in
      let self := set_store_file_container
        (set_slot DATABASE_INDEX_PROPERTY_SIZE
           (build store_files DATABASE_INDEX_PROPERTY_SIZE DATABASE_ENTRY_TYPE_FILE 6%nat)
           (store_file_container self)) self in
      let self := set_store_folder_container
        (set_slot DATABASE_INDEX_PROPERTY_MODIFICATION_TIME
           (build store_folders DATABASE_INDEX_PROPERTY_MODIFICATION_TIME
              DATABASE_ENTRY_TYPE_FOLDER 7%nat)
           (store_folder_container self)) self in
      let self := set_store_file_container
        (set_slot DATABASE_INDEX_PROPERTY_MODIFICATION_TIME
           (build store_files DATABASE_INDEX_PROPERTY_MODIFICATION_TIME
              DATABASE_ENTRY_TYPE_FILE 8%nat)
           (store_file_container self)) self in
      let self := set_store_folder_container
        (set_slot DATABASE_INDEX_PROPERTY_EXTENSION
           (build store_folders DATABASE_INDEX_PROPERTY_EXTENSION
              DATABASE_ENTRY_TYPE_FOLDER 9%nat)
           (store_folder_container self)) self in
      let self := set_store_file_container
        (set_slot DATABASE_INDEX_PROPERTY_EXTENSION
           (build store_files DATABASE_INDEX_PROPERTY_EXTENSION
              DATABASE_ENTRY_TYPE_FILE 10%nat)
           (store_file_container self)) self in
      let self := set_store_is_sorted true self in
      if g_cancellable_is_cancelled cancellable POINT_FINAL_CHECK then
        set_store_indices [] (sorted_entries_free self)
      else set_store_running true self.

Definition index_store_start_monitoring (self : FsearchDatabaseIndexStore)
  : FsearchDatabaseIndexStore :=
  set_store_indices
    ((λ index, fsearch_database_index_start_monitoring index true) <$> store_indices self)
    self.

(** ** Selections

    Modelled from the spec: the selection of fsearch_selection.c (not among
    the sources) is a set of entry references. *)
Definition fsearch_selection_select (selection : gset nat) (entry : nat) : gset nat :=
  {[entry]} ∪ selection.
Definition fsearch_selection_unselect (selection : gset nat) (entry : nat) : gset nat :=
  selection ∖ {[entry]}.
Definition fsearch_selection_is_selected (selection : gset nat) (entry : nat) : bool :=
  bool_decide (entry ∈ selection).
Definition fsearch_selection_select_toggle (selection : gset nat) (entry : nat) : gset nat :=
  if fsearch_selection_is_selected selection entry
  then fsearch_selection_unselect selection entry
  else fsearch_selection_select selection entry.
Definition fsearch_selection_unselect_all (selection : gset nat) : gset nat := ∅.
Definition fsearch_selection_select_all (selection : gset nat) (entries : list nat) : gset nat :=
  foldl fsearch_selection_select selection entries.
Definition fsearch_selection_invert (selection : gset nat) (entries : list nat) : gset nat :=
  foldl fsearch_selection_select_toggle selection entries.
Definition fsearch_selection_get_num_selected (selection : gset nat) : Z :=
  Z.of_nat (size selection).

(** ** Search views *)

Record FsearchDatabaseSearchView := {
  view_query : string;
  view_file_container : option FsearchDatabaseEntriesContainer;
  view_folder_container : option FsearchDatabaseEntriesContainer;
  view_sort_type : GtkSortType;
  view_sort_order : FsearchDatabaseIndexProperty;
  view_secondardy_sort_order : FsearchDatabaseIndexProperty;
  view_file_selection : gset nat;
  view_folder_selection : gset nat;
}.

Definition set_view_file_selection (v : gset nat) (view : FsearchDatabaseSearchView) :=
  {| view_query := view_query view; view_file_container := view_file_container view;
     view_folder_container := view_folder_container view;
     view_sort_type := view_sort_type view; view_sort_order := view_sort_order view;
     view_secondardy_sort_order := view_secondardy_sort_order view;
     view_file_selection := v; view_folder_selection := view_folder_selection view |}.
Definition set_view_folder_selection (v : gset nat) (view : FsearchDatabaseSearchView) :=
  {| view_query := view_query view; view_file_container := view_file_container view;
     view_folder_container := view_folder_container view;
     view_sort_type := view_sort_type view; view_sort_order := view_sort_order view;
     view_secondardy_sort_order := view_secondardy_sort_order view;
     view_file_selection := view_file_selection view; view_folder_selection := v |}.

Definition search_view_new (query : string) (files folders : list nat)
    (sort_order secondary_sort_order : FsearchDatabaseIndexProperty)
    (sort_type : GtkSortType) : FsearchDatabaseSearchView :=
  {| view_query := query;
     view_folder_container :=
       fsearch_database_entries_container_new folders true sort_order
         secondary_sort_order DATABASE_ENTRY_TYPE_FOLDER None 0;
     view_file_container :=
       fsearch_database_entries_container_new files true sort_order
         secondary_sort_order DATABASE_ENTRY_TYPE_FILE None 0;
     view_sort_order := sort_order;
     view_secondardy_sort_order := secondary_sort_order;
     view_sort_type := sort_type;
     view_file_selection := ∅;
     view_folder_selection := ∅ |}.

Definition get_num_search_file_results (view : FsearchDatabaseSearchView) : Z :=
  match view_file_container view with
  | Some c => fsearch_database_entries_container_get_num_entries c
  | None => 0
  end.

(** As in the source, the test is on the file container; the count of a
    NULL folder container is taken as 0. *)
Definition get_num_search_folder_results (view : FsearchDatabaseSearchView) : Z :=
  match view_file_container view with
  | Some _ => from_option fsearch_database_entries_container_get_num_entries 0
                (view_folder_container view)
  | None => 0
  end.

Definition get_idx_for_sort_type (idx num_files num_folders : Z) (sort_type : GtkSortType)
  : Z :=
  match sort_type with
  | GTK_SORT_DESCENDING => uint32_t (uint32_t (num_folders + num_files) - uint32_t (idx + 1))
  | GTK_SORT_ASCENDING => idx
  end.

Definition get_entry_for_idx (view : FsearchDatabaseSearchView) (idx : Z) : option nat :=
  match view_folder_container view, view_file_container view with
  | None, _ => None
  | _, None => None
  | Some folder_container, Some file_container =>
      let num_folders := get_num_search_folder_results view in
      let num_files := get_num_search_file_results view in
      let idx := get_idx_for_sort_type idx num_files num_folders (view_sort_type view) in
      if idx <? num_folders then
        fsearch_database_entries_container_get_entry folder_container idx
      else
        let idx := uint32_t (idx - num_folders) in
        if idx <? num_files then
          fsearch_database_entries_container_get_entry file_container idx
        else None
  end.

Definition is_selected (h : Heap) (view : FsearchDatabaseSearchView) (entry : nat) : bool :=
  if bool_decide (db_entry_get_type h entry = DATABASE_ENTRY_TYPE_FILE)
  then fsearch_selection_is_selected (view_file_selection view) entry
  else fsearch_selection_is_selected (view_folder_selection view) entry.

(** The body shared by the two range loops: apply [op] to the selection
    that matches the type of the entry at position [i], if there is one.
    The [int32_t] loop variable is converted to the [uint32_t] parameter of
    [get_entry_for_idx]. *)
Definition range_step (h : Heap) (op : gset nat → nat → gset nat)
    (view : FsearchDatabaseSearchView) (i : Z) : FsearchDatabaseSearchView :=
  match get_entry_for_idx view (uint32_t i) with
  | None => view
  | Some entry =>
      if bool_decide (db_entry_get_type h entry = DATABASE_ENTRY_TYPE_FILE)
      then set_view_file_selection (op (view_file_selection view) entry) view
      else set_view_folder_selection (op (view_folder_selection view) entry) view
  end.

(** A run of [for (int32_t i = start_idx; i <= end_idx; ++i) { body }],
    taken up at the test of [i]: the loop is left when the test fails,
    otherwise the body runs and [i] is incremented, wrapping around past
    [INT32_MAX]. *)
Inductive range_loop_run (h : Heap) (op : gset nat → nat → gset nat) (end_idx : Z)
  : FsearchDatabaseSearchView → Z → FsearchDatabaseSearchView → Prop :=
  | range_loop_leave view i :
      end_idx < i → range_loop_run h op end_idx view i view
  | range_loop_iterate view i view' :
      i <= end_idx →
      range_loop_run h op end_idx (range_step h op view i) (int32_t (i + 1)) view' →
      range_loop_run h op end_idx view i view'.

(** The loop as a function of its bounds.  With [end_idx = INT32_MAX] the
    test [i <= end_idx] holds for every [int32_t]: the loop is never left
    and the function has no result.  Otherwise the loop visits
    [start_idx, ..., end_idx] in order and is left at [end_idx + 1]. *)
Definition range_loop (h : Heap) (op : gset nat → nat → gset nat)
    (view : FsearchDatabaseSearchView) (start_idx end_idx : Z)
  : option FsearchDatabaseSearchView :=
  if bool_decide (end_idx = INT32_MAX) then None
  else Some (foldl (range_step h op) view (seqZ start_idx (end_idx - start_idx + 1))).

Definition toggle_range (h : Heap) (view : FsearchDatabaseSearchView)
    (start_idx end_idx : Z) : option FsearchDatabaseSearchView :=
  let tmp := start_idx in
  let '(start_idx, end_idx) :=
    if start_idx >? end_idx then (end_idx, tmp) else (start_idx, end_idx) in
  range_loop h fsearch_selection_select_toggle view start_idx end_idx.

Definition select_range (h : Heap) (view : FsearchDatabaseSearchView)
    (start_idx end_idx : Z) : option FsearchDatabaseSearchView :=
  let tmp := start_idx in
  let '(start_idx, end_idx) :=
    if start_idx >? end_idx then (end_idx, tmp) else (start_idx, end_idx) in
  range_loop h fsearch_selection_select view start_idx end_idx.

(** ** The engine and the signals it posts *)

(** A [GFile]: its local path, if it has one ([g_file_get_path]). *)
Record GFile := { g_file_get_path : option string }.

Record FsearchDatabase := {
  db_file : option GFile;
  db_search_results : gmap nat FsearchDatabaseSearchView;
  db_store : option FsearchDatabaseIndexStore;
  db_flags : Z;
}.

Definition set_db_file v (self : FsearchDatabase) :=
  {| db_file := v; db_search_results := db_search_results self;
     db_store := db_store self; db_flags := db_flags self |}.
Definition set_db_search_results v (self : FsearchDatabase) :=
  {| db_file := db_file self; db_search_results := v;
     db_store := db_store self; db_flags := db_flags self |}.
Definition set_db_store v (self : FsearchDatabase) :=
  {| db_file := db_file self; db_search_results := db_search_results self;
     db_store := v; db_flags := db_flags self |}.
Definition set_db_flags v (self : FsearchDatabase) :=
  {| db_file := db_file self; db_search_results := db_search_results self;
     db_store := db_store self; db_flags := v |}.

Record FsearchDatabaseInfo := {
  info_include_manager : option FsearchDatabaseIncludeManager;
  info_exclude_manager : option FsearchDatabaseExcludeManager;
  info_num_files : Z;
  info_num_folders : Z;
}.

Record FsearchDatabaseSearchInfo := {
  search_info_query : string;
  search_info_num_files : Z;
  search_info_num_folders : Z;
  search_info_num_files_selected : Z;
  search_info_num_folders_selected : Z;
  search_info_sort_order : FsearchDatabaseIndexProperty;
  search_info_sort_type : GtkSortType;
}.

Record FsearchDatabaseEntryInfo := {
  entry_info_entry : nat;
  entry_info_query : string;
  entry_info_idx : Z;
  entry_info_is_selected : bool;
  entry_info_flags : Z;
}.

Inductive FsearchDatabaseEvent :=
  | EVENT_LOAD_STARTED
  | EVENT_LOAD_FINISHED (info : FsearchDatabaseInfo)
  | EVENT_ITEM_INFO_READY (id : nat) (info : FsearchDatabaseEntryInfo)
  | EVENT_SAVE_STARTED
  | EVENT_SAVE_FINISHED
  | EVENT_SCAN_STARTED
  | EVENT_SCAN_FINISHED (info : FsearchDatabaseInfo)
  | EVENT_SELECTION_CHANGED (id : nat) (info : FsearchDatabaseSearchInfo)
  | EVENT_DATABASE_CHANGED (info : FsearchDatabaseInfo).

Inductive FsearchResult :=
  | FSEARCH_RESULT_SUCCESS
  | FSEARCH_RESULT_FAILED
  | FSEARCH_RESULT_DB_BUSY
  | FSEARCH_RESULT_DB_UNKOWN_SEARCH_VIEW
  | FSEARCH_RESULT_DB_ENTRY_NOT_FOUND.

Inductive FsearchSelectionType :=
  | FSEARCH_SELECTION_TYPE_CLEAR
  | FSEARCH_SELECTION_TYPE_ALL
  | FSEARCH_SELECTION_TYPE_INVERT
  | FSEARCH_SELECTION_TYPE_SELECT
  | FSEARCH_SELECTION_TYPE_TOGGLE
  | FSEARCH_SELECTION_TYPE_SELECT_RANGE
  | FSEARCH_SELECTION_TYPE_TOGGLE_RANGE.

(** The work items whose handlers are embedded here.  Search, sort and
    rescan items hand the work to the external query evaluator and sorter
    and are left out. *)
Inductive FsearchDatabaseWork :=
  | FSEARCH_DATABASE_WORK_QUIT
  | FSEARCH_DATABASE_WORK_LOAD_FROM_FILE
  | FSEARCH_DATABASE_WORK_GET_ITEM_INFO (view_id : nat) (idx : Z) (flags : Z)
  | FSEARCH_DATABASE_WORK_SAVE_TO_FILE
  | FSEARCH_DATABASE_WORK_SCAN (include_manager : FsearchDatabaseIncludeManager)
      (exclude_manager : FsearchDatabaseExcludeManager) (flags : Z)
  | FSEARCH_DATABASE_WORK_MODIFY_SELECTION (view_id : nat) (type : FsearchSelectionType)
      (start_idx end_idx : Z).

Definition get_exclude_manager (self : FsearchDatabase) : option FsearchDatabaseExcludeManager :=
  store_exclude_manager <$> db_store self.
Definition get_include_manager (self : FsearchDatabase) : option FsearchDatabaseIncludeManager :=
  store_include_manager <$> db_store self.
Definition get_num_database_files (self : FsearchDatabase) : Z :=
  from_option index_store_get_num_files 0 (db_store self).
Definition get_num_database_folders (self : FsearchDatabase) : Z :=
  from_option index_store_get_num_folders 0 (db_store self).

Definition get_database_info (self : FsearchDatabase) : FsearchDatabaseInfo :=
  {| info_include_manager := get_include_manager self;
     info_exclude_manager := get_exclude_manager self;
     info_num_files := get_num_database_files self;
     info_num_folders := get_num_database_folders self |}.

Definition get_search_view (self : FsearchDatabase) (view_id : nat)
  : option FsearchDatabaseSearchView :=
  db_search_results self !! view_id.

Definition search_info_of_view (view : FsearchDatabaseSearchView) : FsearchDatabaseSearchInfo :=
  {| search_info_query := view_query view;
     search_info_num_files := get_num_search_file_results view;
     search_info_num_folders := get_num_search_folder_results view;
     search_info_num_files_selected :=
       fsearch_selection_get_num_selected (view_file_selection view);
     search_info_num_folders_selected :=
       fsearch_selection_get_num_selected (view_folder_selection view);
     search_info_sort_order := view_sort_order view;
     search_info_sort_type := view_sort_type view |}.

(** [get_entry_info_non_blocking]: the result code and [*info_out]. *)
Definition get_entry_info_non_blocking (h : Heap) (self : FsearchDatabase)
    (id : nat) (idx : Z) (flags : Z) : FsearchResult * option FsearchDatabaseEntryInfo :=
  match get_search_view self id with
  | None => (FSEARCH_RESULT_DB_UNKOWN_SEARCH_VIEW, None)
  | Some view =>
      match get_entry_for_idx view idx with
      | None => (FSEARCH_RESULT_DB_ENTRY_NOT_FOUND, None)
      | Some entry =>
          (FSEARCH_RESULT_SUCCESS,
           Some {| entry_info_entry := entry; entry_info_query := view_query view;
                   entry_info_idx := idx; entry_info_is_selected := is_selected h view entry;
                   entry_info_flags := flags |})
      end
  end.

Definition get_entry_info := get_entry_info_non_blocking.

(** The switch of [modify_selection] on the selection type; no result when
    a range loop is never left. *)
Definition modify_selection_apply (h : Heap) (view : FsearchDatabaseSearchView)
    (entry : nat) (type : FsearchSelectionType) (start_idx end_idx : Z)
  : option FsearchDatabaseSearchView :=
  let file_container := from_option c_containers [] (view_file_container view) in
  let folder_container := from_option c_containers [] (view_folder_container view) in
  match type with
  | FSEARCH_SELECTION_TYPE_CLEAR =>
      Some
        (set_view_folder_selection (fsearch_selection_unselect_all (view_folder_selection view))
           (set_view_file_selection (fsearch_selection_unselect_all (view_file_selection view))
              view))
  | FSEARCH_SELECTION_TYPE_ALL =>
      Some
        (set_view_folder_selection
           (foldl fsearch_selection_select_all (view_folder_selection view) folder_container)
           (set_view_file_selection
              (foldl fsearch_selection_select_all (view_file_selection view) file_container)
              view))
  | FSEARCH_SELECTION_TYPE_INVERT =>
      Some
        (set_view_folder_selection
           (foldl fsearch_selection_invert (view_folder_selection view) folder_container)
           (set_view_file_selection
              (foldl fsearch_selection_invert (view_file_selection view) file_container)
              view))
  | FSEARCH_SELECTION_TYPE_SELECT =>
      Some
        (if bool_decide (db_entry_get_type h entry = DATABASE_ENTRY_TYPE_FILE)
         then set_view_file_selection
                (fsearch_selection_select (view_file_selection view) entry) view
         else set_view_folder_selection
                (fsearch_selection_select (view_folder_selection view) entry) view)
  | FSEARCH_SELECTION_TYPE_TOGGLE =>
      Some
        (if bool_decide (db_entry_get_type h entry = DATABASE_ENTRY_TYPE_FILE)
         then set_view_file_selection
                (fsearch_selection_select_toggle (view_file_selection view) entry) view
         else set_view_folder_selection
                (fsearch_selection_select_toggle (view_folder_selection view) entry) view)
  | FSEARCH_SELECTION_TYPE_SELECT_RANGE => select_range h view start_idx end_idx
  | FSEARCH_SELECTION_TYPE_TOGGLE_RANGE => toggle_range h view start_idx end_idx
  end.

(** A handler maps the engine to the engine after it and the signals it
    posted, in order.  [modify_selection] has no result when it does not
    return. *)
Definition modify_selection (h : Heap) (self : FsearchDatabase) (view_id : nat)
    (type : FsearchSelectionType) (start_idx end_idx : Z)
  : option (FsearchDatabase * list FsearchDatabaseEvent) :=
  match get_search_view self view_id with
  | None => Some (self, [])
  | Some view =>
      match get_entry_for_idx view (uint32_t start_idx) with
      | None => Some (self, [])
      | Some entry =>
          view ← modify_selection_apply h view entry type start_idx end_idx;
          Some (set_db_search_results (<[view_id := view]> (db_search_results self)) self,
                [EVENT_SELECTION_CHANGED view_id (search_info_of_view view)])
      end
  end.

(** ** What a range operation leaves *)

(** The entries a view shows at the positions from the smaller to the
    larger of two indices, in this order, and the files and the folders
    among them. *)
Definition range_entries (view : FsearchDatabaseSearchView) (a b : Z) : list nat :=
  omap (λ i, get_entry_for_idx view (uint32_t i))
       (seqZ (Z.min a b) (Z.max a b - Z.min a b + 1)).
Definition range_files (h : Heap) (view : FsearchDatabaseSearchView) (a b : Z) : list nat :=
  filter (λ e, db_entry_get_type h e = DATABASE_ENTRY_TYPE_FILE) (range_entries view a b).
Definition range_folders (h : Heap) (view : FsearchDatabaseSearchView) (a b : Z) : list nat :=
  filter (λ e, db_entry_get_type h e ≠ DATABASE_ENTRY_TYPE_FILE) (range_entries view a b).

(** An entry met an odd number of times in a list. *)
Definition met_odd (entries : list nat) (entry : nat) : bool :=
  Nat.odd (length (filter (λ e, e = entry) entries)).

(** [view'] differs from [view] in its two selections at most. *)
Definition reselected (view view' : FsearchDatabaseSearchView) : Prop :=
  view' = set_view_folder_selection (view_folder_selection view')
            (set_view_file_selection (view_file_selection view') view).

(** What [modify_selection] leaves when it gets to its end with the view
    [view']: the view is the registered one and one signal is posted. *)
Definition selection_changed (self : FsearchDatabase) (view_id : nat)
    (view' : FsearchDatabaseSearchView) : FsearchDatabase * list FsearchDatabaseEvent :=
  (set_db_search_results (<[view_id := view']> (db_search_results self)) self,
   [EVENT_SELECTION_CHANGED view_id (search_info_of_view view')]).

(** ** The other handlers *)

(** [db_file_save] is not called: the call is commented out. *)
Definition save_database_to_file (self : FsearchDatabase) : FsearchDatabase := self.

Definition scan_database (self : FsearchDatabase)
    (include_manager : FsearchDatabaseIncludeManager)
    (exclude_manager : FsearchDatabaseExcludeManager) (flags : Z)
  : FsearchDatabase * list FsearchDatabaseEvent :=
  if match db_store self with
     | Some store =>
         fsearch_database_include_manager_equal (store_include_manager store) include_manager
         && fsearch_database_exclude_manager_equal (store_exclude_manager store) exclude_manager
     | None => false
     end
  then (self, [])
  else
    let store := index_store_new include_manager exclude_manager flags in
    let store := index_store_start store None in
    let self := set_db_flags flags self in
    let self := set_db_store (Some store) self in
    let self := set_db_store (index_store_start_monitoring <$> db_store self) self in
    let self := set_db_search_results ∅ self in
    (self, [EVENT_SCAN_STARTED; EVENT_SCAN_FINISHED (get_database_info self)]).

(** The call of [db_file_load] is commented out in the source: [store]
    stays NULL and [res] stays [false]. *)
Definition load_database_from_file (self : FsearchDatabase)
  : FsearchDatabase * list FsearchDatabaseEvent :=
  match db_file self with
  | None => (self, [])
  | Some file =>
      match g_file_get_path file with
      | None => (self, [EVENT_LOAD_STARTED])
      | Some file_path =>
          let store : option FsearchDatabaseIndexStore := None in
          let res := false in
          let self := if res then set_db_store store self else self in
          (self, [EVENT_LOAD_STARTED; EVENT_LOAD_FINISHED (get_database_info self)])
      end
  end.

(** One iteration of the loop of [work_queue_thread] on a work item other
    than [QUIT]; no result when the handler does not return. *)
Definition work_queue_step (h : Heap) (self : FsearchDatabase) (work : FsearchDatabaseWork)
  : option (FsearchDatabase * list FsearchDatabaseEvent) :=
  match work with
  | FSEARCH_DATABASE_WORK_QUIT => Some (self, [])
  | FSEARCH_DATABASE_WORK_LOAD_FROM_FILE => Some (load_database_from_file self)
  | FSEARCH_DATABASE_WORK_GET_ITEM_INFO view_id idx flags =>
      match (get_entry_info h self view_id idx flags).2 with
      | Some info => Some (self, [EVENT_ITEM_INFO_READY view_id info])
      | None => Some (self, [])
      end
  | FSEARCH_DATABASE_WORK_SAVE_TO_FILE =>
      Some (save_database_to_file self, [EVENT_SAVE_STARTED; EVENT_SAVE_FINISHED])
  | FSEARCH_DATABASE_WORK_SCAN include_manager exclude_manager flags =>
      Some (scan_database self include_manager exclude_manager flags)
  | FSEARCH_DATABASE_WORK_MODIFY_SELECTION view_id type start_idx end_idx =>
      modify_selection h self view_id type start_idx end_idx
  end.

(** [work_queue_thread] draining a queue: items are handled in order until
    the queue is empty or a [QUIT] item is popped.  The thread gets no
    further than a handler that does not return. *)
Fixpoint work_queue_thread (h : Heap) (self : FsearchDatabase)
    (work_queue : list FsearchDatabaseWork)
  : option (FsearchDatabase * list FsearchDatabaseEvent) :=
  match work_queue with
  | [] => Some (self, [])
  | FSEARCH_DATABASE_WORK_QUIT :: _ => Some (self, [])
  | work :: rest =>
      '(self, events) ← work_queue_step h self work;
      '(self, later) ← work_queue_thread h self rest;
      Some (self, events ++ later)
  end.

(** ** Observable states of the index store *)

(** The number of sort keys whose slot of [array] holds a container. *)
Definition count_slots
    (array : gmap FsearchDatabaseIndexProperty FsearchDatabaseEntriesContainer) : nat :=
  length (filter (λ k, is_Some (array !! k)) index_properties).

Definition fast_sort_invariant (self : FsearchDatabaseIndexStore) : Prop :=
  count_slots (store_folder_container self) = index_store_get_num_fast_sort_indices self
  ∧ index_store_get_num_fast_sort_indices self = count_slots (store_file_container self).

(** Every slot holds a folder container exactly when it holds a file
    container. *)
Definition slots_paired (self : FsearchDatabaseIndexStore) : Prop :=
  ∀ k, is_Some (store_folder_container self !! k) ↔ is_Some (store_file_container self !! k).

(** The states an index store goes through: construction, a start
    (completed or cancelled) under a token that stays cancelled once it is,
    the start of monitoring, and the additions and removals that
    [index_event_cb] performs on entry-created and entry-deleted events. *)
Inductive store_reachable : FsearchDatabaseIndexStore → Prop :=
  | reachable_new include_manager exclude_manager flags :
      store_reachable (index_store_new include_manager exclude_manager flags)
  | reachable_start self cancellable :
      store_reachable self →
      cancellable_sticky cancellable →
      store_reachable (index_store_start self cancellable)
  | reachable_start_monitoring self :
      store_reachable self →
      store_reachable (index_store_start_monitoring self)
  | reachable_add_entries self entries is_dir :
      store_reachable self →
      store_reachable (index_store_add_entries self entries is_dir)
  | reachable_remove_folders self folders index self' :
      store_reachable self →
      index_store_remove_folders self folders index = Some self' →
      store_reachable self'
  | reachable_remove_files self files index self' :
      store_reachable self →
      index_store_remove_files self files index = Some self' →
      store_reachable self'
  | reachable_remove_entry h self entry index self' :
      store_reachable self →
      index_store_remove_entry h self entry index = Some self' →
      store_reachable self'.

End Engine.

(* ===================================================================== *)
(** * Shapes of an index store *)
(* ===================================================================== *)

(** A store that is not running: no per-root index and no container. *)
Definition store_idle (self : FsearchDatabaseIndexStore) : Prop :=
  store_running self = false
  ∧ store_indices self = []
  ∧ ∀ k, store_file_container self !! k = None ∧ store_folder_container self !! k = None.

(** A store that completed its start: it is running and sorted and holds a
    folder container and a file container for each of the five sort keys. *)
Definition store_complete (self : FsearchDatabaseIndexStore) : Prop :=
  store_running self = true
  ∧ store_is_sorted self = true
  ∧ ∀ k, k ∈ index_properties →
      is_Some (store_folder_container self !! k) ∧ is_Some (store_file_container self !! k).

(** The containers of one entry type hold the same entries whatever the
    sort key. *)
Definition store_consistent (self : FsearchDatabaseIndexStore) : Prop :=
  ∀ k k' c c',
    (store_folder_container self !! k = Some c → store_folder_container self !! k' = Some c' →
       fsearch_database_entries_container_get_joined c
       ≡ₚ fsearch_database_entries_container_get_joined c')
    ∧ (store_file_container self !! k = Some c → store_file_container self !! k' = Some c' →
         fsearch_database_entries_container_get_joined c
         ≡ₚ fsearch_database_entries_container_get_joined c').

(** The container [fsearch_database_entries_container_new] builds for a sort
    key when it is not cancelled. *)
Definition built_container
    (sort_entries : FsearchDatabaseIndexProperty → FsearchDatabaseIndexProperty →
                    FsearchDatabaseEntryType → list nat → list (list nat))
    (k : FsearchDatabaseIndexProperty) (type : FsearchDatabaseEntryType) (entries : list nat)
  : FsearchDatabaseEntriesContainer :=
  {| c_containers := sort_entries k DATABASE_INDEX_PROPERTY_NONE type entries;
     c_sort_order := k;
     c_secondary_sort_order := DATABASE_INDEX_PROPERTY_NONE;
     c_entry_type := type |}.

(** Two stores that differ at most in their indices and in [is_sorted]. *)
Definition same_but_indices (self self' : FsearchDatabaseIndexStore) : Prop :=
  store_file_container self' = store_file_container self
  ∧ store_folder_container self' = store_folder_container self
  ∧ store_include_manager self' = store_include_manager self
  ∧ store_exclude_manager self' = store_exclude_manager self
  ∧ store_flags self' = store_flags self
  ∧ store_running self' = store_running self.

(** A token that is not cancelled at any point of the call. *)
Definition never_cancelled (cancellable : GCancellable) : Prop :=
  ∀ p, (p ≤ POINT_FINAL_CHECK)%nat → g_cancellable_is_cancelled cancellable p = false.

(** The shape of the store at every state it can be observed in. *)
Definition store_shape (self : FsearchDatabaseIndexStore) : Prop :=
  (store_idle self ∨ store_complete self)
  ∧ NoDup (index_id <$> store_indices self)
  ∧ store_folder_container self !! DATABASE_INDEX_PROPERTY_NONE = None
  ∧ store_file_container self !! DATABASE_INDEX_PROPERTY_NONE = None.

(* ===================================================================== *)
(** * Snapshot codec: entry records *)
(* ===================================================================== *)

(** [GString] operations on the bytes of the string. *)
Definition g_string_erase_to_end (s : list Z) (pos : Z) : list Z :=
  if bool_decide (0 <= pos <= Z.of_nat (length s)) then take (Z.to_nat pos) s else s.

Definition g_string_append (s : list Z) (val : list Z) : list Z := s ++ c_str val.

(** [get_name_offset]: the loop stops at the first difference, at the end
    of either string, or at offset 255. *)
Fixpoint get_name_offset_loop (old new : list Z) (room : nat) : Z :=
  match room, old, new with
  | S room, o :: old, n :: new =>
      if bool_decide (o = n) && negb (o =? 0) && negb (n =? 0)
      then 1 + get_name_offset_loop old new room
      else 0
  | _, _, _ => 0
  end.

Definition get_name_offset (old new : list Z) : Z := get_name_offset_loop old new 255.

(** [copy_bytes_and_return_new_src]: the [len] bytes copied and the advanced
    source.  Reading past the end of the block is undefined: [None]. *)
Definition copy_bytes_and_return_new_src (src : list Z) (len : nat)
  : option (list Z * list Z) :=
  if bool_decide (len <= length src)%nat then Some (take len src, drop len src) else None.

(** A file opened for writing: the bytes written, and how many more bytes
    the medium accepts before [fwrite] fails. *)
Record FILE := { file_bytes : list Z; file_room : nat }.

(** [write_data_to_file]: [Some (bytes written, file)], or [None] when
    [*write_failed] is set. *)
Definition write_data_to_file (fp : FILE) (data : list Z) : option (Z * FILE) :=
  if bool_decide (length data = 0%nat) then Some (0, fp)
  else if bool_decide (length data <= file_room fp)%nat then
    Some (Z.of_nat (length data),
          {| file_bytes := file_bytes fp ++ data;
             file_room := (file_room fp - length data)%nat |})
  else None.

Definition db_entry_get_idx (h : Heap) (entry : nat) : option Z := e_idx <$> h !! entry.

Fixpoint update_folder_indices_from (h : Heap) (folders : list nat) (i : Z) : Heap :=
  match folders with
  | [] => h
  | folder :: rest => update_folder_indices_from (alter (db_entry_set_idx i) folder h) rest (i + 1)
  end.

Definition update_folder_indices (h : Heap) (folders : list nat) : Heap :=
  update_folder_indices_from h folders 0.

Section Codec.

(** The property flags of fsearch_database_index.h, which is not among the
    sources. *)
Variable DATABASE_INDEX_PROPERTY_FLAG_SIZE : Z.
Variable DATABASE_INDEX_PROPERTY_FLAG_MODIFICATION_TIME : Z.

(** What [fsearch_memory_pool_malloc] hands out before the loader sets any
    field. *)
Variable pool_entry : FsearchDatabaseEntry.

(** [save_entry_super_elements]: the bytes written, the updated
    [previous_entry_name] and the file; [None] when a write failed. *)
Definition save_entry_super_elements (fp : FILE) (index_flags : Z)
    (entry : FsearchDatabaseEntry) (parent_idx : Z) (previous_entry_name : list Z)
  : option (Z * list Z * FILE) :=
  let new_entry_name := g_string_append [] (e_name entry) in
  let bytes_written := 0 in
  let name_offset := get_name_offset previous_entry_name new_entry_name in
  '(n, fp) ← write_data_to_file fp [name_offset];
  let bytes_written := bytes_written + n in
  let name_len := uint8_t (Z.of_nat (length new_entry_name) - name_offset) in
  '(n, fp) ← write_data_to_file fp [name_len];
  let bytes_written := bytes_written + n in
  let previous_entry_name := g_string_erase_to_end previous_entry_name name_offset in
  let previous_entry_name :=
    g_string_append previous_entry_name (drop (Z.to_nat name_offset) new_entry_name) in
  '(bytes_written, fp) ←
    (if name_len >? 0 then
       let name := take (Z.to_nat name_len) (drop (Z.to_nat name_offset) previous_entry_name) in
       '(n, fp) ← write_data_to_file fp name;
       Some (bytes_written + n, fp)
     else Some (bytes_written, fp));
  '(bytes_written, fp) ←
    (if bool_decide (Z.land index_flags DATABASE_INDEX_PROPERTY_FLAG_SIZE ≠ 0) then
       let size := uint64_t (e_size entry) in
       '(n, fp) ← write_data_to_file fp (le_bytes 8 size);
       Some (bytes_written + n, fp)
     else Some (bytes_written, fp));
  '(bytes_written, fp) ←
    (if bool_decide (Z.land index_flags DATABASE_INDEX_PROPERTY_FLAG_MODIFICATION_TIME ≠ 0) then
       let mtime := uint64_t (e_mtime entry) in
       '(n, fp) ← write_data_to_file fp (le_bytes 8 mtime);
       Some (bytes_written + n, fp)
     else Some (bytes_written, fp));
  '(n, fp) ← write_data_to_file fp (le_bytes 4 parent_idx);
  Some (bytes_written + n, previous_entry_name, fp).

(** The loop of [save_folders] over the folders not yet written.  [None]
    when a write failed or a pointer does not address an entry. *)
Fixpoint save_folders_loop (fp : FILE) (index_flags : Z) (h : Heap) (folders : list nat)
    (name_prev : list Z) (bytes_written : Z) : option (Z * FILE) :=
  match folders with
  | [] => Some (bytes_written, fp)
  | folder :: rest =>
      entry ← h !! folder;
      let db_index := uint16_t (e_db_index entry) in
      '(n, fp) ← write_data_to_file fp (le_bytes 2 db_index);
      let bytes_written := bytes_written + n in
      parent_idx ← match e_parent entry with
                   | Some parent => db_entry_get_idx h parent
                   | None => Some (e_idx entry)
                   end;
      '(n, name_prev, fp) ← save_entry_super_elements fp index_flags entry parent_idx name_prev;
      save_folders_loop fp index_flags h rest name_prev (bytes_written + n)
  end.

Definition save_folders (fp : FILE) (index_flags : Z) (h : Heap) (folders : list nat)
  : option (Z * FILE) :=
  save_folders_loop fp index_flags h folders [] 0.

(** The loop of [save_files]; it stores [i] as the idx of the i-th file.
    A file without a parent does not occur in a store and what
    [db_entry_get_idx (NULL)] returns is not in the sources: [None]. *)
Fixpoint save_files_loop (fp : FILE) (index_flags : Z) (h : Heap) (files : list nat)
    (i : Z) (name_prev : list Z) (bytes_written : Z) : option (Z * FILE * Heap) :=
  match files with
  | [] => Some (bytes_written, fp, h)
  | file :: rest =>
      _ ← h !! file;
      let h := alter (db_entry_set_idx i) file h in
      entry ← h !! file;
      parent ← e_parent entry;
      parent_idx ← db_entry_get_idx h parent;
      '(n, name_prev, fp) ← save_entry_super_elements fp index_flags entry parent_idx name_prev;
      save_files_loop fp index_flags h rest (i + 1) name_prev (bytes_written + n)
  end.

Definition save_files (fp : FILE) (index_flags : Z) (h : Heap) (files : list nat)
  : option (Z * FILE * Heap) :=
  save_files_loop fp index_flags h files 0 [] 0.

(** [load_entry_super_elements_from_memory]: the advanced block pointer,
    the entry with its fields set, and the updated [previous_entry_name]. *)
Definition load_entry_super_elements_from_memory (data_block : list Z) (index_flags : Z)
    (entry : FsearchDatabaseEntry) (previous_entry_name : list Z)
  : option (list Z * FsearchDatabaseEntry * list Z) :=
  '(b, data_block) ← copy_bytes_and_return_new_src data_block 1;
  let name_offset := le_value b in
  '(b, data_block) ← copy_bytes_and_return_new_src data_block 1;
  let name_len := le_value b in
  let previous_entry_name := g_string_erase_to_end previous_entry_name name_offset in
  '(name, data_block) ←
    (if name_len >? 0 then copy_bytes_and_return_new_src data_block (Z.to_nat name_len)
     else Some ([], data_block));
  let previous_entry_name := g_string_append previous_entry_name (name ++ [0]) in
  let entry := db_entry_set_name previous_entry_name entry in
  '(entry, data_block) ←
    (if bool_decide (Z.land index_flags DATABASE_INDEX_PROPERTY_FLAG_SIZE ≠ 0) then
       '(size, data_block) ← copy_bytes_and_return_new_src data_block 8;
       Some (db_entry_set_size (int64_t (le_value size)) entry, data_block)
     else Some (entry, data_block));
  '(entry, data_block) ←
    (if bool_decide (Z.land index_flags DATABASE_INDEX_PROPERTY_FLAG_MODIFICATION_TIME ≠ 0) then
       '(mtime, data_block) ← copy_bytes_and_return_new_src data_block 8;
       Some (db_entry_set_mtime (int64_t (le_value mtime)) entry, data_block)
     else Some (entry, data_block));
  Some (data_block, entry, previous_entry_name).

(** [darray_get_item (folders, parent_idx)] as a pointer into the loaded
    folder array: the slot number, NULL when out of range. *)
Definition folder_slot (folders : list FsearchDatabaseEntry) (parent_idx : Z) : option nat :=
  if bool_decide (0 <= parent_idx < Z.of_nat (length folders))
  then Some (Z.to_nat parent_idx) else None.

(** The loop of [load_folders] over slots [idx, idx + 1, ...]; [todo] counts
    the iterations left.  The parent of a loaded entry points into the
    loaded folder array. *)
Fixpoint load_folders_loop (fb : list Z) (index_flags : Z)
    (folders : list FsearchDatabaseEntry) (idx : nat) (todo : nat)
    (previous_entry_name : list Z) : option (list Z * list FsearchDatabaseEntry) :=
  match todo with
  | O => Some (fb, folders)
  | S todo =>
      entry ← folders !! idx;
      '(_, fb) ← copy_bytes_and_return_new_src fb 2;
      '(fb, entry, previous_entry_name) ←
        load_entry_super_elements_from_memory fb index_flags entry previous_entry_name;
      '(b, fb) ← copy_bytes_and_return_new_src fb 4;
      let parent_idx := le_value b in
      let entry :=
        if bool_decide (parent_idx ≠ e_idx entry)
        then db_entry_set_parent (folder_slot folders parent_idx) entry
        else db_entry_set_parent None entry in
      load_folders_loop fb index_flags (<[idx := entry]> folders) (S idx) todo
        previous_entry_name
  end.

(** [load_folders]: [Some] of the stream after the block and the loaded
    folders when it returns [true].  The block is read into a buffer one
    byte longer than the block, zero-filled. *)
Definition load_folders (fp : list Z) (index_flags : Z)
    (folders : list FsearchDatabaseEntry) (num_folders : nat) (folder_block_size : nat)
  : option (list Z * list FsearchDatabaseEntry) :=
  if bool_decide (length fp < folder_block_size)%nat then None
  else
    let folder_block := take folder_block_size fp ++ [0] in
    '(fb, folders) ← load_folders_loop folder_block index_flags folders 0 num_folders [];
    if bool_decide (length folder_block - length fb ≠ folder_block_size)%nat then None
    else Some (drop folder_block_size fp, folders).

Fixpoint load_files_loop (fb : list Z) (index_flags : Z)
    (folders : list FsearchDatabaseEntry) (files : list FsearchDatabaseEntry)
    (idx : nat) (todo : nat) (previous_entry_name : list Z)
  : option (list Z * list FsearchDatabaseEntry) :=
  match todo with
  | O => Some (fb, files)
  | S todo =>
      let entry := pool_entry in
      let entry := db_entry_set_type DATABASE_ENTRY_TYPE_FILE entry in
      let entry := db_entry_set_idx (Z.of_nat idx) entry in
      '(fb, entry, previous_entry_name) ←
        load_entry_super_elements_from_memory fb index_flags entry previous_entry_name;
      '(b, fb) ← copy_bytes_and_return_new_src fb 4;
      let parent_idx := le_value b in
      let entry := db_entry_set_parent (folder_slot folders parent_idx) entry in
      load_files_loop fb index_flags folders (files ++ [entry]) (S idx) todo
        previous_entry_name
  end.

Definition load_files (fp : list Z) (index_flags : Z)
    (folders : list FsearchDatabaseEntry) (num_files : nat) (file_block_size : nat)
  : option (list Z * list FsearchDatabaseEntry) :=
  if bool_decide (length fp < file_block_size)%nat then None
  else
    let file_block := take file_block_size fp ++ [0] in
    '(fb, files) ← load_files_loop file_block index_flags folders [] 0 num_files [];
    if bool_decide (length file_block - length fb ≠ file_block_size)%nat then None
    else Some (drop file_block_size fp, files).

(** The folder array [db_file_load] allocates before it loads the
    folders: slot [i] has idx [i], type folder and no parent. *)
Definition preallocated_folders (num_folders : nat) : list FsearchDatabaseEntry :=
  (λ i : nat, db_entry_set_parent None
         (db_entry_set_type DATABASE_ENTRY_TYPE_FOLDER
            (db_entry_set_idx (Z.of_nat i) pool_entry))) <$> seq 0 num_folders.

(** The steps of [db_file_save] that write the folder block and the file
    block: refresh the folder indices, [save_folders], [save_files]. *)
Definition save_entry_blocks (fp : FILE) (index_flags : Z) (h : Heap)
    (folders files : list nat) : option (Z * Z * FILE * Heap) :=
  let h := update_folder_indices h folders in
  '(folder_block_size, fp) ← save_folders fp index_flags h folders;
  '(file_block_size, fp, h) ← save_files fp index_flags h files;
  Some (folder_block_size, file_block_size, fp, h).

(** The steps of [db_file_load] that read them back: allocate the folder
    array, [load_folders], [load_files]. *)
Definition load_entry_blocks (fp : list Z) (index_flags : Z)
    (num_folders num_files : nat) (folder_block_size file_block_size : nat)
  : option (list Z * list FsearchDatabaseEntry * list FsearchDatabaseEntry) :=
  let folders := preallocated_folders num_folders in
  '(fp, folders) ← load_folders fp index_flags folders num_folders folder_block_size;
  '(fp, files) ← load_files fp index_flags folders num_files file_block_size;
  Some (fp, folders, files).

End Codec.

(* ===================================================================== *)
(** * Snapshot codec: sorted arrays *)
(* ===================================================================== *)

(** The sort ids [1 <= id < NUM_DATABASE_INDEX_PROPERTIES] of the
    sorted-arrays block; id 0, the name order, is the order of the folder
    and file blocks themselves. *)
Definition sorted_array_ids : list FsearchDatabaseIndexProperty := drop 1 index_properties.

(** [build_sorted_entry_index_list]: the idx of each of the first
    [num_entries] entries.  [None] when the array is shorter or a pointer
    does not address an entry. *)
Definition build_sorted_entry_index_list (h : Heap) (entries : list nat) (num_entries : nat)
  : option (list Z) :=
  mapM (λ i, entry ← entries !! i; db_entry_get_idx h entry) (seq 0 num_entries).

Definition save_sorted_entries (fp : FILE) (h : Heap) (entries : list nat) (num_entries : nat)
  : option (Z * FILE) :=
  if bool_decide (num_entries < 1)%nat then Some (0, fp)
  else
    sorted_entry_index_list ← build_sorted_entry_index_list h entries num_entries;
    write_data_to_file fp (concat (le_bytes 4 <$> sorted_entry_index_list)).

(** The body of the loop of [save_sorted_arrays] for one sort id. *)
Definition save_sorted_array (h : Heap) (store : FsearchDatabaseIndexStore)
    (num_files num_folders : nat) (acc : option (Z * FILE)) (id : FsearchDatabaseIndexProperty)
  : option (Z * FILE) :=
  '(bytes_written, fp) ← acc;
  match index_store_get_folders store id, index_store_get_files store id with
  | Some folder_container, Some file_container =>
      let folders := fsearch_database_entries_container_get_joined folder_container in
      let files := fsearch_database_entries_container_get_joined file_container in
      '(n, fp) ← write_data_to_file fp (le_bytes 4 (Z.of_nat (property_code id)));
      let bytes_written := bytes_written + n in
      '(n, fp) ← save_sorted_entries fp h folders num_folders;
      let bytes_written := bytes_written + n in
      '(n, fp) ← save_sorted_entries fp h files num_files;
      Some (bytes_written + n, fp)
  | _, _ => Some (bytes_written, fp)
  end.

Definition save_sorted_arrays (fp : FILE) (h : Heap) (store : FsearchDatabaseIndexStore)
    (num_files num_folders : nat) : option (Z * FILE) :=
  let num_sorted_arrays := Z.of_nat (index_store_get_num_fast_sort_indices store) in
  '(bytes_written, fp) ← write_data_to_file fp (le_bytes 4 num_sorted_arrays);
  if num_sorted_arrays <? 1 then Some (bytes_written, fp)
  else foldl (save_sorted_array h store num_files num_folders) (Some (bytes_written, fp))
         sorted_array_ids.

(** [fread (ptr, size, nmemb, stream) == nmemb]: all [nmemb] elements could
    be read (none are asked for when [nmemb] is 0). *)
Definition read_elements_from_file (size nmemb : nat) (stream : list Z)
  : option (list Z * list Z) :=
  if bool_decide (size * nmemb <= length stream)%nat
  then Some (take (size * nmemb) stream, drop (size * nmemb) stream)
  else None.

(** The [uint32_t] elements of a buffer. *)
Fixpoint uint32_elements (nmemb : nat) (buf : list Z) : list Z :=
  match nmemb with
  | O => []
  | S nmemb => le_value (take 4 buf) :: uint32_elements nmemb (drop 4 buf)
  end.

(** [load_sorted_entries]: the loaded order, as slots of the array [src] of
    [num_src_entries] loaded entries, and the rest of the stream. *)
Definition load_sorted_entries (fp : list Z) (num_src_entries : nat)
  : option (list nat * list Z) :=
  '(buf, fp) ← read_elements_from_file 4 num_src_entries fp;
  dest ← mapM (λ idx, if bool_decide (0 <= idx < Z.of_nat num_src_entries)
                      then Some (Z.to_nat idx) else None)
              (uint32_elements num_src_entries buf);
  Some (dest, fp).

(** The loop of [load_sorted_arrays]; [todo] counts the arrays still
    announced. *)
Fixpoint load_sorted_arrays_loop (fp : list Z) (num_folders num_files : nat) (todo : nat)
    (sorted_folders sorted_files : gmap FsearchDatabaseIndexProperty (list nat))
  : option (gmap FsearchDatabaseIndexProperty (list nat)
            * gmap FsearchDatabaseIndexProperty (list nat)) :=
  match todo with
  | O => Some (sorted_folders, sorted_files)
  | S todo =>
      '(b, fp) ← read_element_from_file 4 fp;
      let sorted_array_id := le_value b in
      if bool_decide (sorted_array_id < 1 ∨ sorted_array_id >= NUM_DATABASE_INDEX_PROPERTIES)
      then None
      else
        id ← property_of_code (Z.to_nat sorted_array_id);
        '(folders, fp) ← load_sorted_entries fp num_folders;
        '(files, fp) ← load_sorted_entries fp num_files;
        load_sorted_arrays_loop fp num_folders num_files todo
          (<[id := folders]> sorted_folders) (<[id := files]> sorted_files)
  end.

(** [load_sorted_arrays] on the arrays of [num_folders] loaded folders and
    [num_files] loaded files: [None] when it returns [false]. *)
Definition load_sorted_arrays (fp : list Z) (num_folders num_files : nat)
  : option (gmap FsearchDatabaseIndexProperty (list nat)
            * gmap FsearchDatabaseIndexProperty (list nat)) :=
  '(b, fp) ← read_element_from_file 4 fp;
  let num_sorted_arrays := le_value b in
  load_sorted_arrays_loop fp num_folders num_files (Z.to_nat num_sorted_arrays) ∅ ∅.

(* ===================================================================== *)
(** * Snapshot codec: the whole file *)
(* ===================================================================== *)

Definition save_header (fp : FILE) : option (Z * FILE) :=
  let bytes_written := 0 in
  let magic := DATABASE_MAGIC_NUMBER in
  '(n, fp) ← write_data_to_file fp magic;
  let bytes_written := bytes_written + n in
  let majorver := uint8_t DATABASE_MAJOR_VERSION in
  '(n, fp) ← write_data_to_file fp [majorver];
  let bytes_written := bytes_written + n in
  let minorver := uint8_t DATABASE_MINOR_VERSION in
  '(n, fp) ← write_data_to_file fp [minorver];
  Some (bytes_written + n, fp).

(** The index and exclude tables are not stored yet: a count of 0 each. *)
Definition save_indexes (fp : FILE) (store : FsearchDatabaseIndexStore) : option (Z * FILE) :=
  let bytes_written := 0 in
  let num_indexes := 0 in
  '(n, fp) ← write_data_to_file fp (le_bytes 4 num_indexes);
  Some (bytes_written + n, fp).

Definition save_excludes (fp : FILE) (store : FsearchDatabaseIndexStore) : option (Z * FILE) :=
  let bytes_written := 0 in
  let num_excludes := 0 in
  '(n, fp) ← write_data_to_file fp (le_bytes 4 num_excludes);
  Some (bytes_written + n, fp).

Definition save_exclude_pattern (fp : FILE) (store : FsearchDatabaseIndexStore)
  : option (Z * FILE) :=
  Some (0, fp).

(** [load_entry_super_elements], the decoder that reads a record from the
    stream.  It has no flags parameter and always reads a size. *)
Definition load_entry_super_elements (fp : list Z) (entry : FsearchDatabaseEntry)
    (previous_entry_name : list Z) : option (list Z * FsearchDatabaseEntry * list Z) :=
  '(b, fp) ← read_element_from_file 1 fp;
  let name_offset := le_value b in
  '(b, fp) ← read_element_from_file 1 fp;
  let name_len := le_value b in
  let previous_entry_name := g_string_erase_to_end previous_entry_name name_offset in
  '(name, fp) ←
    (if name_len >? 0 then read_element_from_file (Z.to_nat name_len) fp
     else Some ([], fp));
  let previous_entry_name := g_string_append previous_entry_name (name ++ [0]) in
  let entry := db_entry_set_name previous_entry_name entry in
  '(size, fp) ← read_element_from_file 8 fp;
  let entry := db_entry_set_size (int64_t (le_value size)) entry in
  Some (fp, entry, previous_entry_name).

Definition load_parent_idx (fp : list Z) : option (Z * list Z) :=
  '(b, fp) ← read_element_from_file 4 fp;
  Some (le_value b, fp).

(** ** The file system under [db_file_save] and [db_file_load]

    The directories, the regular files with their contents, and the files
    another process holds an exclusive lock on.  A call fails for the
    reasons this state can express: a missing file, a directory in the way,
    a lock held elsewhere, a medium that is full. *)
Record FileSystem := {
  fs_dirs : gset string;
  fs_files : gmap string (list Z);
  fs_locked : gset string;
}.

Definition set_fs_files (v : gmap string (list Z)) (fs : FileSystem) : FileSystem :=
  {| fs_dirs := fs_dirs fs; fs_files := v; fs_locked := fs_locked fs |}.

(** [g_file_test (path, G_FILE_TEST_IS_DIR)] *)
Definition g_file_test_is_dir (fs : FileSystem) (path : string) : bool :=
  bool_decide (path ∈ fs_dirs fs).

Definition unlink (path : string) (fs : FileSystem) : FileSystem :=
  set_fs_files (delete path (fs_files fs)) fs.

(** [fclose] of a file opened for writing: the bytes written are the
    content of the file. *)
Definition fclose (path : string) (fp : FILE) (fs : FileSystem) : FileSystem :=
  set_fs_files (<[path := file_bytes fp]> (fs_files fs)) fs.

(** [rename (old, new)]; [None] when it fails.  Whether a rename of an
    existing file succeeds is an input, [rename_ok]. *)
Definition rename (rename_ok : bool) (old new : string) (fs : FileSystem)
  : option FileSystem :=
  match fs_files fs !! old with
  | Some content =>
      if rename_ok then Some (set_fs_files (<[new := content]> (delete old (fs_files fs))) fs)
      else None
  | None => None
  end.

(** [file_open_locked (file_path, "wb")]: [fopen] creates or truncates the
    file, then [flock] fails when another process holds the lock.  [room]
    is the number of bytes the medium accepts. *)
Definition file_open_locked_wb (fs : FileSystem) (file_path : string) (room : nat)
  : FileSystem * option FILE :=
  if bool_decide (file_path ∈ fs_dirs fs) then (fs, None)
  else
    let fs := set_fs_files (<[file_path := []]> (fs_files fs)) fs in
    if bool_decide (file_path ∈ fs_locked fs) then (fs, None)
    else (fs, Some {| file_bytes := []; file_room := room |}).

(** [file_open_locked (file_path, "rb")]: the bytes of the file. *)
Definition file_open_locked_rb (fs : FileSystem) (file_path : string) : option (list Z) :=
  match fs_files fs !! file_path with
  | None => None
  | Some content => if bool_decide (file_path ∈ fs_locked fs) then None else Some content
  end.

(** [fseek (fp, offset, SEEK_SET)] followed by [write_data_to_file]: the
    data replaces the bytes from [offset] on; only bytes past the end of the
    file take room. *)
Definition write_data_to_file_at (fp : FILE) (offset : nat) (data : list Z)
  : option (Z * FILE) :=
  if bool_decide (length data = 0%nat) then Some (0, fp)
  else
    let bytes := file_bytes fp ++ replicate (offset - length (file_bytes fp)) 0 in
    let grow := (offset + length data - length (file_bytes fp))%nat in
    if bool_decide (grow <= file_room fp)%nat then
      Some (Z.of_nat (length data),
            {| file_bytes := take offset bytes ++ data ++ drop (offset + length data) bytes;
               file_room := (file_room fp - grow)%nat |})
    else None.

(** ** [db_file_save]

    What a sequence of writes comes to: all written, a write failed
    ([goto save_fail]), or the process was aborted. *)
Inductive Written (A : Type) :=
  | WRITTEN (a : A)
  | WRITE_FAILED
  | ABORTED.

Arguments WRITTEN {A} a.
Arguments WRITE_FAILED {A}.
Arguments ABORTED {A}.

Global Instance Written_bind : MBind Written := λ A B k m,
  match m with
  | WRITTEN a => k a
  | WRITE_FAILED => WRITE_FAILED
  | ABORTED => ABORTED
  end.

(** A write that sets [write_failed] on failure. *)
Definition checked {A} (m : option A) : Written A :=
  match m with
  | Some a => WRITTEN a
  | None => WRITE_FAILED
  end.

(** A pointer the code goes on to use without a test.  For the folder
    container a NULL pointer ends in [g_assert (folders)]; what the array
    functions do with the NULL file array is not in the sources. *)
Definition non_null {A} (m : option A) : Written A :=
  match m with
  | Some a => WRITTEN a
  | None => ABORTED
  end.

Section CodecFile.

Variable DATABASE_INDEX_PROPERTY_FLAG_SIZE : Z.
Variable DATABASE_INDEX_PROPERTY_FLAG_MODIFICATION_TIME : Z.
Variable pool_entry : FsearchDatabaseEntry.

(** The writes of [db_file_save] to the temporary file, from the header to
    the two block sizes that are filled in at the end. *)
Definition db_file_save_write (fp : FILE) (h : Heap) (store : FsearchDatabaseIndexStore)
  : Written (FILE * Heap) :=
  let bytes_written := 0 in
  '(n, fp) ← checked (save_header fp);
  let bytes_written := bytes_written + n in
  let index_flags := uint64_t (store_flags store) in
  '(n, fp) ← checked (write_data_to_file fp (le_bytes 8 index_flags));
  let bytes_written := bytes_written + n in
  folder_container ← non_null (index_store_get_folders store DATABASE_INDEX_PROPERTY_NAME);
  let folders := fsearch_database_entries_container_get_joined folder_container in
  let h := update_folder_indices h folders in
  let num_folders := uint32_t (Z.of_nat (length folders)) in
  '(n, fp) ← checked (write_data_to_file fp (le_bytes 4 num_folders));
  let bytes_written := bytes_written + n in
  file_container ← non_null (index_store_get_files store DATABASE_INDEX_PROPERTY_NAME);
  let files := fsearch_database_entries_container_get_joined file_container in
  let num_files := uint32_t (Z.of_nat (length files)) in
  '(n, fp) ← checked (write_data_to_file fp (le_bytes 4 num_files));
  let bytes_written := bytes_written + n in
  let folder_block_size := 0 in
  let folder_block_size_offset := bytes_written in
  '(n, fp) ← checked (write_data_to_file fp (le_bytes 8 folder_block_size));
  let bytes_written := bytes_written + n in
  let file_block_size := 0 in
  '(n, fp) ← checked (write_data_to_file fp (le_bytes 8 file_block_size));
  let bytes_written := bytes_written + n in
  '(n, fp) ← checked (save_indexes fp store);
  let bytes_written := bytes_written + n in
  '(n, fp) ← checked (save_excludes fp store);
  let bytes_written := bytes_written + n in
  '(n, fp) ← checked (save_exclude_pattern fp store);
  let bytes_written := bytes_written + n in
  '(folder_block_size, fp) ←
    checked (save_folders DATABASE_INDEX_PROPERTY_FLAG_SIZE
               DATABASE_INDEX_PROPERTY_FLAG_MODIFICATION_TIME fp index_flags h folders);
  let bytes_written := bytes_written + folder_block_size in
  '(file_block_size, fp, h) ←
    checked (save_files DATABASE_INDEX_PROPERTY_FLAG_SIZE
               DATABASE_INDEX_PROPERTY_FLAG_MODIFICATION_TIME fp index_flags h files);
  let bytes_written := bytes_written + file_block_size in
  '(n, fp) ← checked (save_sorted_arrays fp h store (Z.to_nat num_files) (Z.to_nat num_folders));
  let bytes_written := bytes_written + n in
  let offset := Z.to_nat folder_block_size_offset in
  '(n, fp) ← checked (write_data_to_file_at fp offset (le_bytes 8 (uint64_t folder_block_size)));
  let bytes_written := bytes_written + n in
  let offset := (offset + 8)%nat in
  '(n, fp) ← checked (write_data_to_file_at fp offset (le_bytes 8 (uint64_t file_block_size)));
  WRITTEN (fp, h).

(** The result of [db_file_save]: [true] with the file system and the
    entries (whose idx fields it refreshes) after it, [false] with the file
    system after it, or no return. *)
Inductive SaveResult :=
  | SAVE_TRUE (fs : FileSystem) (h : Heap)
  | SAVE_FALSE (fs : FileSystem)
  | SAVE_ABORTED.

Definition db_file_save (fs : FileSystem) (room : nat) (rename_ok : bool) (h : Heap)
    (store : FsearchDatabaseIndexStore) (file_path : string) : SaveResult :=
  if negb (g_file_test_is_dir fs file_path) then SAVE_FALSE fs
  else
    let path_full := file_path +:+ "/" +:+ "fsearch.db" in
    let path_full_temp := path_full +:+ ".tmp" in
    let '(fs, fp) := file_open_locked_wb fs path_full_temp room in
    match fp with
    | None => SAVE_FALSE (unlink path_full_temp fs)
    | Some fp =>
        match db_file_save_write fp h store with
        | ABORTED => SAVE_ABORTED
        | WRITE_FAILED => SAVE_FALSE (unlink path_full_temp fs)
        | WRITTEN (fp, h) =>
            let fs := unlink path_full fs in
            let fs := fclose path_full_temp fp fs in
            match rename rename_ok path_full_temp path_full fs with
            | Some fs => SAVE_TRUE fs h
            | None => SAVE_FALSE (unlink path_full_temp fs)
            end
        end
    end.

(** The reads of [db_file_load], from the header to the sorted arrays:
    what was loaded, or [None] at [load_fail]. *)
Definition db_file_load_read (fp : list Z)
  : option (list FsearchDatabaseEntry * list FsearchDatabaseEntry
            * gmap FsearchDatabaseIndexProperty (list nat)
            * gmap FsearchDatabaseIndexProperty (list nat)) :=
  fp ← load_header fp;
  '(b, fp) ← read_element_from_file 8 fp;
  let index_flags := le_value b in
  '(b, fp) ← read_element_from_file 4 fp;
  let num_folders := le_value b in
  '(b, fp) ← read_element_from_file 4 fp;
  let num_files := le_value b in
  '(b, fp) ← read_element_from_file 8 fp;
  let folder_block_size := le_value b in
  '(b, fp) ← read_element_from_file 8 fp;
  let file_block_size := le_value b in
  '(b, fp) ← read_element_from_file 4 fp;
  let num_indexes := le_value b in
  '(b, fp) ← read_element_from_file 4 fp;
  let num_excludes := le_value b in
  '(fp, folders, files) ←
    load_entry_blocks DATABASE_INDEX_PROPERTY_FLAG_SIZE
      DATABASE_INDEX_PROPERTY_FLAG_MODIFICATION_TIME pool_entry fp index_flags
      (Z.to_nat num_folders) (Z.to_nat num_files)
      (Z.to_nat folder_block_size) (Z.to_nat file_block_size);
  '(sorted_folders, sorted_files) ←
    load_sorted_arrays fp (Z.to_nat num_folders) (Z.to_nat num_files);
  Some (folders, files, sorted_folders, sorted_files).

(** [db_file_load] returns a boolean and nothing else: the code that would
    hand the loaded arrays to the caller is commented out. *)
Definition db_file_load (fs : FileSystem) (file_path : string) : bool :=
  match file_open_locked_rb fs file_path with
  | None => false
  | Some fp => bool_decide (is_Some (db_file_load_read fp))
  end.

End CodecFile.

(* ===================================================================== *)
(** * Snapshot codec: what a round trip compares *)
(* ===================================================================== *)

(** The bytes of a name, a C string: none of them is NUL. *)
Definition name_ok (name : list Z) : Prop := Forall (λ b, 0 < b < 256) name.

(** The names of the entries behind an array of pointers, in order. *)
Definition entry_names (h : Heap) (entries : list nat) : list (list Z) :=
  (λ p, from_option e_name [] (h !! p)) <$> entries.

(** The names a block of records can carry after a record of name
    [previous_entry_name]: [name_len] is a [uint8_t], so a name has at most
    255 bytes after the prefix that [get_name_offset] finds it shares with
    the name of the record before it. *)
Fixpoint names_fit (previous_entry_name : list Z) (names : list (list Z)) : Prop :=
  match names with
  | [] => True
  | name :: names =>
      Z.of_nat (length name) - get_name_offset previous_entry_name name <= 255
      ∧ names_fit name names
  end.

(** The range of [off_t] and [time_t]. *)
Definition in_int64 (v : Z) : Prop := - 2 ^ 63 <= v < 2 ^ 63.

(** The parent link of a loaded entry (a slot of the loaded folder array)
    against the parent pointer of the saved one: both absent, or the slot is
    the position of the parent in the saved folder array. *)
Definition parent_agrees (folders : list nat) (parent loaded_parent : option nat) : Prop :=
  match parent with
  | None => loaded_parent = None
  | Some parent => ∃ j, folders !! j = Some parent ∧ loaded_parent = Some j
  end.

(** A loaded entry against the saved one: the name, the type and the
    parent link of the saved entry; its size and its modification time when
    the flag of the field is set, and otherwise what the freshly allocated
    [pool_entry] held, since the field is neither stored nor set. *)
Definition entry_agrees (FLAG_SIZE FLAG_MODIFICATION_TIME : Z)
    (pool_entry : FsearchDatabaseEntry) (index_flags : Z)
    (folders : list nat) (entry loaded : FsearchDatabaseEntry) : Prop :=
  e_name loaded = e_name entry
  ∧ e_type loaded = e_type entry
  ∧ e_size loaded = (if bool_decide (Z.land index_flags FLAG_SIZE ≠ 0)
                     then e_size entry else e_size pool_entry)
  ∧ e_mtime loaded = (if bool_decide (Z.land index_flags FLAG_MODIFICATION_TIME ≠ 0)
                      then e_mtime entry else e_mtime pool_entry)
  ∧ parent_agrees folders (e_parent entry) (e_parent loaded).

(** The entries of a store as its data model has them: the folder array
    holds distinct folders, each with a name without NUL, sizes and times
    in range, and a parent that is absent (a root) or another
    folder of the array; the file array holds files whose parent is a
    folder of the array. *)
Definition entry_fields_ok (e : FsearchDatabaseEntry) : Prop :=
  name_ok (e_name e) ∧ in_int64 (e_size e) ∧ in_int64 (e_mtime e).

Record store_entries_wf (h : Heap) (folders files : list nat) : Prop := {
  wf_folders_nodup : NoDup folders;
  wf_num_folders : Z.of_nat (length folders) < 2 ^ 32;
  wf_num_files : Z.of_nat (length files) < 2 ^ 32;
  wf_folder : ∀ p, p ∈ folders →
    ∃ e, h !! p = Some e
         ∧ e_type e = DATABASE_ENTRY_TYPE_FOLDER
         ∧ entry_fields_ok e
         ∧ match e_parent e with
           | None => True
           | Some parent => parent ∈ folders ∧ parent ≠ p
           end;
  wf_file : ∀ p, p ∈ files →
    ∃ e, h !! p = Some e
         ∧ e_type e = DATABASE_ENTRY_TYPE_FILE
         ∧ entry_fields_ok e
         ∧ ∃ parent, e_parent e = Some parent ∧ parent ∈ folders;
}.

(** The folder array after [update_folder_indices]: the folder at position
    [i] has idx [i], and its parent, if any, is at another position. *)
Definition folders_indexed (h : Heap) (folders : list nat) : Prop :=
  ∀ i p, folders !! i = Some p →
    ∃ e, h !! p = Some e
         ∧ e_idx e = Z.of_nat i
         ∧ e_type e = DATABASE_ENTRY_TYPE_FOLDER
         ∧ entry_fields_ok e
         ∧ match e_parent e with
           | None => True
           | Some parent => ∃ j, folders !! j = Some parent ∧ j ≠ i
           end.

(** Two entries that differ at most in their idx. *)
Definition up_to_idx (e e' : FsearchDatabaseEntry) : Prop :=
  e_type e' = e_type e ∧ e_name e' = e_name e ∧ e_size e' = e_size e
  ∧ e_mtime e' = e_mtime e ∧ e_parent e' = e_parent e.

(** A heap that holds the entries of [h], up to their idx. *)
Definition heap_up_to_idx (h h' : Heap) : Prop :=
  ∀ p e, h !! p = Some e → ∃ e', h' !! p = Some e' ∧ up_to_idx e e'.

(** The idx of every folder of the array is its position. *)
Definition folder_idx_is_position (h : Heap) (folders : list nat) : Prop :=
  ∀ j parent, folders !! j = Some parent → db_entry_get_idx h parent = Some (Z.of_nat j).

(** A file of the store: not a folder of the array, with fields in range
    and a parent in the folder array. *)
Definition file_entry_ok (h : Heap) (folders : list nat) (p : nat) : Prop :=
  (p ∉ folders)
  ∧ ∃ e, h !! p = Some e
         ∧ e_type e = DATABASE_ENTRY_TYPE_FILE
         ∧ entry_fields_ok e
         ∧ ∃ parent j, e_parent e = Some parent ∧ folders !! j = Some parent.

(** ** What the theorems on the whole file compare *)

(** The bytes of the file and the room left add up to the same number
    before and after every write. *)
Definition file_capacity (fp : FILE) : nat := (length (file_bytes fp) + file_room fp)%nat.

(** The bytes of a snapshot file, block by block. *)
Definition snapshot_layout (index_flags num_folders num_files : Z)
    (folder_block file_block sorted_block : list Z) : list Z :=
  DATABASE_MAGIC_NUMBER ++ [DATABASE_MAJOR_VERSION; DATABASE_MINOR_VERSION]
  ++ le_bytes 8 index_flags ++ le_bytes 4 num_folders ++ le_bytes 4 num_files
  ++ le_bytes 8 (uint64_t (Z.of_nat (length folder_block)))
  ++ le_bytes 8 (uint64_t (Z.of_nat (length file_block)))
  ++ le_bytes 4 0 ++ le_bytes 4 0
  ++ folder_block ++ file_block ++ sorted_block.

(** The idx of every entry of the array is its position in it. *)
Definition idx_is_position (h : Heap) (src : list nat) : Prop :=
  ∀ j p, src !! j = Some p → db_entry_get_idx h p = Some (Z.of_nat j).

(** What the arrays of one type look like after any number of rounds of
    the loop of [load_sorted_arrays]. *)
Definition sorted_arrays_ok (num : nat)
    (sorted : gmap FsearchDatabaseIndexProperty (list nat)) : Prop :=
  ∀ k l, sorted !! k = Some l →
    k ∈ sorted_array_ids ∧ length l = num ∧ Forall (λ slot, (slot < num)%nat) l.

(** A loaded entry: it has the type of its array and the idx of its slot,
    and its parent, if it has one, is a slot of the loaded folder array. *)
Definition loaded_entry_ok (type : FsearchDatabaseEntryType) (num_folders : nat)
    (i : nat) (d : FsearchDatabaseEntry) : Prop :=
  e_type d = type
  ∧ e_idx d = uint32_t (Z.of_nat i)
  ∧ ∀ parent, e_parent d = Some parent → (parent < num_folders)%nat.

(* ===================================================================== *)
(** * Example stores, views and engines *)
(* ===================================================================== *)

Module Examples.

(** A scanner that finds two files and one folder under every include, a
    sorter that keeps the order it is given in one shard, and an insertion
    that appends a shard. *)
Definition scan_include (include : FsearchDatabaseInclude)
    (exclude_manager : FsearchDatabaseExcludeManager) (flags : Z) (cancellable : GCancellable)
  : option (list nat * list nat) := Some ([20; 21]%nat, [10%nat]).

Definition sort_entries (sort_order secondary : FsearchDatabaseIndexProperty)
    (type : FsearchDatabaseEntryType) (entries : list nat) : list (list nat) := [entries].

Definition insert_sorted (c : FsearchDatabaseEntriesContainer) (entry : nat) : list (list nat) :=
  c_containers c ++ [[entry]].

Definition home : FsearchDatabaseInclude :=
  {| include_path := "/home/user_1"; include_one_file_system := true;
     include_monitor := true; include_scan_after_launch := false; include_id := 1 |}.

(** A token that is cancelled from the third program point on. *)
Definition token : nat → bool := λ p, bool_decide (3 ≤ p)%nat.

Definition container (type : FsearchDatabaseEntryType) (entries : list nat)
  : FsearchDatabaseEntriesContainer :=
  {| c_containers := [entries]; c_sort_order := DATABASE_INDEX_PROPERTY_NAME;
     c_secondary_sort_order := DATABASE_INDEX_PROPERTY_NONE; c_entry_type := type |}.

(** A view of one folder (10) and two files (20, 21), sorted descending. *)
Definition view : FsearchDatabaseSearchView :=
  {| view_query := "";
     view_file_container := Some (container DATABASE_ENTRY_TYPE_FILE [20; 21]%nat);
     view_folder_container := Some (container DATABASE_ENTRY_TYPE_FOLDER [10%nat]);
     view_sort_type := GTK_SORT_DESCENDING;
     view_sort_order := DATABASE_INDEX_PROPERTY_NAME;
     view_secondardy_sort_order := DATABASE_INDEX_PROPERTY_NONE;
     view_file_selection := ∅; view_folder_selection := ∅ |}.

(** An engine without a store that has [view] registered under id 1. *)
Definition database : FsearchDatabase :=
  {| db_file := Some {| g_file_get_path := Some "fsearch.db" |};
     db_search_results := {[ 1%nat := view ]};
     db_store := None; db_flags := 0 |}.

Definition entry (type : FsearchDatabaseEntryType) (name : list Z) (size mtime : Z)
    (parent : option nat) : FsearchDatabaseEntry :=
  {| e_type := type; e_name := name; e_size := size; e_mtime := mtime;
     e_parent := parent; e_idx := 0; e_db_index := 0 |}.

(** The entries behind the view: the root folder "a" at address 10 and the
    files "ab" and "b" in it. *)
Definition heap : Heap :=
  {[ 10%nat := entry DATABASE_ENTRY_TYPE_FOLDER [97] 7 1700000000 None;
     20%nat := entry DATABASE_ENTRY_TYPE_FILE [97; 98] 3 (-1) (Some 10%nat);
     21%nat := entry DATABASE_ENTRY_TYPE_FILE [98] 4 5 (Some 10%nat) ]}.

(** A store of two folders and a file "abc" in the second folder.  The
    name of the first folder is 255 times "a"; the name of the second, 355
    bytes long, is that name followed by 100 times "b". *)
Definition tree : Heap :=
  {[ 1%nat := entry DATABASE_ENTRY_TYPE_FOLDER (replicate 255 97) 5 6 None;
     2%nat := entry DATABASE_ENTRY_TYPE_FOLDER (replicate 255 97 ++ replicate 100 98)
                5 (-6) (Some 1%nat);
     3%nat := entry DATABASE_ENTRY_TYPE_FILE [97; 98; 99] 5 7 (Some 2%nat) ]}.

(** A store of one root folder whose name has 256 bytes. *)
Definition long_name : Heap :=
  {[ 1%nat := entry DATABASE_ENTRY_TYPE_FOLDER (replicate 256 97) 7 8 None ]}.

Definition FLAG_SIZE : Z := 4.
Definition FLAG_MODIFICATION_TIME : Z := 8.

(** A zero-filled entry, and a file on a medium with room for 1000 bytes. *)
Definition pool_entry : FsearchDatabaseEntry := entry DATABASE_ENTRY_TYPE_NONE [] 0 0 None.
Definition file : FILE := {| file_bytes := []; file_room := 1000 |}.

(** A file system whose only directory is "/var/db" and that holds no
    file. *)
Definition file_system : FileSystem :=
  {| fs_dirs := {[ "/var/db" ]}; fs_files := ∅; fs_locked := ∅ |}.

End Examples.

(* ===================================================================== *)
(** * Theorems *)
(* ===================================================================== *)

Lemma read_element_from_file_app (bs rest : list Z) :
  bs ≠ [] →
  read_element_from_file (length bs) (bs ++ rest) = Some (bs, rest).
Proof.
  intros Hne. unfold read_element_from_file.
  rewrite bool_decide_eq_true_2.
  - by rewrite take_app_length, drop_app_length.
  - split; [destruct bs; simpl; congruence | rewrite length_app; lia].
Qed.

(** C3 (as amended).  A snapshot whose magic is "FSDB" passes [load_header]
    exactly when its major version is 1 and its minor version is at most
    [DATABASE_MINOR_VERSION], which is 0: a minor version of 1 is rejected. *)
Theorem load_header_accepts_iff (major minor : Z) (rest : list Z) :
  is_Some (load_header (DATABASE_MAGIC_NUMBER ++ major :: minor :: rest))
  ↔ major = 1 ∧ minor <= 0.
Proof.
  unfold load_header.
  rewrite (read_element_from_file_app DATABASE_MAGIC_NUMBER) by done.
  simpl. unfold read_element_from_file. simpl.
  unfold DATABASE_MAJOR_VERSION, DATABASE_MINOR_VERSION.
  repeat case_bool_decide; simpl; split;
    first [ intros [? ?]; first [ discriminate | lia ] | intros _; first [ lia | eauto ] ].
Qed.

(** C3 (as stated) fails: magic "FSDB", major 1, minor 1 has a minor version
    that is at most 1, yet [load_header] rejects it. *)
Lemma load_header_rejects_minor_1 :
  ¬ (∀ minor rest, 0 <= minor <= 1 →
       is_Some (load_header (DATABASE_MAGIC_NUMBER ++ 1 :: minor :: rest))).
Proof.
  intros H. specialize (H 1 [] ltac:(lia)).
  vm_compute in H. by destruct H.
Qed.

(* --------------------------------------------------------------------- *)
(** ** Index store: start, cancellation and the fast-sort invariant *)
(* --------------------------------------------------------------------- *)

(** Reduce the projections of an updated store, and nothing else. *)
Ltac store_fields :=
  cbn [store_file_container store_folder_container store_indices store_running
       set_store_folder_container set_store_file_container
       set_store_indices set_store_running].

Section StoreFacts.

Context (scan_include :
           FsearchDatabaseInclude → FsearchDatabaseExcludeManager → Z → GCancellable →
           option (list nat * list nat))
        (sort_entries :
           FsearchDatabaseIndexProperty → FsearchDatabaseIndexProperty →
           FsearchDatabaseEntryType → list nat → list (list nat))
        (insert_sorted : FsearchDatabaseEntriesContainer → nat → list (list nat)).

Implicit Types (self : FsearchDatabaseIndexStore)
               (array : gmap FsearchDatabaseIndexProperty FsearchDatabaseEntriesContainer)
               (k : FsearchDatabaseIndexProperty).

Lemma set_slot_lookup k c array : set_slot k c array !! k = c.
Proof. destruct c; simpl; [apply lookup_insert_eq | apply lookup_delete_eq]. Qed.

Lemma set_slot_lookup_ne k k' c array : k ≠ k' → set_slot k c array !! k' = array !! k'.
Proof.
  intros Hne. destruct c; simpl; [by apply lookup_insert_ne | by apply lookup_delete_ne].
Qed.

Lemma sorted_entries_free_file self k :
  store_file_container (sorted_entries_free self) !! k
  = if decide (k = DATABASE_INDEX_PROPERTY_NONE) then store_file_container self !! k else None.
Proof.
  unfold sorted_entries_free. simpl.
  destruct k; simpl; rewrite ?lookup_delete_eq, ?lookup_delete_ne by done;
    rewrite ?lookup_delete_eq; done.
Qed.

Lemma sorted_entries_free_folder self k :
  store_folder_container (sorted_entries_free self) !! k
  = if decide (k = DATABASE_INDEX_PROPERTY_NONE) then store_folder_container self !! k else None.
Proof.
  unfold sorted_entries_free. simpl.
  destruct k; simpl; rewrite ?lookup_delete_eq, ?lookup_delete_ne by done;
    rewrite ?lookup_delete_eq; done.
Qed.

(** The merge loop adds indices and clears [is_sorted]; it touches neither
    the containers nor [running]. *)
Lemma index_store_merge_frame indices acc :
  let r := foldl index_store_merge_index acc indices in
  store_file_container r.1.1 = store_file_container acc.1.1
  ∧ store_folder_container r.1.1 = store_folder_container acc.1.1
  ∧ store_running r.1.1 = store_running acc.1.1
  ∧ store_include_manager r.1.1 = store_include_manager acc.1.1
  ∧ store_exclude_manager r.1.1 = store_exclude_manager acc.1.1.
Proof.
  revert acc. induction indices as [|index indices IH]; intros acc; simpl; [done|].
  destruct (IH (index_store_merge_index acc index)) as (Hf & Hd & Hr & Hi & He).
  rewrite Hf, Hd, Hr, Hi, He. destruct acc as [[self fs] ds]. simpl.
  by destruct (index_store_has_index_with_same_id self index || negb (has_flag self index)).
Qed.

(** The containers of a store after the ten builds of [index_store_start]:
    each sort key holds what its build returned, every other slot is as it
    was. *)
Lemma index_store_start_result self cancellable :
  store_running self = false →
  g_cancellable_is_cancelled cancellable POINT_AFTER_SCAN = false →
  ∃ built,
    index_store_start scan_include sort_entries self cancellable
    = (if g_cancellable_is_cancelled cancellable POINT_FINAL_CHECK
       then set_store_indices [] (sorted_entries_free built)
       else set_store_running true built)
    ∧ store_running built = false
    ∧ store_folder_container built !! DATABASE_INDEX_PROPERTY_NONE
      = store_folder_container self !! DATABASE_INDEX_PROPERTY_NONE
    ∧ store_file_container built !! DATABASE_INDEX_PROPERTY_NONE
      = store_file_container self !! DATABASE_INDEX_PROPERTY_NONE
    ∧ (∀ k, k ∈ index_properties →
         (is_Some (store_folder_container built !! k)
          ↔ g_cancellable_is_cancelled cancellable (2 * property_code k + 1) = false)
         ∧ (is_Some (store_file_container built !! k)
            ↔ g_cancellable_is_cancelled cancellable (2 * property_code k + 2) = false)).
Proof.
  intros Hrun Hscan. unfold index_store_start. rewrite Hrun, Hscan.
  match goal with |- context [foldl index_store_merge_index ?acc ?l] =>
    pose proof (index_store_merge_frame l acc) as (Hf & Hd & Hr & _ & _);
    destruct (foldl index_store_merge_index acc l) as [[merged store_files] store_folders]
  end.
  simpl in Hf, Hd, Hr. cbv zeta.
  eexists. split; [reflexivity|]. simpl.
  split; [by rewrite Hr|].
  rewrite !set_slot_lookup_ne by done.
  split; [by rewrite Hd|]. split; [by rewrite Hf|].
  intros k Hk. unfold index_properties in Hk.
  unfold fsearch_database_entries_container_new.
  repeat (apply elem_of_cons in Hk as [->|Hk]); [..|by apply elem_of_nil in Hk]; simpl;
    repeat first [rewrite set_slot_lookup | rewrite set_slot_lookup_ne by done];
    split; (match goal with |- context [if ?b then None else _] => destruct b end;
            simpl; split; first [ done | by intros [? ?] | by eauto ]).
Qed.

(** [index_store_start] keeps the managers of the store. *)
Lemma index_store_start_managers self cancellable :
  let started := index_store_start scan_include sort_entries self cancellable in
  store_include_manager started = store_include_manager self
  ∧ store_exclude_manager started = store_exclude_manager self.
Proof.
  simpl. unfold index_store_start.
  destruct (store_running self); [done|].
  destruct (g_cancellable_is_cancelled cancellable POINT_AFTER_SCAN); [done|].
  match goal with |- context [foldl index_store_merge_index ?acc ?l] =>
    pose proof (index_store_merge_frame l acc) as (_ & _ & _ & Hi & He);
    destruct (foldl index_store_merge_index acc l) as [[merged store_files] store_folders]
  end.
  simpl in Hi, He. cbv zeta.
  by destruct (g_cancellable_is_cancelled cancellable POINT_FINAL_CHECK).
Qed.

(** C5.  A freshly created store that [index_store_start] runs on with a
    token that is cancelled by the time of a cancellation check ends with no
    per-root index, with every file and folder container slot NULL, and with
    [running = false]. *)
Theorem index_store_start_cancelled include_manager exclude_manager flags
    (token : nat → bool) :
  cancellable_sticky (Some token) →
  (∃ p, (p ≤ POINT_FINAL_CHECK)%nat ∧ token p = true) →
  let self := index_store_start scan_include sort_entries
                (index_store_new include_manager exclude_manager flags) (Some token) in
  store_indices self = []
  ∧ (∀ k, store_file_container self !! k = None ∧ store_folder_container self !! k = None)
  ∧ store_running self = false.
Proof.
  intros Hsticky (p & Hp & Htok) self.
  assert (token POINT_FINAL_CHECK = true) as Hfinal by (eapply Hsticky; eauto).
  destruct (token POINT_AFTER_SCAN) eqn:Hscan.
  - subst self. unfold index_store_start. simpl. rewrite Hscan. simpl.
    split; [done|]. split; [|done]. intros k. by rewrite !lookup_empty.
  - destruct (index_store_start_result (index_store_new include_manager exclude_manager flags)
                (Some token) eq_refl Hscan) as (built & Hres & Hrun & Hd & Hf & _).
    subst self. rewrite Hres. cbn [g_cancellable_is_cancelled]. rewrite Hfinal.
    split; [done|]. split.
    + intros k. store_fields.
      rewrite sorted_entries_free_file, sorted_entries_free_folder.
      case_decide as Hk; [subst k|done].
      rewrite Hd, Hf. simpl. by rewrite !lookup_empty.
    + unfold sorted_entries_free. simpl. exact Hrun.
Qed.

Lemma foldl_count_filter (f : FsearchDatabaseIndexProperty → bool)
    (l : list FsearchDatabaseIndexProperty) (n : nat) :
  foldl (λ n i, if f i then S n else n) n l = (n + length (filter (λ i, f i = true) l))%nat.
Proof.
  revert n. induction l as [|i l IH]; intros n; simpl; [lia|].
  rewrite IH, filter_cons. destruct (f i); simpl; lia.
Qed.

Lemma slots_paired_invariant self : slots_paired self → fast_sort_invariant self.
Proof.
  intros Hpaired. unfold fast_sort_invariant, index_store_get_num_fast_sort_indices, count_slots.
  rewrite foldl_count_filter. simpl.
  split; f_equal; apply list_filter_iff; intros k; specialize (Hpaired k);
    rewrite andb_true_iff, !bool_decide_eq_true; tauto.
Qed.

Lemma slot_insert_all_is_Some entries array ks k :
  is_Some (foldl (slot_insert_all insert_sorted entries) array ks !! k) ↔ is_Some (array !! k).
Proof.
  revert array. induction ks as [|i ks IH]; intros array; simpl; [done|].
  rewrite IH. unfold slot_insert_all. destruct (array !! i) eqn:Hi; [|done].
  destruct (decide (i = k)) as [->|Hne].
  - rewrite lookup_insert_eq, Hi. split; eauto.
  - by rewrite lookup_insert_ne.
Qed.

Lemma slot_steal_all_is_Some entries array ks k :
  is_Some (foldl (slot_steal_all entries) array ks !! k) ↔ is_Some (array !! k).
Proof.
  revert array. induction ks as [|i ks IH]; intros array; simpl; [done|].
  rewrite IH. unfold slot_steal_all. destruct (array !! i) eqn:Hi; [|done].
  destruct (decide (i = k)) as [->|Hne].
  - rewrite lookup_insert_eq, Hi. split; eauto.
  - by rewrite lookup_insert_ne.
Qed.

Lemma index_store_start_paired self cancellable :
  cancellable_sticky cancellable →
  slots_paired self →
  slots_paired (index_store_start scan_include sort_entries self cancellable).
Proof.
  intros Hsticky Hpaired.
  destruct (store_running self) eqn:Hrun.
  { unfold index_store_start. by rewrite Hrun. }
  destruct (g_cancellable_is_cancelled cancellable POINT_AFTER_SCAN) eqn:Hscan.
  { unfold index_store_start. by rewrite Hrun, Hscan. }
  destruct (index_store_start_result self cancellable Hrun Hscan)
    as (built & -> & _ & Hd & Hf & Hbuilt).
  destruct (g_cancellable_is_cancelled cancellable POINT_FINAL_CHECK) eqn:Hfinal.
  - intros k. store_fields.
    rewrite sorted_entries_free_file, sorted_entries_free_folder.
    case_decide as Hk; [subst k|done]. rewrite Hd, Hf. apply Hpaired.
  - assert (∀ p, (p ≤ POINT_FINAL_CHECK)%nat →
                 g_cancellable_is_cancelled cancellable p = false) as Hnone.
    { intros p Hp. destruct cancellable as [token|]; [|done]. simpl in *.
      destruct (token p) eqn:Htok; [|done].
      rewrite (Hsticky token eq_refl p POINT_FINAL_CHECK Hp Htok) in Hfinal. done. }
    intros k. store_fields.
    destruct (decide (k = DATABASE_INDEX_PROPERTY_NONE)) as [->|Hk].
    + rewrite Hd, Hf. apply Hpaired.
    + assert (k ∈ index_properties) as Hin.
      { unfold index_properties. destruct k; try done; rewrite !elem_of_cons; tauto. }
      destruct (Hbuilt k Hin) as [Hfolder Hfile].
      rewrite Hfolder, Hfile.
      rewrite (Hnone (2 * property_code k + 1)%nat), (Hnone (2 * property_code k + 2)%nat);
        [done|..]; unfold POINT_FINAL_CHECK; destruct k; simpl; first [lia | done].
Qed.

(** C8.  In every state an index store can be observed in, the number of
    sort keys with a folder container, the number of sort keys with a file
    container and [index_store_get_num_fast_sort_indices] agree. *)
Theorem fast_sort_indices_invariant self :
  store_reachable scan_include sort_entries insert_sorted self →
  fast_sort_invariant self.
Proof.
  intros Hreach. apply slots_paired_invariant.
  induction Hreach as
    [ include_manager exclude_manager flags
    | self cancellable _ IH Hsticky
    | self _ IH
    | self entries is_dir _ IH
    | self folders index self' _ IH Hremove
    | self files index self' _ IH Hremove
    | h self entry index self' _ IH Hremove ].
  - intros k. simpl. by rewrite !lookup_empty.
  - by apply index_store_start_paired.
  - exact IH.
  - unfold index_store_add_entries. case_bool_decide; [done|].
    destruct is_dir; intros k; store_fields; rewrite slot_insert_all_is_Some; apply IH.
  - unfold index_store_remove_folders in Hremove.
    repeat case_bool_decide; simplify_eq; [done|].
    intros k. store_fields. rewrite slot_steal_all_is_Some. apply IH.
  - unfold index_store_remove_files in Hremove.
    repeat case_bool_decide; simplify_eq; [done|].
    intros k. store_fields. rewrite slot_steal_all_is_Some. apply IH.
  - unfold index_store_remove_entry in Hremove.
    destruct entry as [entry|]; [|by simplify_eq].
    case_bool_decide; [|done].
    destruct (db_entry_is_folder h entry); simplify_eq;
      intros k; store_fields; rewrite slot_steal_all_is_Some; apply IH.
Qed.

End StoreFacts.

(* --------------------------------------------------------------------- *)
(** ** Shapes of the store *)
(* --------------------------------------------------------------------- *)

Section StoreShapeFacts.

Context (scan_include :
           FsearchDatabaseInclude → FsearchDatabaseExcludeManager → Z → GCancellable →
           option (list nat * list nat))
        (sort_entries :
           FsearchDatabaseIndexProperty → FsearchDatabaseIndexProperty →
           FsearchDatabaseEntryType → list nat → list (list nat))
        (insert_sorted : FsearchDatabaseEntriesContainer → nat → list (list nat)).

Implicit Types (self : FsearchDatabaseIndexStore)
               (array : gmap FsearchDatabaseIndexProperty FsearchDatabaseEntriesContainer)
               (k : FsearchDatabaseIndexProperty).

Local Abbreviation joined := fsearch_database_entries_container_get_joined.
Local Abbreviation scanned self cancellable :=
  (omap (λ include, fsearch_database_index_new_and_scan scan_include include
                      (store_exclude_manager self) (store_flags self) cancellable)
        (fsearch_database_include_manager_get_includes (store_include_manager self))).

(** What the merge loop does to the indices and to the two arrays. *)
Lemma index_store_merge_indices indices self store_files store_folders :
  ∃ added merged,
    foldl index_store_merge_index (self, store_files, store_folders) indices
    = (merged,
       store_files ++ concat (index_files <$> added),
       store_folders ++ concat (index_folders <$> added))
    ∧ store_indices merged = store_indices self ++ added
    ∧ same_but_indices self merged
    ∧ added ⊆ indices
    ∧ (∀ index, index ∈ indices →
         Z.land (store_flags self) (index_flags index) = store_flags self →
         index_id index ∈ index_id <$> (store_indices self ++ added))
    ∧ (NoDup (index_id <$> store_indices self) →
       NoDup (index_id <$> (store_indices self ++ added))).
Proof.
  revert self store_files store_folders.
  induction indices as [|index indices IH]; intros self store_files store_folders.
  { exists [], self. simpl. rewrite !app_nil_r. split; [done|]. split; [done|].
    split; [done|]. split; [done|]. split; [|done].
    intros index Hin. by apply elem_of_nil in Hin. }
  cbn [foldl]. unfold index_store_merge_index at 2.
  destruct (index_store_has_index_with_same_id self index) eqn:Hsame.
  - cbn [orb].
    destruct (IH self store_files store_folders)
      as (added & merged & -> & Hind & Hsame_but & Hsub & Hall & Hnd).
    exists added, merged. split; [done|]. split; [done|]. split; [done|].
    split; [by apply list_subseteq_cons|]. split; [|done].
    intros index' Hin Hflag. apply elem_of_cons in Hin as [->|Hin]; [|by apply Hall].
    unfold index_store_has_index_with_same_id in Hsame.
    apply existsb_exists in Hsame as (stored & Hstored & Hid).
    apply bool_decide_eq_true in Hid. unfold fsearch_database_index_get_id in Hid.
    rewrite <- Hid. apply list_elem_of_fmap_2, elem_of_app. left.
    by apply list_elem_of_In.
  - cbn [orb]. destruct (has_flag self index) eqn:Hflag; cbn [negb].
    + destruct (IH (set_store_is_sorted false
                      (set_store_indices (store_indices self ++ [index]) self))
                   (store_files ++ fsearch_database_index_get_files index)
                   (store_folders ++ fsearch_database_index_get_folders index))
        as (added & merged & -> & Hind & Hsame_but & Hsub & Hall & Hnd).
      cbn [store_indices set_store_indices set_store_is_sorted
           store_is_sorted store_flags] in *.
      exists (index :: added), merged.
      split.
      { rewrite <- !app_assoc. by cbn [fmap list_fmap concat app]. }
      split; [by rewrite Hind, <- app_assoc|].
      split; [exact Hsame_but|].
      split; [by apply list_subseteq_skip|]. rewrite <- app_assoc in Hall, Hnd. split.
      * intros index' Hin Hflag'. apply elem_of_cons in Hin as [->|Hin]; [|by apply Hall].
        apply list_elem_of_fmap_2. rewrite elem_of_app, elem_of_cons. tauto.
      * intros Hnodup. apply Hnd. rewrite fmap_app. apply NoDup_app.
        split; [done|]. split; [|apply NoDup_singleton].
        intros id Hid Hid'. apply list_elem_of_singleton in Hid' as ->.
        apply list_elem_of_fmap in Hid as (stored & Hid & Hstored).
        assert (index_store_has_index_with_same_id self index = true) as Hcontra; [|congruence].
        apply existsb_exists. exists stored. split; [by apply list_elem_of_In|].
        by apply bool_decide_eq_true.
    + destruct (IH self store_files store_folders)
        as (added & merged & -> & Hind & Hsame_but & Hsub & Hall & Hnd).
      exists added, merged. split; [done|]. split; [done|]. split; [done|].
      split; [by apply list_subseteq_cons|]. split; [|done].
      intros index' Hin Hflag'. apply elem_of_cons in Hin as [->|Hin]; [|by apply Hall].
      unfold has_flag in Hflag. apply bool_decide_eq_false in Hflag. done.
Qed.

(** A start that no cancellation interrupts: the store ends up running and
    sorted, its indices are the merged ones, and for every sort key the two
    containers are the ones built from the merged arrays. *)
Lemma index_store_start_uncancelled self cancellable :
  store_running self = false →
  never_cancelled cancellable →
  ∃ added,
    let started := index_store_start scan_include sort_entries self cancellable in
    store_indices started = store_indices self ++ added
    ∧ store_running started = true
    ∧ store_is_sorted started = true
    ∧ store_include_manager started = store_include_manager self
    ∧ store_exclude_manager started = store_exclude_manager self
    ∧ store_flags started = store_flags self
    ∧ (∀ k, k ∈ index_properties →
         store_folder_container started !! k
         = Some (built_container sort_entries k DATABASE_ENTRY_TYPE_FOLDER
                   (concat (index_folders <$> added)))
         ∧ store_file_container started !! k
           = Some (built_container sort_entries k DATABASE_ENTRY_TYPE_FILE
                     (concat (index_files <$> added))))
    ∧ store_folder_container started !! DATABASE_INDEX_PROPERTY_NONE
      = store_folder_container self !! DATABASE_INDEX_PROPERTY_NONE
    ∧ store_file_container started !! DATABASE_INDEX_PROPERTY_NONE
      = store_file_container self !! DATABASE_INDEX_PROPERTY_NONE
    ∧ added ⊆ scanned self cancellable
    ∧ (∀ index, index ∈ scanned self cancellable →
         Z.land (store_flags self) (index_flags index) = store_flags self →
         index_id index ∈ index_id <$> (store_indices self ++ added))
    ∧ (NoDup (index_id <$> store_indices self) →
       NoDup (index_id <$> (store_indices self ++ added))).
Proof.
  intros Hrun Hnone.
  destruct (index_store_merge_indices (scanned self cancellable) self [] [])
    as (added & merged & Hmerge & Hind & Hsame & Hsub & Hall & Hnd).
  destruct Hsame as (Hf & Hd & Hi & He & Hfl & Hr).
  exists added. cbv zeta. unfold index_store_start.
  rewrite Hrun, (Hnone POINT_AFTER_SCAN) by (unfold POINT_AFTER_SCAN, POINT_FINAL_CHECK; lia).
  rewrite Hmerge. cbv zeta. unfold fsearch_database_entries_container_new.
  rewrite !Hnone by (unfold POINT_FINAL_CHECK; lia).
  cbn [app]. simpl.
  split; [done|]. split; [done|]. split; [done|]. split; [done|]. split; [done|].
  split; [done|].
  split.
  { intros k Hk. unfold index_properties in Hk. unfold built_container.
    repeat (apply elem_of_cons in Hk as [->|Hk]); [..|by apply elem_of_nil in Hk];
      repeat first [rewrite lookup_insert_eq | rewrite lookup_insert_ne by done]; done. }
  rewrite !lookup_insert_ne by done. rewrite Hd, Hf. done.
Qed.

Lemma sticky_cases cancellable :
  cancellable_sticky cancellable →
  never_cancelled cancellable
  ∨ g_cancellable_is_cancelled cancellable POINT_FINAL_CHECK = true.
Proof.
  intros Hsticky.
  destruct (g_cancellable_is_cancelled cancellable POINT_FINAL_CHECK) eqn:Hfinal; [by right|].
  left. intros p Hp. destruct cancellable as [token|]; [|done]. simpl in *.
  destruct (token p) eqn:Htok; [|done].
  rewrite (Hsticky token eq_refl p POINT_FINAL_CHECK Hp Htok) in Hfinal. done.
Qed.

(** A start of an idle store that is cancelled leaves it idle. *)
Lemma index_store_start_cancelled_idle self cancellable :
  store_idle self →
  g_cancellable_is_cancelled cancellable POINT_FINAL_CHECK = true →
  store_idle (index_store_start scan_include sort_entries self cancellable).
Proof.
  intros (Hrun & Hind & Hslots) Hfinal.
  destruct (g_cancellable_is_cancelled cancellable POINT_AFTER_SCAN) eqn:Hscan.
  { unfold index_store_start. by rewrite Hrun, Hscan. }
  destruct (index_store_start_result scan_include sort_entries self cancellable Hrun Hscan)
    as (built & -> & Hbrun & Hd & Hf & _).
  rewrite Hfinal. split; [|split; [done|]].
  - unfold sorted_entries_free. simpl. exact Hbrun.
  - intros k. store_fields.
    rewrite sorted_entries_free_file, sorted_entries_free_folder.
    case_decide as Hk; [subst k|done].
    rewrite Hd, Hf. apply Hslots.
Qed.

Lemma index_properties_or_none k :
  k ∈ index_properties ∨ k = DATABASE_INDEX_PROPERTY_NONE.
Proof. unfold index_properties. destruct k; rewrite !elem_of_cons; tauto. Qed.

Lemma slot_insert_all_None entries array ks k :
  array !! k = None → foldl (slot_insert_all insert_sorted entries) array ks !! k = None.
Proof.
  intros Hnone. apply eq_None_not_Some. rewrite slot_insert_all_is_Some.
  by rewrite Hnone; intros [? ?].
Qed.

Lemma slot_steal_all_None entries array ks k :
  array !! k = None → foldl (slot_steal_all entries) array ks !! k = None.
Proof.
  intros Hnone. apply eq_None_not_Some. rewrite slot_steal_all_is_Some.
  by rewrite Hnone; intros [? ?].
Qed.

Lemma store_shape_slots self
    (folder file : gmap FsearchDatabaseIndexProperty FsearchDatabaseEntriesContainer) :
  store_shape self →
  (∀ k, is_Some (folder !! k) ↔ is_Some (store_folder_container self !! k)) →
  (∀ k, is_Some (file !! k) ↔ is_Some (store_file_container self !! k)) →
  store_shape (set_store_folder_container folder (set_store_file_container file self)).
Proof.
  intros (Hshape & Hnodup & Hdnone & Hfnone) Hfolder Hfile.
  split; [|split; [done|split]].
  - destruct Hshape as [(Hrun & Hind & Hslots)|(Hrun & Hsorted & Hslots)].
    + left. split; [done|]. split; [done|]. intros k. store_fields.
      destruct (Hslots k) as [Hf Hd].
      split; apply eq_None_not_Some; [rewrite Hfile, Hf|rewrite Hfolder, Hd]; by intros [? ?].
    + right. split; [done|]. split; [done|]. intros k Hk. store_fields.
      rewrite Hfolder, Hfile. by apply Hslots.
  - store_fields. apply eq_None_not_Some. rewrite Hfolder, Hdnone. by intros [? ?].
  - store_fields. apply eq_None_not_Some. rewrite Hfile, Hfnone. by intros [? ?].
Qed.

Lemma set_folder_as_both array self :
  set_store_folder_container array self
  = set_store_folder_container array
      (set_store_file_container (store_file_container self) self).
Proof. by destruct self. Qed.

Lemma set_file_as_both array self :
  set_store_file_container array self
  = set_store_folder_container (store_folder_container self)
      (set_store_file_container array self).
Proof. by destruct self. Qed.

Lemma store_reachable_shape self :
  store_reachable scan_include sort_entries insert_sorted self → store_shape self.
Proof.
  intros Hreach.
  induction Hreach as
    [ include_manager exclude_manager flags
    | self cancellable _ IH Hsticky
    | self _ IH
    | self entries is_dir _ IH
    | self folders index self' _ IH Hremove
    | self files index self' _ IH Hremove
    | h self entry index self' _ IH Hremove ].
  - split; [|split; [apply NoDup_nil_2|done]].
    left. split; [done|]. split; [done|]. intros k. simpl. by rewrite !lookup_empty.
  - destruct (store_running self) eqn:Hrun.
    { unfold index_store_start. by rewrite Hrun. }
    destruct IH as (Hshape & Hnodup & Hdnone & Hfnone).
    destruct Hshape as [Hidle|(Hrun' & _)]; [|congruence].
    destruct (sticky_cases cancellable Hsticky) as [Hnever|Hfinal].
    + destruct (index_store_start_uncancelled self cancellable Hrun Hnever)
        as (added & Hstart). cbv zeta in Hstart.
      destruct Hstart as (Hind & Hr & Hs & _ & _ & _ & Hslots & Hd & Hf & _ & _ & Hnd).
      split; [|split; [|split]].
      * right. split; [done|]. split; [done|]. intros k Hk.
        destruct (Hslots k Hk) as [-> ->]. eauto.
      * rewrite Hind. by apply Hnd.
      * by rewrite Hd.
      * by rewrite Hf.
    + pose proof (index_store_start_cancelled_idle self cancellable Hidle Hfinal)
        as Hidle'.
      split; [by left|]. destruct Hidle' as (_ & -> & Hslots).
      split; [apply NoDup_nil_2|]. split; apply Hslots.
  - destruct IH as (Hshape & Hnodup & Hdnone & Hfnone).
    unfold index_store_start_monitoring.
    split; [|split; [|done]].
    + destruct Hshape as [(Hrun & Hind & Hslots)|Hcomplete]; [|by right].
      left. split; [done|]. split; [|done]. simpl. by rewrite Hind.
    + simpl. rewrite <- list_fmap_compose.
      erewrite list_fmap_ext; [exact Hnodup|]. by intros i index _.
  - unfold index_store_add_entries. case_bool_decide; [done|].
    destruct is_dir.
    + rewrite set_folder_as_both.
      apply store_shape_slots; [done| |done].
      intros k. apply slot_insert_all_is_Some.
    + rewrite set_file_as_both.
      apply store_shape_slots; [done|done|].
      intros k. apply slot_insert_all_is_Some.
  - unfold index_store_remove_folders in Hremove.
    repeat case_bool_decide; simplify_eq; [done|].
    rewrite set_folder_as_both.
    apply store_shape_slots; [done| |done].
    intros k. apply slot_steal_all_is_Some.
  - unfold index_store_remove_files in Hremove.
    repeat case_bool_decide; simplify_eq; [done|].
    rewrite set_file_as_both.
    apply store_shape_slots; [done|done|].
    intros k. apply slot_steal_all_is_Some.
  - unfold index_store_remove_entry in Hremove.
    destruct entry as [entry|]; [|by simplify_eq].
    case_bool_decide; [|done].
    destruct (db_entry_is_folder h entry); simplify_eq.
    + rewrite set_folder_as_both.
      apply store_shape_slots; [done| |done].
      intros k. apply slot_steal_all_is_Some.
    + rewrite set_file_as_both.
      apply store_shape_slots; [done|done|].
      intros k. apply slot_steal_all_is_Some.
Qed.

Lemma store_idle_count self :
  store_idle self → index_store_get_num_fast_sort_indices self = 0%nat.
Proof.
  intros (_ & _ & Hslots). unfold index_store_get_num_fast_sort_indices.
  rewrite (foldl_count_filter
             (λ i, bool_decide (is_Some (store_folder_container self !! i))
                   && bool_decide (is_Some (store_file_container self !! i)))).
  assert (∀ k, ¬ (bool_decide (is_Some (store_folder_container self !! k))
                  && bool_decide (is_Some (store_file_container self !! k)) = true)) as Hnone.
  { intros k. destruct (Hslots k) as [_ ->].
    by rewrite (bool_decide_eq_false_2 (is_Some None)) by (by intros [? ?]). }
  unfold index_properties. rewrite !filter_cons, filter_nil.
  by rewrite !decide_False by apply Hnone.
Qed.

Lemma store_complete_count self :
  store_complete self → index_store_get_num_fast_sort_indices self = 5%nat.
Proof.
  intros (_ & _ & Hslots). unfold index_store_get_num_fast_sort_indices.
  rewrite (foldl_count_filter
             (λ i, bool_decide (is_Some (store_folder_container self !! i))
                   && bool_decide (is_Some (store_file_container self !! i)))).
  assert (∀ k, k ∈ index_properties →
               bool_decide (is_Some (store_folder_container self !! k))
               && bool_decide (is_Some (store_file_container self !! k)) = true) as Hall.
  { intros k Hk. destruct (Hslots k Hk) as [Hd Hf]. by rewrite !bool_decide_eq_true_2. }
  unfold index_properties in *. rewrite !filter_cons, filter_nil.
  by rewrite !decide_True by (apply Hall; rewrite !elem_of_cons; tauto).
Qed.

(** In every state a store can be observed in it is idle or complete: it
    maintains all five sort keys, and
    [index_store_get_num_fast_sort_indices] is 5, or none, and the number
    is 0. *)
Theorem store_reachable_idle_or_complete self :
  store_reachable scan_include sort_entries insert_sorted self →
  (store_idle self ∧ index_store_get_num_fast_sort_indices self = 0%nat)
  ∨ (store_complete self ∧ index_store_get_num_fast_sort_indices self = 5%nat).
Proof.
  intros Hreach. apply store_reachable_shape in Hreach as ([Hidle|Hcomplete] & _).
  - left. split; [done|]. by apply store_idle_count.
  - right. split; [done|]. by apply store_complete_count.
Qed.

(** In every state a store can be observed in, its per-root indices have
    pairwise distinct ids. *)
Theorem store_indices_unique_ids self :
  store_reachable scan_include sort_entries insert_sorted self →
  NoDup (index_id <$> store_indices self).
Proof. intros Hreach. by apply store_reachable_shape in Hreach as (_ & Hnodup & _). Qed.

(** What a start that is not cancelled builds on a new store: the store is
    complete, its indices have distinct ids, each index is the scan of an
    include of the include manager, every include whose scan succeeds has
    an index, and the containers of every sort key are built from the
    folders and the files of all the indices. *)
Theorem index_store_start_completes include_manager exclude_manager flags cancellable :
  never_cancelled cancellable →
  let started := index_store_start scan_include sort_entries
                   (index_store_new include_manager exclude_manager flags) cancellable in
  store_complete started
  ∧ NoDup (index_id <$> store_indices started)
  ∧ (∀ index, index ∈ store_indices started →
       ∃ include, include ∈ include_manager
         ∧ scan_include include exclude_manager flags cancellable
           = Some (index_files index, index_folders index)
         ∧ index_id index = include_id include)
  ∧ (∀ include, include ∈ include_manager →
       is_Some (scan_include include exclude_manager flags cancellable) →
       include_id include ∈ index_id <$> store_indices started)
  ∧ ∀ k, k ∈ index_properties →
      store_folder_container started !! k
      = Some (built_container sort_entries k DATABASE_ENTRY_TYPE_FOLDER
                (concat (index_folders <$> store_indices started)))
      ∧ store_file_container started !! k
        = Some (built_container sort_entries k DATABASE_ENTRY_TYPE_FILE
                  (concat (index_files <$> store_indices started))).
Proof.
  intros Hnever.
  destruct (index_store_start_uncancelled
              (index_store_new include_manager exclude_manager flags) cancellable
              eq_refl Hnever) as (added & Hstart).
  cbv zeta in *. cbn [store_indices index_store_new app store_flags store_include_manager
                      store_exclude_manager fsearch_database_include_manager_get_includes]
    in Hstart.
  destruct Hstart as (Hind & Hr & Hs & _ & _ & _ & Hslots & _ & _ & Hsub & Hall & Hnd).
  rewrite Hind.
  assert (∀ index, index ∈ omap (λ include, fsearch_database_index_new_and_scan scan_include
                                   include exclude_manager flags cancellable) include_manager →
            ∃ include, include ∈ include_manager
              ∧ scan_include include exclude_manager flags cancellable
                = Some (index_files index, index_folders index)
              ∧ index_id index = include_id include ∧ index_flags index = flags) as Hscanned.
  { intros index Hin. apply list_elem_of_omap in Hin as (include & Hin & Hscan).
    exists include. split; [done|]. unfold fsearch_database_index_new_and_scan in Hscan.
    apply bind_Some in Hscan as ([files folders] & -> & [= <-]). done. }
  split; [|split; [|split; [|split]]].
  - split; [done|]. split; [done|]. intros k Hk. destruct (Hslots k Hk) as [-> ->]. eauto.
  - apply Hnd. apply NoDup_nil_2.
  - intros index Hin. destruct (Hscanned index (Hsub index Hin)) as (include & ? & ? & ? & _).
    eauto.
  - intros include Hin [[files folders] Hscan].
    apply (Hall {| index_id := include_id include; index_flags := flags;
                   index_files := files; index_folders := folders;
                   index_monitoring := false |}).
    + apply list_elem_of_omap. exists include. split; [done|].
      unfold fsearch_database_index_new_and_scan. by rewrite Hscan.
    + apply Z.land_diag.
  - exact Hslots.
Qed.

End StoreShapeFacts.

(* --------------------------------------------------------------------- *)
(** ** The five orders hold the same entries *)
(* --------------------------------------------------------------------- *)

Lemma joined_steal (c : FsearchDatabaseEntriesContainer) (entry : nat) :
  fsearch_database_entries_container_get_joined
    (fsearch_database_entries_container_steal c entry).1
  = filter (λ p, p ≠ entry) (fsearch_database_entries_container_get_joined c).
Proof.
  unfold fsearch_database_entries_container_steal,
    fsearch_database_entries_container_get_joined. cbn [fst c_containers].
  induction (c_containers c) as [|shard shards IH]; [done|].
  cbn [fmap list_fmap concat]. rewrite filter_app. by f_equal.
Qed.

Lemma joined_steal_all (c : FsearchDatabaseEntriesContainer) (entries : list nat) :
  fsearch_database_entries_container_get_joined
    (foldl (λ c entry, (fsearch_database_entries_container_steal c entry).1) c entries)
  = filter (λ p, p ∉ entries) (fsearch_database_entries_container_get_joined c).
Proof.
  revert c. induction entries as [|entry entries IH]; intros c; cbn [foldl].
  { symmetry. induction (fsearch_database_entries_container_get_joined c) as [|p l IHl];
      [done|]. rewrite filter_cons, decide_True by apply not_elem_of_nil. by f_equal. }
  rewrite IH, joined_steal, list_filter_filter. apply list_filter_iff.
  intros p. rewrite not_elem_of_cons. tauto.
Qed.

Lemma slot_steal_all_lookup (entries : list nat)
    (array : gmap FsearchDatabaseIndexProperty FsearchDatabaseEntriesContainer)
    (ks : list FsearchDatabaseIndexProperty) (k : FsearchDatabaseIndexProperty) :
  NoDup ks →
  foldl (slot_steal_all entries) array ks !! k
  = if decide (k ∈ ks)
    then (λ c, foldl (λ c entry, (fsearch_database_entries_container_steal c entry).1)
                 c entries) <$> array !! k
    else array !! k.
Proof.
  intros Hnodup. revert array.
  induction Hnodup as [|i ks Hfresh _ IH]; intros array; cbn [foldl].
  { by rewrite decide_False by apply not_elem_of_nil. }
  rewrite IH. unfold slot_steal_all.
  destruct (decide (k = i)) as [->|Hne].
  - rewrite decide_False by done. rewrite decide_True by (apply elem_of_cons; by left).
    destruct (array !! i) as [c|] eqn:Hi; [|by rewrite Hi].
    by rewrite lookup_insert_eq.
  - assert (k ∈ i :: ks ↔ k ∈ ks) as Hiff by (rewrite elem_of_cons; tauto).
    destruct (array !! i) as [c|] eqn:Hi.
    + rewrite lookup_insert_ne by done.
      destruct (decide (k ∈ ks)); [rewrite decide_True by tauto|rewrite decide_False by tauto];
        done.
    + destruct (decide (k ∈ ks)); [rewrite decide_True by tauto|rewrite decide_False by tauto];
        done.
Qed.

Lemma index_properties_NoDup : NoDup index_properties.
Proof.
  unfold index_properties. repeat (apply NoDup_cons; split;
    [rewrite ?elem_of_cons, elem_of_nil; intros ?; intuition congruence|]).
  apply NoDup_nil_2.
Qed.

Section StoreConsistency.

Context (scan_include :
           FsearchDatabaseInclude → FsearchDatabaseExcludeManager → Z → GCancellable →
           option (list nat * list nat))
        (sort_entries :
           FsearchDatabaseIndexProperty → FsearchDatabaseIndexProperty →
           FsearchDatabaseEntryType → list nat → list (list nat))
        (insert_sorted : FsearchDatabaseEntriesContainer → nat → list (list nat)).

(** What the sorter and the insertion are taken to do: they arrange the
    entries they are given and lose or invent none. *)
Hypothesis sort_entries_perm :
  ∀ sort_order secondary type entries,
    concat (sort_entries sort_order secondary type entries) ≡ₚ entries.
Hypothesis insert_sorted_perm :
  ∀ c entry,
    concat (insert_sorted c entry) ≡ₚ entry :: fsearch_database_entries_container_get_joined c.

Implicit Types (self : FsearchDatabaseIndexStore)
               (array : gmap FsearchDatabaseIndexProperty FsearchDatabaseEntriesContainer)
               (k : FsearchDatabaseIndexProperty).

Local Abbreviation joined := fsearch_database_entries_container_get_joined.
Local Abbreviation insert := (fsearch_database_entries_container_insert insert_sorted).

Lemma joined_insert_all (c : FsearchDatabaseEntriesContainer) (entries : list nat) :
  joined (foldl insert c entries) ≡ₚ entries ++ joined c.
Proof.
  revert c. induction entries as [|entry entries IH]; intros c; cbn [foldl]; [done|].
  rewrite IH. unfold fsearch_database_entries_container_insert at 1.
  unfold fsearch_database_entries_container_get_joined at 1. cbn [c_containers].
  rewrite insert_sorted_perm. symmetry. apply Permutation_middle.
Qed.

Lemma slot_insert_all_lookup (entries : list nat) array
    (ks : list FsearchDatabaseIndexProperty) k :
  NoDup ks →
  foldl (slot_insert_all insert_sorted entries) array ks !! k
  = if decide (k ∈ ks) then (λ c, foldl insert c entries) <$> array !! k else array !! k.
Proof.
  intros Hnodup. revert array.
  induction Hnodup as [|i ks Hfresh _ IH]; intros array; cbn [foldl].
  { by rewrite decide_False by apply not_elem_of_nil. }
  rewrite IH. unfold slot_insert_all.
  destruct (decide (k = i)) as [->|Hne].
  - rewrite decide_False by done. rewrite decide_True by (apply elem_of_cons; by left).
    destruct (array !! i) as [c|] eqn:Hi; [|by rewrite Hi].
    by rewrite lookup_insert_eq.
  - assert (k ∈ i :: ks ↔ k ∈ ks) as Hiff by (rewrite elem_of_cons; tauto).
    destruct (array !! i) as [c|] eqn:Hi.
    + rewrite lookup_insert_ne by done.
      destruct (decide (k ∈ ks)); [rewrite decide_True by tauto|rewrite decide_False by tauto];
        done.
    + destruct (decide (k ∈ ks)); [rewrite decide_True by tauto|rewrite decide_False by tauto];
        done.
Qed.

Lemma consistent_update
    (f : FsearchDatabaseEntriesContainer → FsearchDatabaseEntriesContainer)
    (g : list nat → list nat) array array' :
  (∀ l l', l ≡ₚ l' → g l ≡ₚ g l') →
  (∀ c, joined (f c) ≡ₚ g (joined c)) →
  array !! DATABASE_INDEX_PROPERTY_NONE = None →
  (∀ k, array' !! k = if decide (k ∈ index_properties) then f <$> array !! k else array !! k) →
  (∀ k k' c c', array !! k = Some c → array !! k' = Some c' → joined c ≡ₚ joined c') →
  ∀ k k' c c', array' !! k = Some c → array' !! k' = Some c' → joined c ≡ₚ joined c'.
Proof.
  intros Hg Hf Hnone Hlookup Hold k k' c c' Hk Hk'.
  assert (∀ k c, array' !! k = Some c → ∃ c0, array !! k = Some c0 ∧ c = f c0) as Hinv.
  { intros k0 c0 Hk0. rewrite Hlookup in Hk0.
    destruct (index_properties_or_none k0) as [Hin| ->].
    - rewrite decide_True in Hk0 by done.
      destruct (array !! k0) as [c1|]; [|done]. injection Hk0 as <-. eauto.
    - rewrite decide_False in Hk0 by (unfold index_properties; rewrite !elem_of_cons,
        elem_of_nil; intros [?|[?|[?|[?|[?|[]]]]]]; done).
      congruence. }
  destruct (Hinv k c Hk) as (c0 & Hc0 & ->).
  destruct (Hinv k' c' Hk') as (c0' & Hc0' & ->).
  rewrite !Hf. apply Hg. by eapply Hold.
Qed.

(** When the sorter and the sorted insertion only arrange the entries they
    are given, then in every state a store can be observed in the folder
    containers of any two sort keys hold the same entries, and so do the
    file containers. *)
Theorem store_orders_hold_same_entries self :
  store_reachable scan_include sort_entries insert_sorted self → store_consistent self.
Proof.
  intros Hreach.
  induction Hreach as
    [ include_manager exclude_manager flags
    | self cancellable Hreach IH Hsticky
    | self Hreach IH
    | self entries is_dir Hreach IH
    | self folders index self' Hreach IH Hremove
    | self files index self' Hreach IH Hremove
    | h self entry index self' Hreach IH Hremove ].
  - intros k k' c c'. simpl. by rewrite !lookup_empty.
  - destruct (store_running self) eqn:Hrun.
    { unfold index_store_start. by rewrite Hrun. }
    apply store_reachable_shape in Hreach as (Hshape & _ & Hdnone & Hfnone).
    destruct Hshape as [Hidle|(Hrun' & _)]; [|congruence].
    destruct (sticky_cases cancellable Hsticky) as [Hnever|Hfinal].
    + destruct (index_store_start_uncancelled scan_include sort_entries self cancellable
                  Hrun Hnever) as (added & Hstart). cbv zeta in Hstart.
      destruct Hstart as (_ & _ & _ & _ & _ & _ & Hslots & Hd & Hf & _).
      assert (∀ k type entries,
                joined (built_container sort_entries k type entries) ≡ₚ entries) as Hbuilt.
      { intros k type entries. apply sort_entries_perm. }
      intros k k' c c'. split; intros Hk Hk'.
      * destruct (index_properties_or_none k) as [Hin| ->]; [|congruence].
        destruct (index_properties_or_none k') as [Hin'| ->]; [|congruence].
        destruct (Hslots k Hin) as [Hkd _]. destruct (Hslots k' Hin') as [Hkd' _].
        rewrite Hkd in Hk. rewrite Hkd' in Hk'. injection Hk as <-. injection Hk' as <-.
        by rewrite !Hbuilt.
      * destruct (index_properties_or_none k) as [Hin| ->]; [|congruence].
        destruct (index_properties_or_none k') as [Hin'| ->]; [|congruence].
        destruct (Hslots k Hin) as [_ Hkf]. destruct (Hslots k' Hin') as [_ Hkf'].
        rewrite Hkf in Hk. rewrite Hkf' in Hk'. injection Hk as <-. injection Hk' as <-.
        by rewrite !Hbuilt.
    + destruct (index_store_start_cancelled_idle scan_include sort_entries self cancellable
                  Hidle Hfinal) as (_ & _ & Hslots).
      intros k k' c c'. destruct (Hslots k) as [-> ->]. done.
  - exact IH.
  - apply store_reachable_shape in Hreach as (_ & _ & Hdnone & Hfnone).
    unfold index_store_add_entries. case_bool_decide; [done|].
    destruct is_dir; intros k k' c c'; store_fields; (split; [|]); try apply IH.
    + apply (consistent_update (λ c, foldl insert c entries) (λ l, entries ++ l)
               (store_folder_container self) _); [| |done| |].
      * intros l l' Hl. by rewrite Hl.
      * intros c0. apply joined_insert_all.
      * intros k0. apply slot_insert_all_lookup, index_properties_NoDup.
      * intros k0 k0' c0 c0'. apply IH.
    + apply (consistent_update (λ c, foldl insert c entries) (λ l, entries ++ l)
               (store_file_container self) _); [| |done| |].
      * intros l l' Hl. by rewrite Hl.
      * intros c0. apply joined_insert_all.
      * intros k0. apply slot_insert_all_lookup, index_properties_NoDup.
      * intros k0 k0' c0 c0'. apply IH.
  - apply store_reachable_shape in Hreach as (_ & _ & Hdnone & Hfnone).
    unfold index_store_remove_folders in Hremove.
    repeat case_bool_decide; simplify_eq; [done|].
    intros k k' c c'; store_fields; (split; [|apply IH]).
    apply (consistent_update
             (λ c, foldl (λ c entry, (fsearch_database_entries_container_steal c entry).1)
                     c folders)
             (filter (λ p, p ∉ folders)) (store_folder_container self) _); [| |done| |].
    + intros l l' Hl. by rewrite Hl.
    + intros c0. by rewrite joined_steal_all.
    + intros k0. apply slot_steal_all_lookup, index_properties_NoDup.
    + intros k0 k0' c0 c0'. apply IH.
  - apply store_reachable_shape in Hreach as (_ & _ & Hdnone & Hfnone).
    unfold index_store_remove_files in Hremove.
    repeat case_bool_decide; simplify_eq; [done|].
    intros k k' c c'; store_fields; (split; [apply IH|]).
    apply (consistent_update
             (λ c, foldl (λ c entry, (fsearch_database_entries_container_steal c entry).1)
                     c files)
             (filter (λ p, p ∉ files)) (store_file_container self) _); [| |done| |].
    + intros l l' Hl. by rewrite Hl.
    + intros c0. by rewrite joined_steal_all.
    + intros k0. apply slot_steal_all_lookup, index_properties_NoDup.
    + intros k0 k0' c0 c0'. apply IH.
  - apply store_reachable_shape in Hreach as (_ & _ & Hdnone & Hfnone).
    unfold index_store_remove_entry in Hremove.
    destruct entry as [entry|]; [|by simplify_eq].
    case_bool_decide; [|done].
    destruct (db_entry_is_folder h entry); simplify_eq;
      intros k k' c c'; store_fields; (split; [|]); try apply IH.
    + apply (consistent_update
               (λ c, foldl (λ c entry, (fsearch_database_entries_container_steal c entry).1)
                       c [entry])
               (filter (λ p, p ∉ [entry])) (store_folder_container self) _); [| |done| |].
      * intros l l' Hl. by rewrite Hl.
      * intros c0. by rewrite joined_steal_all.
      * intros k0. apply slot_steal_all_lookup, index_properties_NoDup.
      * intros k0 k0' c0 c0'. apply IH.
    + apply (consistent_update
               (λ c, foldl (λ c entry, (fsearch_database_entries_container_steal c entry).1)
                       c [entry])
               (filter (λ p, p ∉ [entry])) (store_file_container self) _); [| |done| |].
      * intros l l' Hl. by rewrite Hl.
      * intros c0. by rewrite joined_steal_all.
      * intros k0. apply slot_steal_all_lookup, index_properties_NoDup.
      * intros k0 k0' c0 c0'. apply IH.
Qed.

End StoreConsistency.

(* --------------------------------------------------------------------- *)
(** ** Removing entries *)
(* --------------------------------------------------------------------- *)



(* --------------------------------------------------------------------- *)
(** ** Search views: positional access and selection *)
(* --------------------------------------------------------------------- *)

Lemma uint32_t_small (z : Z) : 0 <= z < 2 ^ 32 → uint32_t z = z.
Proof. intros Hz. unfold uint32_t. by apply Z.mod_small. Qed.

Lemma uint32_t_sub (a b : Z) : uint32_t (uint32_t a - uint32_t b) = uint32_t (a - b).
Proof. unfold uint32_t. by rewrite <- Zminus_mod. Qed.

Lemma container_num_entries_nonneg (c : FsearchDatabaseEntriesContainer) :
  0 <= fsearch_database_entries_container_get_num_entries c.
Proof. unfold fsearch_database_entries_container_get_num_entries. lia. Qed.

(** C6.  For a view with [F] folder results and [N] file results (their sum
    within the [uint32_t] index range) and [idx < F + N], [get_entry_for_idx]
    returns the [idx]-th element of the folders followed by the files when
    the direction is ascending, and the [(F + N - 1 - idx)]-th element when
    it is descending. *)
Theorem get_entry_for_idx_folded (view : FsearchDatabaseSearchView)
    (folder_container file_container : FsearchDatabaseEntriesContainer) (idx : Z) :
  view_folder_container view = Some folder_container →
  view_file_container view = Some file_container →
  let F := fsearch_database_entries_container_get_num_entries folder_container in
  let N := fsearch_database_entries_container_get_num_entries file_container in
  let folded := fsearch_database_entries_container_get_joined folder_container
                ++ fsearch_database_entries_container_get_joined file_container in
  F + N <= 2 ^ 32 →
  0 <= idx < F + N →
  get_entry_for_idx view idx
  = match view_sort_type view with
    | GTK_SORT_ASCENDING => folded !! Z.to_nat idx
    | GTK_SORT_DESCENDING => folded !! Z.to_nat (F + N - 1 - idx)
    end.
Proof.
  intros Hfolder Hfile F N folded Hsum Hidx.
  pose proof (container_num_entries_nonneg folder_container) as HF.
  pose proof (container_num_entries_nonneg file_container) as HN.
  assert (∀ i, 0 <= i < F + N →
            (if i <? F then fsearch_database_entries_container_get_entry folder_container i
             else let i' := uint32_t (i - F) in
                  if i' <? N then fsearch_database_entries_container_get_entry file_container i'
                  else None)
            = folded !! Z.to_nat i) as Hget.
  { intros i Hi. subst folded. unfold fsearch_database_entries_container_get_entry.
    destruct (Z.ltb_spec i F) as [Hlt|Hge].
    - rewrite lookup_app_l; [done|].
      unfold F, fsearch_database_entries_container_get_num_entries in Hlt. lia.
    - cbv zeta. rewrite uint32_t_small by (fold F N in HF, HN; lia).
      destruct (Z.ltb_spec (i - F) N) as [_|?]; [|lia].
      rewrite lookup_app_r;
        unfold F, fsearch_database_entries_container_get_num_entries in *; [|lia].
      f_equal. lia. }
  unfold get_entry_for_idx. rewrite Hfolder, Hfile.
  unfold get_num_search_folder_results, get_num_search_file_results.
  rewrite Hfolder, Hfile. simpl. fold F N.
  destruct (view_sort_type view); simpl.
  - by apply Hget.
  - rewrite uint32_t_sub.
    replace (F + N - (idx + 1)) with (F + N - 1 - idx) by lia.
    rewrite uint32_t_small by lia. apply Hget. lia.
Qed.

(** C7.  For every view, direction and [uint32_t] index at or past the
    number of results, [get_entry_for_idx] returns NULL, and the item-info
    retrieval of a registered view reports [ENTRY_NOT_FOUND]. *)
Theorem get_entry_for_idx_out_of_range (h : Heap) (self : FsearchDatabase) (view_id : nat)
    (view : FsearchDatabaseSearchView) (idx flags : Z) :
  get_search_view self view_id = Some view →
  0 <= idx < 2 ^ 32 →
  get_num_search_folder_results view + get_num_search_file_results view <= idx →
  get_entry_for_idx view idx = None
  ∧ get_entry_info_non_blocking h self view_id idx flags
    = (FSEARCH_RESULT_DB_ENTRY_NOT_FOUND, None).
Proof.
  intros Hview Hidx Hrange.
  assert (get_entry_for_idx view idx = None) as Hnone.
  { unfold get_entry_for_idx.
    destruct (view_folder_container view) as [folder_container|] eqn:Hfolder; [|done].
    destruct (view_file_container view) as [file_container|] eqn:Hfile; [|done].
    revert Hrange. unfold get_num_search_folder_results, get_num_search_file_results.
    rewrite Hfolder, Hfile. simpl.
    pose proof (container_num_entries_nonneg folder_container) as HF.
    pose proof (container_num_entries_nonneg file_container) as HN.
    set (F := fsearch_database_entries_container_get_num_entries folder_container) in *.
    set (N := fsearch_database_entries_container_get_num_entries file_container) in *.
    intros Hrange.
    assert (∀ i, F + N <= i < 2 ^ 32 →
              (if i <? F then fsearch_database_entries_container_get_entry folder_container i
               else if uint32_t (i - F) <? N
                    then fsearch_database_entries_container_get_entry file_container
                           (uint32_t (i - F))
                    else None) = None) as Hout.
    { intros i Hi. destruct (Z.ltb_spec i F); [lia|].
      rewrite uint32_t_small by lia. destruct (Z.ltb_spec (i - F) N); [lia|done]. }
    destruct (view_sort_type view); simpl; [apply Hout; lia|].
    rewrite uint32_t_sub. apply Hout.
    unfold uint32_t.
    replace (F + N - (idx + 1)) with (F + N - idx - 1 + 1 * 2 ^ 32 - 2 ^ 32) by lia.
    replace (F + N - idx - 1 + 1 * 2 ^ 32 - 2 ^ 32)
      with ((F + N - idx - 1 + 2 ^ 32) + (-1) * 2 ^ 32) by lia.
    rewrite Z.mod_add by lia. rewrite Z.mod_small by lia. lia. }
  split; [done|].
  unfold get_entry_info_non_blocking. by rewrite Hview, Hnone.
Qed.

(* --------------------------------------------------------------------- *)
(** ** Ranges of a selection *)
(* --------------------------------------------------------------------- *)

Lemma int32_t_small (z : Z) : in_int32 z → int32_t z = z.
Proof. unfold in_int32, int32_t. intros Hz. rewrite Z.mod_small by lia. lia. Qed.

Lemma int32_t_range (z : Z) : in_int32 (int32_t z).
Proof.
  unfold in_int32, int32_t. pose proof (Z.mod_pos_bound (z + 2 ^ 31) (2 ^ 32)). lia.
Qed.

(** A run of the loop of [select_range] and [toggle_range] is left exactly
    when [range_loop] has a result, with the view the result is; with
    [end_idx = INT32_MAX] no run is left. *)
Theorem range_loop_returns (h : Heap) (op : gset nat → nat → gset nat)
    (view view' : FsearchDatabaseSearchView) (start_idx end_idx : Z) :
  in_int32 start_idx → in_int32 end_idx →
  (range_loop_run h op end_idx view start_idx view'
   ↔ range_loop h op view start_idx end_idx = Some view')
  ∧ (end_idx = INT32_MAX → ¬ range_loop_run h op end_idx view start_idx view').
Proof.
  intros Hstart Hend.
  assert (range_loop_run h op end_idx view start_idx view'
          → range_loop h op view start_idx end_idx = Some view') as Hrun_result.
  { intros Hrun. revert Hstart.
    induction Hrun as [view i Hlt|view i view' Hle Hrun IH]; intros Hi.
    - unfold range_loop.
      rewrite bool_decide_eq_false_2 by (unfold in_int32, INT32_MAX in *; lia).
      by rewrite seqZ_nil by lia.
    - specialize (IH (int32_t_range _)). unfold range_loop in IH |- *.
      case_bool_decide as Hmax; [done|].
      rewrite int32_t_small in IH by (unfold in_int32, INT32_MAX in *; lia).
      rewrite seqZ_cons by lia. simpl.
      replace (Z.succ i) with (i + 1) by lia.
      by replace (Z.pred (end_idx - i + 1)) with (end_idx - (i + 1) + 1) by lia. }
  split; [split; [done|]|].
  - unfold range_loop. case_bool_decide as Hmax; [done|]. intros [= <-].
    clear Hrun_result.
    remember (Z.to_nat (end_idx - start_idx + 1)) as n eqn:Hn.
    revert view start_idx Hstart Hn.
    induction n as [|n IH]; intros view i Hi Hn.
    + rewrite seqZ_nil by lia. simpl. apply range_loop_leave. lia.
    + rewrite seqZ_cons by lia. simpl. apply range_loop_iterate; [lia|].
      rewrite int32_t_small by (unfold in_int32, INT32_MAX in *; lia).
      replace (Z.succ i) with (i + 1) by lia.
      replace (Z.pred (end_idx - i + 1)) with (end_idx - (i + 1) + 1) by lia.
      apply IH; [unfold in_int32, INT32_MAX in *; lia|lia].
  - intros Hmax Hrun. apply Hrun_result in Hrun.
    unfold range_loop in Hrun. by rewrite bool_decide_eq_true_2 in Hrun.
Qed.

Lemma foldl_select_elem_of (entries : list nat) (selection : gset nat) :
  foldl fsearch_selection_select selection entries = selection ∪ list_to_set entries.
Proof.
  revert selection. induction entries as [|e entries IH]; intros selection; simpl.
  - by rewrite (right_id_L ∅ (∪)).
  - rewrite IH. unfold fsearch_selection_select.
    by rewrite (comm_L (∪) {[e]} selection), (assoc_L (∪)).
Qed.

Lemma select_toggle_elem_of (selection : gset nat) (e entry : nat) :
  bool_decide (entry ∈ fsearch_selection_select_toggle selection e)
  = xorb (bool_decide (entry ∈ selection)) (bool_decide (e = entry)).
Proof.
  unfold fsearch_selection_select_toggle, fsearch_selection_is_selected,
    fsearch_selection_unselect, fsearch_selection_select.
  destruct (decide (e = entry)) as [->|Hne].
  - rewrite (bool_decide_eq_true_2 (entry = entry)) by done.
    destruct (decide (entry ∈ selection)) as [Hin|Hout].
    + rewrite !(bool_decide_eq_true_2 _ Hin). simpl.
      apply bool_decide_eq_false_2. intros [_ Hnot]%elem_of_difference.
      apply Hnot. by apply elem_of_singleton.
    + rewrite !(bool_decide_eq_false_2 _ Hout). simpl.
      apply bool_decide_eq_true_2. by apply elem_of_union_l, elem_of_singleton.
  - rewrite (bool_decide_eq_false_2 (e = entry)) by done. rewrite xorb_false_r.
    apply bool_decide_ext. case_bool_decide.
    + rewrite elem_of_difference, elem_of_singleton. intuition congruence.
    + rewrite elem_of_union, elem_of_singleton. intuition congruence.
Qed.

Lemma foldl_toggle_elem_of (entries : list nat) (selection : gset nat) (entry : nat) :
  bool_decide (entry ∈ foldl fsearch_selection_select_toggle selection entries)
  = xorb (bool_decide (entry ∈ selection)) (met_odd entries entry).
Proof.
  unfold met_odd.
  revert selection. induction entries as [|e entries IH]; intros selection; simpl.
  - by rewrite xorb_false_r.
  - rewrite IH, select_toggle_elem_of, filter_cons.
    destruct (decide (e = entry)) as [->|Hne].
    + rewrite (bool_decide_eq_true_2 (entry = entry)) by done.
      cbn [length]. rewrite Nat.odd_succ, <- Nat.negb_odd.
      by destruct (bool_decide (entry ∈ selection)), (Nat.odd _).
    + rewrite (bool_decide_eq_false_2 (e = entry)) by done. by rewrite xorb_false_r.
Qed.

Lemma range_fold (h : Heap) (op : gset nat → nat → gset nat)
    (view : FsearchDatabaseSearchView) (positions : list Z) :
  let entries := omap (λ i, get_entry_for_idx view (uint32_t i)) positions in
  foldl (range_step h op) view positions
  = set_view_folder_selection
      (foldl op (view_folder_selection view)
         (filter (λ e, db_entry_get_type h e ≠ DATABASE_ENTRY_TYPE_FILE) entries))
      (set_view_file_selection
         (foldl op (view_file_selection view)
            (filter (λ e, db_entry_get_type h e = DATABASE_ENTRY_TYPE_FILE) entries))
         view).
Proof.
  cbv zeta. revert view. induction positions as [|i positions IH]; intros view.
  - by destruct view.
  - cbn [foldl omap list_omap]. rewrite IH. unfold range_step.
    destruct (get_entry_for_idx view (uint32_t i)) as [e|] eqn:He; [|done].
    rewrite filter_cons, (filter_cons (λ e, db_entry_get_type h e = _)).
    case_bool_decide as Htype.
    + rewrite decide_False by (intros Hne; done). rewrite decide_True by done. done.
    + rewrite decide_True by done. rewrite decide_False by done. done.
Qed.

Lemma range_swap (a b : Z) :
  (if a >? b then (b, a) else (a, b)) = (Z.min a b, Z.max a b).
Proof. destruct (Z.gtb_spec a b); f_equal; lia. Qed.

(** The two range operations on a view, by their bounds. *)
Lemma select_range_result (h : Heap) (view : FsearchDatabaseSearchView) (a b : Z) :
  select_range h view a b
  = if bool_decide (Z.max a b = INT32_MAX) then None
    else Some (set_view_folder_selection
                 (view_folder_selection view ∪ list_to_set (range_folders h view a b))
                 (set_view_file_selection
                    (view_file_selection view ∪ list_to_set (range_files h view a b))
                    view)).
Proof.
  unfold select_range. rewrite range_swap. unfold range_loop.
  case_bool_decide; [done|]. by rewrite range_fold, !foldl_select_elem_of.
Qed.

Lemma toggle_range_result (h : Heap) (view : FsearchDatabaseSearchView) (a b : Z) :
  toggle_range h view a b
  = if bool_decide (Z.max a b = INT32_MAX) then None
    else Some (set_view_folder_selection
                 (foldl fsearch_selection_select_toggle (view_folder_selection view)
                    (range_folders h view a b))
                 (set_view_file_selection
                    (foldl fsearch_selection_select_toggle (view_file_selection view)
                       (range_files h view a b))
                    view)).
Proof.
  unfold toggle_range. rewrite range_swap. unfold range_loop.
  case_bool_decide; [done|]. by rewrite range_fold.
Qed.

Lemma range_entries_comm (view : FsearchDatabaseSearchView) (a b : Z) :
  range_entries view a b = range_entries view b a.
Proof. unfold range_entries. by rewrite Z.min_comm, Z.max_comm. Qed.

Lemma select_range_comm (h : Heap) (view : FsearchDatabaseSearchView) (a b : Z) :
  select_range h view a b = select_range h view b a.
Proof.
  rewrite !select_range_result. unfold range_folders, range_files.
  by rewrite (range_entries_comm view a b), Z.max_comm.
Qed.

Lemma toggle_range_comm (h : Heap) (view : FsearchDatabaseSearchView) (a b : Z) :
  toggle_range h view a b = toggle_range h view b a.
Proof.
  rewrite !toggle_range_result. unfold range_folders, range_files.
  by rewrite (range_entries_comm view a b), Z.max_comm.
Qed.

(** A range handled by [modify_selection] either returns early, without a
    signal, or gets to the signal, or does not return. *)
Lemma modify_selection_range_cases (h : Heap) (self : FsearchDatabase) (view_id : nat)
    (view : FsearchDatabaseSearchView) (type : FsearchSelectionType) (a b : Z) :
  get_search_view self view_id = Some view →
  modify_selection h self view_id type a b
  = match get_entry_for_idx view (uint32_t a) with
    | None => Some (self, [])
    | Some entry =>
        selection_changed self view_id <$> modify_selection_apply h view entry type a b
    end.
Proof.
  intros Hview. unfold modify_selection. rewrite Hview.
  destruct (get_entry_for_idx view (uint32_t a)) as [entry|]; [|done].
  by destruct (modify_selection_apply h view entry type a b).
Qed.

Lemma modify_selection_range_order (h : Heap) (self : FsearchDatabase) (view_id : nat)
    (view : FsearchDatabaseSearchView) (type : FsearchSelectionType) (a b : Z) :
  get_search_view self view_id = Some view →
  type = FSEARCH_SELECTION_TYPE_SELECT_RANGE ∨ type = FSEARCH_SELECTION_TYPE_TOGGLE_RANGE →
  modify_selection h self view_id type a b = modify_selection h self view_id type b a
  ↔ (is_Some (get_entry_for_idx view (uint32_t a))
     ↔ is_Some (get_entry_for_idx view (uint32_t b))).
Proof.
  intros Hview Htype.
  rewrite !(modify_selection_range_cases h self view_id view) by done.
  assert (∀ ea eb, modify_selection_apply h view ea type a b
                   = modify_selection_apply h view eb type b a) as Hcomm.
  { intros ea eb. destruct Htype as [-> | ->]; simpl.
    - apply select_range_comm.
    - apply toggle_range_comm. }
  destruct (get_entry_for_idx view (uint32_t a)) as [ea|],
           (get_entry_for_idx view (uint32_t b)) as [eb|].
  - rewrite (Hcomm ea eb). split; [done|]. done.
  - split; [|intros [Hab _]; by destruct Hab].
    destruct (modify_selection_apply h view ea type a b); done.
  - split; [|intros [_ Hba]; by destruct Hba].
    destruct (modify_selection_apply h view eb type b a); done.
  - split; [|done]. intros _. split; by intros [? ?].
Qed.

(** C9 (as amended).  Through [modify_selection], the only caller of
    [select_range] and [toggle_range], the two orders of the endpoints of a
    range are handled alike exactly when both positions hold an entry or
    neither does.  When the start position holds an entry and both indices
    are below [INT32_MAX], the handler returns with one signal posted, and
    the range is the positions from the smaller index to the larger one:
    [select_range] adds the files and the folders shown there to the file
    and folder selections, [toggle_range] flips the membership of every
    entry shown at an odd number of these positions, and nothing else of
    the view changes. *)
Theorem modify_selection_range_endpoints (h : Heap) (self : FsearchDatabase) (view_id : nat)
    (view : FsearchDatabaseSearchView) (a b : Z) :
  get_search_view self view_id = Some view →
  in_int32 a → in_int32 b →
  (modify_selection h self view_id FSEARCH_SELECTION_TYPE_SELECT_RANGE a b
   = modify_selection h self view_id FSEARCH_SELECTION_TYPE_SELECT_RANGE b a
   ↔ (is_Some (get_entry_for_idx view (uint32_t a))
      ↔ is_Some (get_entry_for_idx view (uint32_t b))))
  ∧ (modify_selection h self view_id FSEARCH_SELECTION_TYPE_TOGGLE_RANGE a b
     = modify_selection h self view_id FSEARCH_SELECTION_TYPE_TOGGLE_RANGE b a
     ↔ (is_Some (get_entry_for_idx view (uint32_t a))
        ↔ is_Some (get_entry_for_idx view (uint32_t b))))
  ∧ (is_Some (get_entry_for_idx view (uint32_t a)) → Z.max a b < INT32_MAX →
     modify_selection h self view_id FSEARCH_SELECTION_TYPE_SELECT_RANGE a b
     = Some (selection_changed self view_id
               (set_view_folder_selection
                  (view_folder_selection view ∪ list_to_set (range_folders h view a b))
                  (set_view_file_selection
                     (view_file_selection view ∪ list_to_set (range_files h view a b))
                     view)))
     ∧ ∃ toggled,
         modify_selection h self view_id FSEARCH_SELECTION_TYPE_TOGGLE_RANGE a b
         = Some (selection_changed self view_id toggled)
         ∧ reselected view toggled
         ∧ ∀ entry,
             bool_decide (entry ∈ view_file_selection toggled)
             = xorb (bool_decide (entry ∈ view_file_selection view))
                    (met_odd (range_files h view a b) entry)
             ∧ bool_decide (entry ∈ view_folder_selection toggled)
               = xorb (bool_decide (entry ∈ view_folder_selection view))
                      (met_odd (range_folders h view a b) entry)).
Proof.
  intros Hview _ _.
  split; [apply modify_selection_range_order; auto|].
  split; [apply modify_selection_range_order; auto|].
  intros [entry Hentry] Hmax.
  rewrite !(modify_selection_range_cases h self view_id view) by done.
  rewrite Hentry. cbn [modify_selection_apply].
  rewrite select_range_result, toggle_range_result.
  rewrite bool_decide_eq_false_2 by lia.
  split; [done|]. eexists. split; [reflexivity|]. split; [done|].
  intros e. cbn [view_file_selection view_folder_selection set_view_folder_selection
                   set_view_file_selection].
  by rewrite !foldl_toggle_elem_of.
Qed.

(** C10.  When the view is registered and no entry is found at the start
    index, [modify_selection] leaves the engine as it is and posts no
    signal, whatever the selection type. *)
Theorem modify_selection_no_start_entry (h : Heap) (self : FsearchDatabase) (view_id : nat)
    (view : FsearchDatabaseSearchView) (type : FsearchSelectionType) (start_idx end_idx : Z) :
  get_search_view self view_id = Some view →
  get_entry_for_idx view (uint32_t start_idx) = None →
  modify_selection h self view_id type start_idx end_idx = Some (self, []).
Proof.
  intros Hview Hentry. unfold modify_selection. by rewrite Hview, Hentry.
Qed.

(* --------------------------------------------------------------------- *)
(** ** Work-queue handlers: load and scan *)
(* --------------------------------------------------------------------- *)

(** C1 (what the code does).  For an engine whose snapshot file has a local
    path, the load handler posts load-started and load-finished and leaves
    the engine, its store included, exactly as it was: nothing is decoded,
    no loaded store is installed and no empty store is created. *)
Theorem load_database_from_file_installs_nothing (self : FsearchDatabase) (path : string) :
  let self := set_db_file (Some {| g_file_get_path := Some path |}) self in
  load_database_from_file self
  = (self, [EVENT_LOAD_STARTED; EVENT_LOAD_FINISHED (get_database_info self)]).
Proof. reflexivity. Qed.

Section HandlerFacts.

Context (scan_include :
           FsearchDatabaseInclude → FsearchDatabaseExcludeManager → Z → GCancellable →
           option (list nat * list nat))
        (sort_entries :
           FsearchDatabaseIndexProperty → FsearchDatabaseIndexProperty →
           FsearchDatabaseEntryType → list nat → list (list nat)).

(** C4 (what the code does).  A scan whose include and exclude managers
    equal those of the current store is a no-op whatever its flags are: the
    engine, its flags included, stays as it was and no signal is posted. *)
Theorem scan_database_ignores_flags (self : FsearchDatabase)
    (store : FsearchDatabaseIndexStore) (flags : Z) :
  let self := set_db_store (Some store) self in
  scan_database scan_include sort_entries self
    (store_include_manager store) (store_exclude_manager store) flags
  = (self, []).
Proof.
  simpl. unfold scan_database. simpl.
  unfold fsearch_database_include_manager_equal, fsearch_database_exclude_manager_equal.
  by rewrite !bool_decide_eq_true_2.
Qed.

(** A scan is a no-op exactly when there is a store whose managers equal
    the requested ones; otherwise it posts one scan-started/scan-finished
    pair, installs a store built for the requested configuration and clears
    the search views. *)
Lemma scan_database_cases (self : FsearchDatabase)
    (include_manager : FsearchDatabaseIncludeManager)
    (exclude_manager : FsearchDatabaseExcludeManager) (flags : Z) :
  let result := scan_database scan_include sort_entries self
                  include_manager exclude_manager flags in
  ((∃ store, db_store self = Some store
             ∧ store_include_manager store = include_manager
             ∧ store_exclude_manager store = exclude_manager)
   ∧ result = (self, []))
  ∨ ((¬ ∃ store, db_store self = Some store
                 ∧ store_include_manager store = include_manager
                 ∧ store_exclude_manager store = exclude_manager)
     ∧ result.2 = [EVENT_SCAN_STARTED; EVENT_SCAN_FINISHED (get_database_info result.1)]
     ∧ db_search_results result.1 = ∅
     ∧ db_flags result.1 = flags
     ∧ db_store result.1
       = Some (index_store_start_monitoring
                 (index_store_start scan_include sort_entries
                    (index_store_new include_manager exclude_manager flags) None))).
Proof.
  simpl. unfold scan_database.
  unfold fsearch_database_include_manager_equal, fsearch_database_exclude_manager_equal.
  destruct (db_store self) as [store|] eqn:Hstore.
  - destruct (decide (store_include_manager store = include_manager)) as [Hi|Hi];
      destruct (decide (store_exclude_manager store = exclude_manager)) as [He|He].
    + left. rewrite !bool_decide_eq_true_2 by done. simpl. split; [eauto|done].
    + right. rewrite (bool_decide_eq_false_2 _ He), andb_false_r. simpl.
      split; [|done]. intros (s & Hs & _ & He'). congruence.
    + right. rewrite (bool_decide_eq_false_2 _ Hi). simpl.
      split; [|done]. intros (s & Hs & Hi' & _). congruence.
    + right. rewrite (bool_decide_eq_false_2 _ Hi). simpl.
      split; [|done]. intros (s & Hs & Hi' & _). congruence.
  - right. simpl. split; [|done]. intros (s & Hs & _). done.
Qed.

(** Two scans with the same configuration, queued on an engine without a
    store, post exactly one scan-started/scan-finished pair. *)
Lemma scan_twice_one_pair (h : Heap) (self : FsearchDatabase)
    (include_manager : FsearchDatabaseIncludeManager)
    (exclude_manager : FsearchDatabaseExcludeManager) (flags : Z) :
  db_store self = None →
  let scan := FSEARCH_DATABASE_WORK_SCAN include_manager exclude_manager flags in
  ∃ info, snd <$> work_queue_thread scan_include sort_entries h self [scan; scan]
          = Some [EVENT_SCAN_STARTED; EVENT_SCAN_FINISHED info].
Proof.
  intros Hstore scan. subst scan. simpl.
  destruct (scan_database_cases self include_manager exclude_manager flags)
    as [((s & Hs & _) & _)|(_ & Hev & _ & _ & Hst)]; [congruence|].
  destruct (scan_database scan_include sort_entries self include_manager exclude_manager flags)
    as [self1 events1] eqn:Hfirst.
  simpl in Hev, Hst. subst events1.
  destruct (index_store_start_managers scan_include sort_entries
              (index_store_new include_manager exclude_manager flags) None) as [Hi He].
  simpl in Hi, He.
  destruct (scan_database_cases self1 include_manager exclude_manager flags)
    as [(_ & Hnoop)|(Hne & _)].
  - simpl in Hnoop. rewrite Hnoop. simpl. eauto.
  - exfalso. apply Hne. eexists. split; [exact Hst|]. by split.
Qed.

End HandlerFacts.

(* --------------------------------------------------------------------- *)
(** ** Snapshot codec: bytes and names *)
(* --------------------------------------------------------------------- *)

Lemma le_bytes_length (n : nat) (v : Z) : length (le_bytes n v) = n.
Proof. revert v. induction n as [|n IH]; intros v; simpl; [done|]. by rewrite IH. Qed.

Lemma le_value_le_bytes (n : nat) (v : Z) :
  le_value (le_bytes n v) = v mod 256 ^ Z.of_nat n.
Proof.
  revert v. induction n as [|n IH]; intros v.
  - simpl. by rewrite Z.mod_1_r.
  - cbn [le_bytes le_value]. rewrite IH.
    rewrite Nat2Z.inj_succ, Z.pow_succ_r by lia.
    rewrite (Z.rem_mul_r v 256 (256 ^ Z.of_nat n)) by lia. lia.
Qed.

Lemma le_value_le_bytes_4 (v : Z) : 0 <= v < 2 ^ 32 → le_value (le_bytes 4 v) = v.
Proof. intros Hv. rewrite le_value_le_bytes. apply Z.mod_small. simpl. lia. Qed.

Lemma int64_t_le_bytes_8 (v : Z) : in_int64 v → int64_t (le_value (le_bytes 8 (uint64_t v))) = v.
Proof.
  unfold in_int64. intros Hv. rewrite le_value_le_bytes.
  change (256 ^ Z.of_nat 8) with (2 ^ 64).
  unfold int64_t, uint64_t. rewrite !Z.mod_mod by lia.
  destruct (Z.ltb_spec (v mod 2 ^ 64) (2 ^ 63)) as [Hlt|Hge].
  - destruct (Z.lt_ge_cases v 0) as [Hneg|Hpos].
    + exfalso. revert Hlt.
      replace v with (v + 2 ^ 64 + (-1) * 2 ^ 64) by lia.
      rewrite Z.mod_add by lia. rewrite Z.mod_small by lia. lia.
    + apply Z.mod_small. lia.
  - destruct (Z.lt_ge_cases v 0) as [Hneg|Hpos].
    + replace v with (v + 2 ^ 64 + (-1) * 2 ^ 64) at 1 by lia.
      rewrite Z.mod_add by lia. rewrite Z.mod_small by lia. lia.
    + exfalso. rewrite Z.mod_small in Hge by lia. lia.
Qed.

Lemma copy_bytes_app (bs tail : list Z) :
  copy_bytes_and_return_new_src (bs ++ tail) (length bs) = Some (bs, tail).
Proof.
  unfold copy_bytes_and_return_new_src.
  rewrite bool_decide_eq_true_2 by (rewrite length_app; lia).
  by rewrite take_app_length, drop_app_length.
Qed.

Lemma write_data_to_file_inv (fp fp' : FILE) (data : list Z) (n : Z) :
  write_data_to_file fp data = Some (n, fp') →
  file_bytes fp' = file_bytes fp ++ data ∧ n = Z.of_nat (length data).
Proof.
  unfold write_data_to_file. intros Hw.
  repeat case_bool_decide; simplify_eq; simpl.
  - destruct data; [|done]. by rewrite app_nil_r.
  - done.
Qed.

Lemma c_str_no_nul (name : list Z) : Forall (λ b, 0 < b < 256) name → c_str name = name.
Proof.
  induction 1 as [|b name Hb _ IH]; simpl; [done|].
  destruct (Z.eqb_spec b 0); [lia|]. by rewrite IH.
Qed.

Lemma c_str_terminated (name : list Z) :
  Forall (λ b, 0 < b < 256) name → c_str (name ++ [0]) = name.
Proof.
  induction 1 as [|b name Hb _ IH]; simpl; [done|].
  destruct (Z.eqb_spec b 0); [lia|]. by rewrite IH.
Qed.

(** [get_name_offset] returns the length of a common prefix, at most 255. *)
Lemma get_name_offset_loop_spec (old new : list Z) (room : nat) :
  let offset := get_name_offset_loop old new room in
  0 <= offset <= Z.of_nat room
  ∧ offset <= Z.of_nat (length old)
  ∧ offset <= Z.of_nat (length new)
  ∧ take (Z.to_nat offset) old = take (Z.to_nat offset) new.
Proof.
  revert old new. induction room as [|room IH]; intros old new; simpl.
  { destruct old, new; simpl; repeat split; lia || done. }
  destruct old as [|o old], new as [|n new]; simpl; try (repeat split; lia || done).
  destruct (bool_decide (o = n) && negb (o =? 0) && negb (n =? 0)) eqn:Hsame;
    [|simpl; repeat split; lia || done].
  apply andb_true_iff in Hsame as [Hsame _]. apply andb_true_iff in Hsame as [Heq _].
  apply bool_decide_eq_true in Heq as ->.
  destruct (IH old new) as (H0 & H1 & H2 & H3).
  replace (Z.to_nat (1 + get_name_offset_loop old new room))
    with (S (Z.to_nat (get_name_offset_loop old new room))) by lia.
  simpl. rewrite H3. repeat split; lia || done.
Qed.

(** The loop of [get_name_offset] stops at the room it is given, at a
    position where the names differ, or at the end of both names. *)
Lemma get_name_offset_loop_stops (old new : list Z) (room : nat) :
  name_ok old → name_ok new →
  let offset := get_name_offset_loop old new room in
  offset = Z.of_nat room
  ∨ old !! Z.to_nat offset ≠ new !! Z.to_nat offset
  ∨ (offset = Z.of_nat (length old) ∧ offset = Z.of_nat (length new)).
Proof.
  revert old new. induction room as [|room IH]; intros old new Hold Hnew.
  { left. by destruct old, new. }
  destruct old as [|o old], new as [|n new]; cbn [get_name_offset_loop].
  - right. right. done.
  - right. left. done.
  - right. left. done.
  - apply Forall_cons in Hold as [Ho Hold]. apply Forall_cons in Hnew as [Hn Hnew].
    destruct (Z.eqb_spec o 0) as [?|_]; [lia|]. destruct (Z.eqb_spec n 0) as [?|_]; [lia|].
    rewrite !andb_true_r. case_bool_decide as Heq.
    + subst n. destruct (get_name_offset_loop_spec old new room) as (H0 & _).
      replace (Z.to_nat (1 + get_name_offset_loop old new room))
        with (S (Z.to_nat (get_name_offset_loop old new room))) by lia.
      destruct (IH old new Hold Hnew) as [Hfull|[Hdiff|[Hold_end Hnew_end]]].
      * left. lia.
      * right. left. done.
      * right. right. cbn [length]. lia.
    + right. left. simpl. congruence.
Qed.

(** [get_name_offset] is the length of the longest prefix the two names
    share, cut at 255. *)
Theorem get_name_offset_longest_prefix (old new : list Z) :
  name_ok old → name_ok new →
  let offset := get_name_offset old new in
  0 <= offset <= 255
  ∧ take (Z.to_nat offset) old = take (Z.to_nat offset) new
  ∧ ∀ k : nat,
      (k ≤ 255)%nat → (k ≤ length old)%nat → (k ≤ length new)%nat →
      take k old = take k new → Z.of_nat k <= offset.
Proof.
  intros Hold Hnew. unfold get_name_offset.
  destruct (get_name_offset_loop_spec old new 255) as (H0 & Hlo & Hln & Htake).
  pose proof (get_name_offset_loop_stops old new 255 Hold Hnew) as Hstop.
  cbv zeta in *. set (offset := get_name_offset_loop old new 255) in *.
  split; [lia|]. split; [done|].
  intros k Hk Hko Hkn Hsame.
  destruct Hstop as [Hfull|[Hdiff|[Hold_end _]]]; [lia| |lia].
  destruct (decide (Z.of_nat k <= offset)) as [|Hgt]; [done|].
  exfalso. apply Hdiff.
  rewrite <- (lookup_take_lt old k) by lia.
  rewrite <- (lookup_take_lt new k) by lia.
  by rewrite Hsame.
Qed.

Lemma optional_write_inv (b : bool) (fp fp' : FILE) (data : list Z) (written n : Z) :
  (if b then write_data_to_file fp data ≫= λ '(n, fp), Some (written + n, fp)
   else Some (written, fp)) = Some (n, fp') →
  file_bytes fp' = file_bytes fp ++ (if b then data else [])
  ∧ n = written + Z.of_nat (length (if b then data else [])).
Proof.
  destruct b; intros Hw.
  - apply bind_Some in Hw as ([m fp1] & Hw & ?). simplify_eq.
    by apply write_data_to_file_inv in Hw as [-> ->].
  - simplify_eq. rewrite app_nil_r. simpl. split; [done|lia].
Qed.

Section CodecFacts.

Context (FLAG_SIZE FLAG_MODIFICATION_TIME : Z) (pool_entry : FsearchDatabaseEntry).

Local Arguments le_bytes : simpl never.
Local Arguments le_value : simpl never.

Lemma copy_bytes_app_8 (v : Z) (tail : list Z) :
  copy_bytes_and_return_new_src (le_bytes 8 v ++ tail) 8 = Some (le_bytes 8 v, tail).
Proof. rewrite <- (le_bytes_length 8 v) at 2. apply copy_bytes_app. Qed.

Lemma copy_bytes_app_4 (v : Z) (tail : list Z) :
  copy_bytes_and_return_new_src (le_bytes 4 v ++ tail) 4 = Some (le_bytes 4 v, tail).
Proof. rewrite <- (le_bytes_length 4 v) at 2. apply copy_bytes_app. Qed.

Lemma copy_bytes_app_2 (v : Z) (tail : list Z) :
  copy_bytes_and_return_new_src (le_bytes 2 v ++ tail) 2 = Some (le_bytes 2 v, tail).
Proof. rewrite <- (le_bytes_length 2 v) at 2. apply copy_bytes_app. Qed.

Local Abbreviation save_super := (save_entry_super_elements FLAG_SIZE FLAG_MODIFICATION_TIME).
Local Abbreviation load_super :=
  (load_entry_super_elements_from_memory FLAG_SIZE FLAG_MODIFICATION_TIME).

(** What the name fields of a record are when the new characters of the
    name fit [name_len]: the offset is the length of a prefix shared with
    the previous name and the new characters are the rest of the name. *)
Lemma name_delta (prev name : list Z) :
  name_ok name →
  Z.of_nat (length name) - get_name_offset prev name <= 255 →
  let offset := get_name_offset prev (g_string_append [] name) in
  let name_len := uint8_t (Z.of_nat (length (g_string_append [] name)) - offset) in
  g_string_append [] name = name
  ∧ 0 <= offset <= 255
  ∧ name_len = Z.of_nat (length name) - offset
  ∧ 0 <= name_len <= 255
  ∧ g_string_erase_to_end prev offset = take (Z.to_nat offset) name
  ∧ g_string_append (g_string_erase_to_end prev offset) (drop (Z.to_nat offset) name) = name
  ∧ take (Z.to_nat name_len) (drop (Z.to_nat offset) name) = drop (Z.to_nat offset) name.
Proof.
  intros Hname Hfit. simpl.
  assert (g_string_append [] name = name) as Happ
    by (unfold g_string_append; simpl; by apply c_str_no_nul).
  rewrite Happ. unfold get_name_offset in *.
  destruct (get_name_offset_loop_spec prev name 255) as (H0 & H1 & H2 & H3).
  set (offset := get_name_offset_loop prev name 255) in *.
  assert (uint8_t (Z.of_nat (length name) - offset) = Z.of_nat (length name) - offset) as Hlen.
  { unfold uint8_t. apply Z.mod_small. lia. }
  assert (g_string_erase_to_end prev offset = take (Z.to_nat offset) name) as Herase.
  { unfold g_string_erase_to_end. rewrite bool_decide_eq_true_2 by lia. done. }
  rewrite Hlen, Herase. repeat split; try lia.
  - unfold g_string_append. rewrite c_str_no_nul by (by apply Forall_drop).
    apply take_drop.
  - apply take_ge. rewrite length_drop. lia.
Qed.

(** One record: the bytes [save_entry_super_elements] writes are the
    super elements followed by the parent idx, and
    [load_entry_super_elements_from_memory] reads the super elements back
    into the name, and into the size and the time the flags select. *)
Lemma save_load_super_elements (fp fp' : FILE) (index_flags : Z)
    (entry : FsearchDatabaseEntry) (parent_idx : Z) (prev prev' : list Z) (n : Z) :
  entry_fields_ok entry →
  Z.of_nat (length (e_name entry)) - get_name_offset prev (e_name entry) <= 255 →
  save_super fp index_flags entry parent_idx prev = Some (n, prev', fp') →
  ∃ super,
    file_bytes fp' = file_bytes fp ++ super ++ le_bytes 4 parent_idx
    ∧ n = Z.of_nat (length (super ++ le_bytes 4 parent_idx))
    ∧ prev' = e_name entry
    ∧ ∀ tail dentry, ∃ loaded,
        load_super (super ++ tail) index_flags dentry prev = Some (tail, loaded, e_name entry)
        ∧ e_name loaded = e_name entry
        ∧ e_type loaded = e_type dentry
        ∧ e_idx loaded = e_idx dentry
        ∧ e_size loaded = (if bool_decide (Z.land index_flags FLAG_SIZE ≠ 0)
                           then e_size entry else e_size dentry)
        ∧ e_mtime loaded = (if bool_decide (Z.land index_flags FLAG_MODIFICATION_TIME ≠ 0)
                            then e_mtime entry else e_mtime dentry).
Proof.
  intros (Hname & Hsize & Hmtime) Hfit Hsave.
  destruct (name_delta prev (e_name entry) Hname Hfit)
    as (Happ & Hoff & Hlen & Hlen_range & Herase & Hnew & Htake).
  unfold save_entry_super_elements in Hsave. cbv zeta in Hsave.
  rewrite Happ in *.
  set (offset := get_name_offset prev (e_name entry)) in *.
  set (name_len := uint8_t (Z.of_nat (length (e_name entry)) - offset)) in *.
  rewrite Hnew, Htake in Hsave.
  set (new_chars := drop (Z.to_nat offset) (e_name entry)) in *.
  assert (length new_chars = Z.to_nat name_len) as Hchars
    by (subst new_chars; rewrite length_drop; lia).
  assert (Forall (λ b, 0 < b < 256) new_chars) as Hchars_ok
    by (apply Forall_drop, Hname).
  (* the writes, in order *)
  apply bind_Some in Hsave as ([n1 fp1] & Hw1 & Hsave).
  apply write_data_to_file_inv in Hw1 as [Hb1 ->].
  apply bind_Some in Hsave as ([n2 fp2] & Hw2 & Hsave).
  apply write_data_to_file_inv in Hw2 as [Hb2 ->].
  apply bind_Some in Hsave as ([n3 fp3] & Hw3 & Hsave).
  apply optional_write_inv in Hw3 as [Hb3 ->].
  apply bind_Some in Hsave as ([n4 fp4] & Hw4 & Hsave).
  apply optional_write_inv in Hw4 as [Hb4 ->].
  apply bind_Some in Hsave as ([n5 fp5] & Hw5 & Hsave).
  apply optional_write_inv in Hw5 as [Hb5 ->].
  apply bind_Some in Hsave as ([n6 fp6] & Hw6 & Hsave).
  apply write_data_to_file_inv in Hw6 as [Hb6 ->].
  remember (if name_len >? 0 then new_chars else []) as chars eqn:Hchars_def.
  remember (if bool_decide (Z.land index_flags FLAG_SIZE ≠ 0)
            then le_bytes 8 (uint64_t (e_size entry)) else []) as size_bytes eqn:Hsize_def.
  remember (if bool_decide (Z.land index_flags FLAG_MODIFICATION_TIME ≠ 0)
            then le_bytes 8 (uint64_t (e_mtime entry)) else []) as mtime_bytes eqn:Hmtime_def.
  injection Hsave as <- <- <-.
  exists ([offset] ++ [name_len] ++ chars ++ size_bytes ++ mtime_bytes).
  split. { rewrite Hb6, Hb5, Hb4, Hb3, Hb2, Hb1. by rewrite <- !app_assoc. }
  split. { rewrite !length_app, le_bytes_length. simpl. lia. }
  split; [done|].
  intros tail dentry.
  unfold load_entry_super_elements_from_memory.
  rewrite <- !app_assoc.
  rewrite (copy_bytes_app [offset]). cbn [mbind option_bind].
  rewrite (copy_bytes_app [name_len]). cbn [mbind option_bind].
  change (le_value [offset]) with (offset + 256 * 0).
  change (le_value [name_len]) with (name_len + 256 * 0).
  rewrite !Z.mul_0_r, !Z.add_0_r.
  rewrite Herase.
  assert ((if name_len >? 0
           then copy_bytes_and_return_new_src
                  (chars ++ size_bytes ++ mtime_bytes ++ tail) (Z.to_nat name_len)
           else Some ([], chars ++ size_bytes ++ mtime_bytes ++ tail))
          = Some (new_chars, size_bytes ++ mtime_bytes ++ tail)) as ->.
  { subst chars. destruct (Z.gtb_spec name_len 0) as [Hpos|Hzero].
    - rewrite <- Hchars. apply copy_bytes_app.
    - destruct new_chars; [done|simpl in Hchars; lia]. }
  cbn [mbind option_bind].
  assert (g_string_append (take (Z.to_nat offset) (e_name entry)) (new_chars ++ [0])
          = e_name entry) as ->.
  { unfold g_string_append. rewrite c_str_terminated by done. apply take_drop. }
  subst size_bytes mtime_bytes.
  destruct (bool_decide (Z.land index_flags FLAG_SIZE ≠ 0)) eqn:Hfs;
    destruct (bool_decide (Z.land index_flags FLAG_MODIFICATION_TIME ≠ 0)) eqn:Hfm;
    rewrite ?app_nil_l; cbn [mbind option_bind];
    repeat (rewrite (copy_bytes_app_8 (uint64_t _)); cbn [mbind option_bind]);
    (eexists; split; [reflexivity|]);
    cbn [e_name e_type e_idx e_size e_mtime
         db_entry_set_name db_entry_set_size db_entry_set_mtime];
    rewrite ?int64_t_le_bytes_8 by done;
    by repeat split.
Qed.

(** One record, whatever the length of its name: the loader, started with
    the previous name the writer had, reads the record to its end and sets
    the name to the first [name_offset + name_len] bytes of the saved
    name.  So the name is reproduced exactly when it has at most 255 bytes
    after [name_offset]. *)
Theorem record_name_reproduced_iff (fp fp' : FILE) (index_flags : Z)
    (entry : FsearchDatabaseEntry) (parent_idx : Z) (prev prev' : list Z) (n : Z) :
  name_ok (e_name entry) →
  save_super fp index_flags entry parent_idx prev = Some (n, prev', fp') →
  let name_offset := get_name_offset prev (e_name entry) in
  let name_len := uint8_t (Z.of_nat (length (e_name entry)) - name_offset) in
  prev' = e_name entry
  ∧ ∃ super,
      file_bytes fp' = file_bytes fp ++ super ++ le_bytes 4 parent_idx
      ∧ ∀ tail dentry, ∃ loaded,
          load_super (super ++ tail) index_flags dentry prev
          = Some (tail, loaded, take (Z.to_nat (name_offset + name_len)) (e_name entry))
          ∧ e_name loaded = take (Z.to_nat (name_offset + name_len)) (e_name entry)
          ∧ (e_name loaded = e_name entry
             ↔ Z.of_nat (length (e_name entry)) - name_offset <= 255).
Proof.
  intros Hname Hsave name_offset name_len.
  assert (g_string_append [] (e_name entry) = e_name entry) as Happ
    by (unfold g_string_append; simpl; by apply c_str_no_nul).
  unfold save_entry_super_elements in Hsave. cbv zeta in Hsave.
  rewrite Happ in Hsave. fold name_offset in Hsave. fold name_len in Hsave.
  destruct (get_name_offset_loop_spec prev (e_name entry) 255) as (H0 & H1 & H2 & H3).
  fold (get_name_offset prev (e_name entry)) in H0, H1, H2, H3.
  fold name_offset in H0, H1, H2, H3.
  assert (0 <= name_len < 256) as Hlen_range
    by (subst name_len; unfold uint8_t; apply Z.mod_pos_bound; lia).
  assert (g_string_erase_to_end prev name_offset = take (Z.to_nat name_offset) (e_name entry))
    as Herase.
  { unfold g_string_erase_to_end. rewrite bool_decide_eq_true_2 by lia. done. }
  assert (g_string_append (take (Z.to_nat name_offset) (e_name entry))
            (drop (Z.to_nat name_offset) (e_name entry)) = e_name entry) as Hnew.
  { unfold g_string_append. rewrite c_str_no_nul by (by apply Forall_drop).
    apply take_drop. }
  rewrite Herase, Hnew in Hsave.
  set (new_chars := take (Z.to_nat name_len) (drop (Z.to_nat name_offset) (e_name entry))) in *.
  assert (name_len <= Z.of_nat (length (e_name entry)) - name_offset) as Hlen_le.
  { subst name_len. unfold uint8_t. apply Z.mod_le; lia. }
  assert (length new_chars = Z.to_nat name_len) as Hchars
    by (subst new_chars; rewrite length_take, length_drop; lia).
  assert (Forall (λ b, 0 < b < 256) new_chars) as Hchars_ok
    by (apply Forall_take, Forall_drop, Hname).
  apply bind_Some in Hsave as ([n1 fp1] & Hw1 & Hsave).
  apply write_data_to_file_inv in Hw1 as [Hb1 ->].
  apply bind_Some in Hsave as ([n2 fp2] & Hw2 & Hsave).
  apply write_data_to_file_inv in Hw2 as [Hb2 ->].
  apply bind_Some in Hsave as ([n3 fp3] & Hw3 & Hsave).
  apply optional_write_inv in Hw3 as [Hb3 ->].
  apply bind_Some in Hsave as ([n4 fp4] & Hw4 & Hsave).
  apply optional_write_inv in Hw4 as [Hb4 ->].
  apply bind_Some in Hsave as ([n5 fp5] & Hw5 & Hsave).
  apply optional_write_inv in Hw5 as [Hb5 ->].
  apply bind_Some in Hsave as ([n6 fp6] & Hw6 & Hsave).
  apply write_data_to_file_inv in Hw6 as [Hb6 ->].
  remember (if name_len >? 0 then new_chars else []) as chars eqn:Hchars_def.
  remember (if bool_decide (Z.land index_flags FLAG_SIZE ≠ 0)
            then le_bytes 8 (uint64_t (e_size entry)) else []) as size_bytes eqn:Hsize_def.
  remember (if bool_decide (Z.land index_flags FLAG_MODIFICATION_TIME ≠ 0)
            then le_bytes 8 (uint64_t (e_mtime entry)) else []) as mtime_bytes eqn:Hmtime_def.
  injection Hsave as <- <- <-.
  split; [done|].
  exists ([name_offset] ++ [name_len] ++ chars ++ size_bytes ++ mtime_bytes).
  split. { rewrite Hb6, Hb5, Hb4, Hb3, Hb2, Hb1. by rewrite <- !app_assoc. }
  intros tail dentry.
  unfold load_entry_super_elements_from_memory.
  rewrite <- !app_assoc.
  rewrite (copy_bytes_app [name_offset]). cbn [mbind option_bind].
  rewrite (copy_bytes_app [name_len]). cbn [mbind option_bind].
  change (le_value [name_offset]) with (name_offset + 256 * 0).
  change (le_value [name_len]) with (name_len + 256 * 0).
  rewrite !Z.mul_0_r, !Z.add_0_r.
  rewrite Herase.
  assert ((if name_len >? 0
           then copy_bytes_and_return_new_src
                  (chars ++ size_bytes ++ mtime_bytes ++ tail) (Z.to_nat name_len)
           else Some ([], chars ++ size_bytes ++ mtime_bytes ++ tail))
          = Some (new_chars, size_bytes ++ mtime_bytes ++ tail)) as ->.
  { subst chars. destruct (Z.gtb_spec name_len 0) as [Hpos|Hzero].
    - rewrite <- Hchars. apply copy_bytes_app.
    - destruct new_chars; [done|simpl in Hchars; lia]. }
  cbn [mbind option_bind].
  assert (g_string_append (take (Z.to_nat name_offset) (e_name entry)) (new_chars ++ [0])
          = take (Z.to_nat (name_offset + name_len)) (e_name entry)) as ->.
  { unfold g_string_append. rewrite c_str_terminated by done. subst new_chars.
    rewrite Z2Nat.inj_add by lia. by rewrite take_take_drop. }
  assert (take (Z.to_nat (name_offset + name_len)) (e_name entry) = e_name entry
          ↔ Z.of_nat (length (e_name entry)) - name_offset <= 255) as Hiff.
  { split.
    - intros Hsame. apply (f_equal length) in Hsame. rewrite length_take in Hsame.
      assert (name_len = Z.of_nat (length (e_name entry)) - name_offset) as Heq by lia.
      lia.
    - intros Hfit. apply take_ge.
      assert (name_len = Z.of_nat (length (e_name entry)) - name_offset) as Heq.
      { subst name_len. unfold uint8_t. apply Z.mod_small. lia. }
      lia. }
  subst size_bytes mtime_bytes.
  destruct (bool_decide (Z.land index_flags FLAG_SIZE ≠ 0)) eqn:Hfs;
    destruct (bool_decide (Z.land index_flags FLAG_MODIFICATION_TIME ≠ 0)) eqn:Hfm;
    rewrite ?app_nil_l; cbn [mbind option_bind];
    repeat (rewrite (copy_bytes_app_8 (uint64_t _)); cbn [mbind option_bind]);
    (eexists; split; [reflexivity|]);
    cbn [e_name db_entry_set_name db_entry_set_size db_entry_set_mtime];
    by split.
Qed.

Local Abbreviation agrees := (entry_agrees FLAG_SIZE FLAG_MODIFICATION_TIME pool_entry).

Lemma folder_slot_in_range (D : list FsearchDatabaseEntry) (j : nat) :
  (j < length D)%nat → folder_slot D (Z.of_nat j) = Some j.
Proof.
  intros Hj. unfold folder_slot. rewrite bool_decide_eq_true_2 by lia.
  by rewrite Nat2Z.id.
Qed.

(** The folder block: what [save_folders] writes for the folders from a
    position on, [load_folders] reads back into the slots from that
    position on, leaving the earlier slots alone. *)
Lemma save_load_folders_loop (index_flags : Z) (h1 : Heap) (folders : list nat) :
  folders_indexed h1 folders →
  Z.of_nat (length folders) < 2 ^ 32 →
  ∀ rest done fp prev bw n fp',
    folders = done ++ rest →
    names_fit prev (entry_names h1 rest) →
    save_folders_loop FLAG_SIZE FLAG_MODIFICATION_TIME fp index_flags h1 rest prev bw
    = Some (n, fp') →
    ∃ block,
      file_bytes fp' = file_bytes fp ++ block
      ∧ n = bw + Z.of_nat (length block)
      ∧ ∀ tail D,
          length D = length folders →
          (∀ i, (length done ≤ i < length folders)%nat →
             ∃ d, D !! i = Some d ∧ e_idx d = Z.of_nat i
                  ∧ e_type d = DATABASE_ENTRY_TYPE_FOLDER
                  ∧ e_size d = e_size pool_entry ∧ e_mtime d = e_mtime pool_entry) →
          ∃ D',
            load_folders_loop FLAG_SIZE FLAG_MODIFICATION_TIME (block ++ tail) index_flags D
              (length done) (length rest) prev = Some (tail, D')
            ∧ length D' = length folders
            ∧ (∀ i, (i < length done)%nat → D' !! i = D !! i)
            ∧ (∀ i p e,
                 (length done ≤ i)%nat → folders !! i = Some p → h1 !! p = Some e →
                 ∃ d', D' !! i = Some d' ∧ agrees index_flags folders e d').
Proof.
  intros Hindexed Hcount.
  induction rest as [|p rest IH]; intros done fp prev bw n fp' Hsplit Hfit Hsave.
  { simpl in Hsave. injection Hsave as <- <-. exists []. rewrite app_nil_r.
    split; [done|]. split; [simpl; lia|].
    intros tail D HD Hslots. exists D. simpl. split; [done|]. split; [done|].
    split; [done|]. intros i q e Hi Hq _.
    pose proof (lookup_lt_Some _ _ _ Hq) as Hlt. rewrite Hsplit, app_nil_r in Hlt. lia. }
  assert (folders !! length done = Some p) as Hp
    by (rewrite Hsplit; apply list_lookup_middle; done).
  destruct (Hindexed _ _ Hp) as (e & He & Hidx & Htype & Hfields & Hparent).
  unfold entry_names in Hfit. rewrite fmap_cons, He in Hfit.
  destruct Hfit as [Hfit Hfit_rest]. cbn [from_option] in Hfit, Hfit_rest.
  fold (entry_names h1 rest) in Hfit_rest.
  cbn [save_folders_loop] in Hsave.
  rewrite He in Hsave. cbn [mbind option_bind] in Hsave.
  apply bind_Some in Hsave as ([n1 fp1] & Hw1 & Hsave).
  apply write_data_to_file_inv in Hw1 as [Hb1 ->].
  apply bind_Some in Hsave as (parent_idx & Hpidx & Hsave).
  apply bind_Some in Hsave as ([[n2 prev2] fp2] & Hsuper & Hsave).
  destruct (save_load_super_elements _ _ _ _ _ _ _ _ Hfields Hfit Hsuper)
    as (super & Hb2 & -> & -> & Hload).
  assert (folders = (done ++ [p]) ++ rest) as Hsplit' by (by rewrite <- app_assoc).
  destruct (IH (done ++ [p]) _ _ _ _ _ Hsplit' Hfit_rest Hsave)
    as (block & Hb3 & -> & Hrest).
  (* the parent idx written *)
  assert (0 <= parent_idx < 2 ^ 32
          ∧ match e_parent e with
            | None => parent_idx = Z.of_nat (length done)
            | Some parent => ∃ j, folders !! j = Some parent ∧ j ≠ length done
                                  ∧ parent_idx = Z.of_nat j
            end) as [Hrange Hpidx'].
  { destruct (e_parent e) as [parent|].
    - destruct Hparent as (j & Hj & Hne).
      destruct (Hindexed _ _ Hj) as (ep & Hep & Hjidx & _).
      unfold db_entry_get_idx in Hpidx. rewrite Hep in Hpidx. simpl in Hpidx.
      injection Hpidx as <-. pose proof (lookup_lt_Some _ _ _ Hj).
      split; [lia|]. exists j. rewrite Hjidx. eauto.
    - injection Hpidx as <-. pose proof (lookup_lt_Some _ _ _ Hp). split; [lia|done]. }
  exists (le_bytes 2 (uint16_t (e_db_index e)) ++ super ++ le_bytes 4 parent_idx ++ block).
  split. { rewrite Hb3, Hb2, Hb1. by rewrite <- !app_assoc. }
  split. { rewrite !length_app, !le_bytes_length. lia. }
  intros tail D HD Hslots.
  destruct (Hslots (length done)) as (d & Hd & Hdidx & Hdtype & Hdsize & Hdmtime).
  { pose proof (lookup_lt_Some _ _ _ Hp). lia. }
  change (length (p :: rest)) with (S (length rest)).
  cbn [load_folders_loop]. rewrite Hd. cbn [mbind option_bind].
  rewrite <- !app_assoc. rewrite copy_bytes_app_2. cbn [mbind option_bind].
  destruct (Hload (le_bytes 4 parent_idx ++ block ++ tail) d)
    as (loaded & -> & Hlname & Hltype & Hlidx & Hlsize & Hlmtime).
  cbn [mbind option_bind].
  rewrite copy_bytes_app_4. cbn [mbind option_bind].
  rewrite le_value_le_bytes_4 by done.
  set (entry := if bool_decide (parent_idx ≠ e_idx loaded)
                then db_entry_set_parent (folder_slot D parent_idx) loaded
                else db_entry_set_parent None loaded).
  destruct (Hrest tail (<[length done := entry]> D)) as (D' & Hloop & HD' & Hbefore & Hafter).
  { by rewrite length_insert. }
  { intros i Hi. rewrite length_app in Hi. simpl in Hi.
    rewrite list_lookup_insert_ne by lia. apply Hslots. lia. }
  exists D'. rewrite length_app in Hloop. simpl in Hloop.
  replace (length done + 1)%nat with (S (length done)) in Hloop by lia.
  split; [exact Hloop|]. split; [done|]. split.
  { intros i Hi. rewrite Hbefore by (rewrite length_app; simpl; lia).
    apply list_lookup_insert_ne. lia. }
  intros i q eq Hi Hq Heq.
  destruct (decide (i = length done)) as [->|Hne].
  - rewrite Hp in Hq. injection Hq as <-. rewrite He in Heq. injection Heq as <-.
    exists entry. split.
    { rewrite Hbefore by (rewrite length_app; simpl; lia).
      apply list_lookup_insert_eq. pose proof (lookup_lt_Some _ _ _ Hd). done. }
    assert (e_name entry = e_name loaded ∧ e_type entry = e_type loaded
            ∧ e_size entry = e_size loaded ∧ e_mtime entry = e_mtime loaded)
      as (Hn & Ht & Hs & Hm) by (subst entry; by case_bool_decide).
    unfold entry_agrees. rewrite Hn, Ht, Hs, Hm, Hlsize, Hlmtime, Hdsize, Hdmtime.
    split; [done|]. split; [congruence|]. split; [done|]. split; [done|].
    unfold parent_agrees. subst entry. rewrite Hlidx, Hdidx.
    destruct (e_parent e) as [parent|].
    + destruct Hpidx' as (j & Hj & Hjne & ->). exists j. split; [done|].
      rewrite bool_decide_eq_true_2 by lia. simpl.
      apply folder_slot_in_range. pose proof (lookup_lt_Some _ _ _ Hj). lia.
    + subst parent_idx. by rewrite bool_decide_eq_false_2 by (intros ?; done).
  - apply (Hafter i q eq); [rewrite length_app; simpl; lia|done|done].
Qed.

Lemma up_to_idx_set_idx (e e' : FsearchDatabaseEntry) (i : Z) :
  up_to_idx e e' → up_to_idx e (db_entry_set_idx i e').
Proof. by intros (? & ? & ? & ? & ?). Qed.

Lemma heap_up_to_idx_alter (h h' : Heap) (p : nat) (i : Z) :
  heap_up_to_idx h h' → heap_up_to_idx h (alter (db_entry_set_idx i) p h').
Proof.
  intros Hrel q e Hq. destruct (Hrel q e Hq) as (e' & He' & Hsame).
  destruct (decide (p = q)) as [->|Hne].
  - exists (db_entry_set_idx i e'). rewrite lookup_alter_eq, He'. simpl.
    split; [done|]. by apply up_to_idx_set_idx.
  - exists e'. by rewrite lookup_alter_ne.
Qed.

(** The file block: what [save_files] writes for the files from a position
    on, [load_files] reads back and appends to the files loaded so far. *)
Lemma save_load_files_loop (index_flags : Z) (h0 : Heap) (folders files : list nat)
    (loaded_folders : list FsearchDatabaseEntry) :
  length loaded_folders = length folders →
  Z.of_nat (length folders) < 2 ^ 32 →
  Z.of_nat (length files) < 2 ^ 32 →
  (∀ p, p ∈ files → file_entry_ok h0 folders p) →
  ∀ rest done fp h prev bw n fp' h',
    files = done ++ rest →
    names_fit prev (entry_names h0 rest) →
    heap_up_to_idx h0 h →
    folder_idx_is_position h folders →
    save_files_loop FLAG_SIZE FLAG_MODIFICATION_TIME fp index_flags h rest
      (Z.of_nat (length done)) prev bw = Some (n, fp', h') →
    ∃ block,
      file_bytes fp' = file_bytes fp ++ block
      ∧ n = bw + Z.of_nat (length block)
      ∧ heap_up_to_idx h0 h'
      ∧ ∀ tail L,
          length L = length done →
          ∃ L',
            load_files_loop FLAG_SIZE FLAG_MODIFICATION_TIME pool_entry (block ++ tail)
              index_flags loaded_folders L (length done) (length rest) prev = Some (tail, L')
            ∧ length L' = length files
            ∧ (∀ i, (i < length done)%nat → L' !! i = L !! i)
            ∧ (∀ i p e, (length done ≤ i)%nat → files !! i = Some p → h0 !! p = Some e →
                 ∃ d', L' !! i = Some d' ∧ agrees index_flags folders e d').
Proof.
  intros Hloaded Hcount Hfcount Hfiles.
  induction rest as [|p rest IH];
    intros done fp h prev bw n fp' h' Hsplit Hfit Hrel Hpos Hsave.
  { simpl in Hsave. injection Hsave as <- <- <-. exists []. rewrite app_nil_r.
    split; [done|]. split; [simpl; lia|]. split; [done|].
    intros tail L HL. exists L. simpl. split; [done|].
    split; [by rewrite Hsplit, app_nil_r|]. split; [done|].
    intros i q e Hi Hq _.
    pose proof (lookup_lt_Some _ _ _ Hq) as Hlt. rewrite Hsplit, app_nil_r in Hlt. lia. }
  assert (files !! length done = Some p) as Hp
    by (rewrite Hsplit; apply list_lookup_middle; done).
  destruct (Hfiles p) as (Hnotfolder & e0 & He0 & Htype & Hfields & parent & j & Hparent & Hj).
  { by eapply list_elem_of_lookup_2. }
  destruct (Hrel p e0 He0) as (ek & Hek & Hktype & Hkname & Hksize & Hkmtime & Hkparent).
  unfold entry_names in Hfit. rewrite fmap_cons, He0 in Hfit.
  destruct Hfit as [Hfit Hfit_rest]. cbn [from_option] in Hfit, Hfit_rest.
  fold (entry_names h0 rest) in Hfit_rest. rewrite <- Hkname in Hfit, Hfit_rest.
  cbn [save_files_loop] in Hsave.
  rewrite Hek in Hsave. cbn [mbind option_bind] in Hsave.
  rewrite lookup_alter_eq, Hek in Hsave.
  cbn [fmap option_fmap option_map mbind option_bind] in Hsave.
  set (entry := db_entry_set_idx (Z.of_nat (length done)) ek) in *.
  assert (e_parent entry = Some parent) as Hentry_parent by (simpl; congruence).
  rewrite Hentry_parent in Hsave. cbn [mbind option_bind] in Hsave.
  assert (parent ≠ p) as Hpne.
  { intros ->. apply Hnotfolder. by eapply list_elem_of_lookup_2. }
  assert (db_entry_get_idx (alter (db_entry_set_idx (Z.of_nat (length done))) p h) parent
          = Some (Z.of_nat j)) as Hpidx.
  { unfold db_entry_get_idx. rewrite lookup_alter_ne by done. apply (Hpos j parent Hj). }
  rewrite Hpidx in Hsave. cbn [mbind option_bind] in Hsave.
  apply bind_Some in Hsave as ([[n2 prev2] fp2] & Hsuper & Hsave).
  assert (entry_fields_ok entry) as Hentry_fields.
  { destruct Hfields as (? & ? & ?). unfold entry_fields_ok. simpl.
    rewrite Hkname, Hksize, Hkmtime. done. }
  destruct (save_load_super_elements _ _ _ _ _ _ _ _ Hentry_fields Hfit Hsuper)
    as (super & Hb2 & -> & -> & Hload).
  assert (files = (done ++ [p]) ++ rest) as Hsplit' by (by rewrite <- app_assoc).
  assert (Z.of_nat (length done) + 1 = Z.of_nat (length (done ++ [p]))) as Hnext
    by (rewrite length_app; simpl; lia).
  rewrite Hnext in Hsave.
  destruct (IH (done ++ [p]) _ _ _ _ _ _ _ Hsplit' Hfit_rest
              (heap_up_to_idx_alter _ _ p _ Hrel)
              ltac:(intros j' q Hq; unfold db_entry_get_idx;
                    rewrite lookup_alter_ne
                      by (intros ->; apply Hnotfolder; by eapply list_elem_of_lookup_2);
                    apply (Hpos j' q Hq))
              Hsave)
    as (block & Hb3 & -> & Hrel' & Hrest).
  exists (super ++ le_bytes 4 (Z.of_nat j) ++ block).
  split. { rewrite Hb3, Hb2. by rewrite <- !app_assoc. }
  split. { rewrite !length_app, !le_bytes_length. lia. }
  split; [done|].
  intros tail L HL.
  change (length (p :: rest)) with (S (length rest)).
  cbn [load_files_loop]. rewrite <- !app_assoc.
  destruct (Hload (le_bytes 4 (Z.of_nat j) ++ block ++ tail)
              (db_entry_set_idx (Z.of_nat (length done))
                 (db_entry_set_type DATABASE_ENTRY_TYPE_FILE pool_entry)))
    as (loaded & -> & Hlname & Hltype & Hlidx & Hlsize & Hlmtime).
  cbn [mbind option_bind].
  rewrite copy_bytes_app_4. cbn [mbind option_bind].
  pose proof (lookup_lt_Some _ _ _ Hj) as Hjlt.
  rewrite le_value_le_bytes_4 by lia.
  rewrite folder_slot_in_range by lia.
  destruct (Hrest tail (L ++ [db_entry_set_parent (Some j) loaded]))
    as (L' & Hloop & HL' & Hbefore & Hafter).
  { rewrite !length_app. simpl. lia. }
  exists L'. rewrite length_app in Hloop. simpl in Hloop.
  replace (length done + 1)%nat with (S (length done)) in Hloop by lia.
  split; [exact Hloop|]. split; [done|]. split.
  { intros i Hi. rewrite Hbefore by (rewrite length_app; simpl; lia).
    apply lookup_app_l. lia. }
  intros i q eq Hi Hq Heq.
  destruct (decide (i = length done)) as [->|Hne].
  - rewrite Hp in Hq. injection Hq as <-. rewrite He0 in Heq. injection Heq as <-.
    exists (db_entry_set_parent (Some j) loaded). split.
    { rewrite Hbefore by (rewrite length_app; simpl; lia).
      rewrite <- HL. apply list_lookup_middle. done. }
    unfold entry_agrees. simpl.
    split; [by rewrite Hlname; simpl|]. split; [by rewrite Hltype; simpl|].
    split; [rewrite Hlsize; simpl; by rewrite Hksize|].
    split; [rewrite Hlmtime; simpl; by rewrite Hkmtime|].
    unfold parent_agrees. rewrite Hparent. eauto.
  - apply (Hafter i q eq); [rewrite length_app; simpl; lia|done|done].
Qed.

Lemma update_folder_indices_from_lookup (folders : list nat) (h : Heap) (i0 : Z) :
  NoDup folders →
  (∀ k p, folders !! k = Some p →
     update_folder_indices_from h folders i0 !! p
     = db_entry_set_idx (i0 + Z.of_nat k) <$> h !! p)
  ∧ (∀ p, p ∉ folders → update_folder_indices_from h folders i0 !! p = h !! p).
Proof.
  intros Hnodup. revert h i0.
  induction folders as [|p0 folders IH]; intros h i0; simpl.
  { split; [by intros k p; rewrite lookup_nil|done]. }
  apply NoDup_cons in Hnodup as [Hfresh Hnodup].
  destruct (IH Hnodup (alter (db_entry_set_idx i0) p0 h) (i0 + 1)) as [Hin Hout].
  split.
  - intros [|k] p Hk; simpl in Hk.
    + injection Hk as <-. rewrite Hout by done.
      rewrite lookup_alter_eq. by rewrite Z.add_0_r.
    + rewrite (Hin k p Hk).
      assert (p0 ≠ p) by (intros ->; apply Hfresh; by eapply list_elem_of_lookup_2).
      rewrite lookup_alter_ne by done.
      by replace (i0 + 1 + Z.of_nat k) with (i0 + Z.of_nat (S k)) by lia.
  - intros p Hp. apply not_elem_of_cons in Hp as [Hne Hp].
    rewrite (Hout p Hp). by apply lookup_alter_ne.
Qed.

(** What [update_folder_indices] establishes on a well-formed store. *)
Lemma update_folder_indices_wf (h : Heap) (folders files : list nat) :
  store_entries_wf h folders files →
  let h1 := update_folder_indices h folders in
  folders_indexed h1 folders
  ∧ heap_up_to_idx h h1
  ∧ folder_idx_is_position h1 folders
  ∧ (∀ p, p ∈ files → file_entry_ok h folders p).
Proof.
  intros [Hnodup Hcount Hfcount Hfolder Hfile] h1.
  destruct (update_folder_indices_from_lookup folders h 0 Hnodup) as [Hin Hout].
  fold (update_folder_indices h folders) in Hin, Hout. fold h1 in Hin, Hout.
  assert (folders_indexed h1 folders) as Hindexed.
  { intros i p Hi.
    destruct (Hfolder p) as (e & He & Htype & Hfields & Hparent);
      [by eapply list_elem_of_lookup_2|].
    exists (db_entry_set_idx (Z.of_nat i) e).
    split; [by rewrite (Hin i p Hi), He|].
    pose proof (lookup_lt_Some _ _ _ Hi).
    split; [simpl; apply uint32_t_small; lia|].
    split; [done|]. split; [done|]. simpl.
    destruct (e_parent e) as [parent|]; [|done].
    destruct Hparent as [Hpin Hpne].
    apply list_elem_of_lookup_1 in Hpin as [j Hj]. exists j. split; [done|].
    intros ->. congruence. }
  split; [done|]. split; [|split].
  - intros p e He. destruct (decide (p ∈ folders)) as [Hp|Hp].
    + apply list_elem_of_lookup_1 in Hp as [i Hi].
      exists (db_entry_set_idx (Z.of_nat i) e). by rewrite (Hin i p Hi), He.
    + exists e. by rewrite (Hout p Hp).
  - intros j parent Hj. destruct (Hindexed j parent Hj) as (e & He & Hidx & _).
    unfold db_entry_get_idx. by rewrite He, <- Hidx.
  - intros p Hp.
    destruct (Hfile p Hp) as (e & He & Htype & Hfields & parent & Hparent & Hpin).
    split.
    + intros Hpf. destruct (Hfolder p Hpf) as (e' & He' & Htype' & _). congruence.
    + apply list_elem_of_lookup_1 in Hpin as [j Hj]. exists e. eauto 10.
Qed.

Lemma agrees_up_to_idx (index_flags : Z) (folders : list nat)
    (e e' d : FsearchDatabaseEntry) :
  up_to_idx e e' → agrees index_flags folders e' d → agrees index_flags folders e d.
Proof.
  intros (Ht & Hn & Hs & Hm & Hp) (? & ? & ? & ? & ?). unfold entry_agrees.
  rewrite <- Ht, <- Hn, <- Hs, <- Hm, <- Hp. done.
Qed.

Lemma preallocated_folders_lookup (num_folders i : nat) :
  (i < num_folders)%nat → Z.of_nat num_folders < 2 ^ 32 →
  ∃ d, preallocated_folders pool_entry num_folders !! i = Some d
       ∧ e_idx d = Z.of_nat i ∧ e_type d = DATABASE_ENTRY_TYPE_FOLDER
       ∧ e_size d = e_size pool_entry ∧ e_mtime d = e_mtime pool_entry.
Proof.
  intros Hi Hcount. unfold preallocated_folders.
  eexists. rewrite list_lookup_fmap.
  rewrite (proj2 (lookup_seq 0 num_folders i i)) by (split; [done|lia]).
  simpl. split; [done|]. split; [|done]. apply uint32_t_small. lia.
Qed.

(** The names behind an array of pointers are those of a heap that holds
    the same entries up to their idx. *)
Lemma entry_names_up_to_idx (h h' : Heap) (entries : list nat) :
  heap_up_to_idx h h' → (∀ p, p ∈ entries → is_Some (h !! p)) →
  entry_names h' entries = entry_names h entries.
Proof.
  intros Hrel Hentries. unfold entry_names. apply list_fmap_ext.
  intros i p Hp. destruct (Hentries p) as [e He]; [by eapply list_elem_of_lookup_2|].
  destruct (Hrel p e He) as (e' & He' & _ & Hname & _).
  by rewrite He, He'.
Qed.

(** C2 (as amended).  For a well-formed store in which every name has at
    most 255 bytes after the prefix it shares with the name before it in
    its array, a save of the folder and file blocks that does not fail can
    be loaded back, and position by position the loaded entries have the
    names, types and parent links of the saved ones; they have the size of
    the saved entry when the size flag is set and the size of the freshly
    allocated entry otherwise, and likewise the modification time. *)
Theorem entry_blocks_roundtrip (index_flags : Z) (h h' : Heap) (folders files : list nat)
    (fp fp' : FILE) (folder_block_size file_block_size : Z) (rest : list Z) :
  store_entries_wf h folders files →
  names_fit [] (entry_names h folders) →
  names_fit [] (entry_names h files) →
  save_entry_blocks FLAG_SIZE FLAG_MODIFICATION_TIME fp index_flags h folders files
  = Some (folder_block_size, file_block_size, fp', h') →
  ∃ blocks loaded_folders loaded_files,
    file_bytes fp' = file_bytes fp ++ blocks
    ∧ load_entry_blocks FLAG_SIZE FLAG_MODIFICATION_TIME pool_entry (blocks ++ rest)
        index_flags (length folders) (length files)
        (Z.to_nat folder_block_size) (Z.to_nat file_block_size)
      = Some (rest, loaded_folders, loaded_files)
    ∧ Forall2 (λ p d, ∃ e, h !! p = Some e ∧ agrees index_flags folders e d)
        folders loaded_folders
    ∧ Forall2 (λ p d, ∃ e, h !! p = Some e ∧ agrees index_flags folders e d)
        files loaded_files.
Proof.
  intros Hwf Hfolder_names Hfile_names Hsave.
  destruct (update_folder_indices_wf h folders files Hwf)
    as (Hindexed & Hrel & Hpos & Hfiles).
  pose proof (wf_num_folders _ _ _ Hwf) as Hcount.
  pose proof (wf_num_files _ _ _ Hwf) as Hfcount.
  unfold save_entry_blocks in Hsave. cbv zeta in Hsave.
  set (h1 := update_folder_indices h folders) in *.
  rewrite <- (entry_names_up_to_idx h h1 folders Hrel) in Hfolder_names
    by (intros p Hp; destruct (wf_folder _ _ _ Hwf p Hp) as (e & He & _); eauto).
  apply bind_Some in Hsave as ([n1 fp1] & Hfolders & Hsave).
  apply bind_Some in Hsave as ([[n2 fp2] h2] & Hfilesave & Hsave).
  injection Hsave as <- <- <- <-.
  (* the folder block *)
  destruct (save_load_folders_loop index_flags h1 folders Hindexed Hcount
              folders [] fp [] 0 n1 fp1 eq_refl Hfolder_names Hfolders)
    as (fblock & Hb1 & -> & Hfload).
  destruct (Hfload [0] (preallocated_folders pool_entry (length folders)))
    as (D & HloadD & HD & _ & HDagree).
  { unfold preallocated_folders. by rewrite length_fmap, length_seq. }
  { intros i Hi. apply preallocated_folders_lookup; [lia|done]. }
  (* the file block *)
  destruct (save_load_files_loop index_flags h folders files D HD Hcount Hfcount Hfiles
              files [] fp1 h1 [] 0 n2 fp2 h2 eq_refl Hfile_names Hrel Hpos Hfilesave)
    as (flblock & Hb2 & -> & _ & Hflload).
  destruct (Hflload [0] []) as (L & HloadL & HL & _ & HLagree); [done|].
  exists (fblock ++ flblock), D, L.
  split. { rewrite Hb2, Hb1. by rewrite <- app_assoc. }
  split.
  { unfold load_entry_blocks, load_folders. cbv zeta.
    replace (Z.to_nat (0 + Z.of_nat (length fblock))) with (length fblock) by lia.
    replace (Z.to_nat (0 + Z.of_nat (length flblock))) with (length flblock) by lia.
    rewrite <- app_assoc.
    rewrite bool_decide_eq_false_2 by (rewrite length_app; lia).
    rewrite take_app_length, drop_app_length.
    simpl in HloadD. rewrite HloadD. cbn [mbind option_bind].
    rewrite bool_decide_eq_false_2 by (rewrite length_app; simpl; lia).
    cbn [mbind option_bind]. unfold load_files.
    rewrite bool_decide_eq_false_2 by (rewrite length_app; lia).
    rewrite take_app_length, drop_app_length.
    simpl in HloadL. rewrite HloadL. cbn [mbind option_bind].
    rewrite bool_decide_eq_false_2 by (rewrite length_app; simpl; lia).
    done. }
  split.
  - apply Forall2_same_length_lookup. split; [done|].
    intros i p d Hp Hd.
    destruct (wf_folder _ _ _ Hwf p) as (e & He & _); [by eapply list_elem_of_lookup_2|].
    exists e. split; [done|].
    destruct (Hrel p e He) as (e1 & He1 & Hsame).
    destruct (HDagree i p e1) as (d' & Hd' & Hagree); [simpl; lia|done|done|].
    rewrite Hd in Hd'. injection Hd' as <-.
    by eapply agrees_up_to_idx.
  - apply Forall2_same_length_lookup. split; [done|].
    intros i p d Hp Hd.
    destruct (wf_file _ _ _ Hwf p) as (e & He & _); [by eapply list_elem_of_lookup_2|].
    exists e. split; [done|].
    destruct (HLagree i p e) as (d' & Hd' & Hagree); [simpl; lia|done|done|].
    rewrite Hd in Hd'. by injection Hd' as <-.
Qed.

End CodecFacts.

(* --------------------------------------------------------------------- *)
(** ** Snapshot codec: the sorted-arrays block *)
(* --------------------------------------------------------------------- *)

Lemma read_elements_from_file_length (size nmemb : nat) (stream buf rest : list Z) :
  read_elements_from_file size nmemb stream = Some (buf, rest) →
  length stream = (size * nmemb + length rest)%nat.
Proof.
  unfold read_elements_from_file. case_bool_decide; [|done].
  intros [= <- <-]. rewrite length_drop. lia.
Qed.

Lemma read_element_from_file_length (size : nat) (stream buf rest : list Z) :
  read_element_from_file size stream = Some (buf, rest) →
  length stream = (size + length rest)%nat.
Proof.
  unfold read_element_from_file. case_bool_decide as Hlen; [|done].
  intros [= <- <-]. rewrite length_drop. lia.
Qed.

Lemma load_sorted_entries_length (fp rest : list Z) (num : nat) (dest : list nat) :
  load_sorted_entries fp num = Some (dest, rest) →
  length fp = (4 * num + length rest)%nat.
Proof.
  unfold load_sorted_entries. intros Hload.
  apply bind_Some in Hload as ([buf fp1] & Hread & Hload).
  apply bind_Some in Hload as (dest' & _ & Hload). injection Hload as <- <-.
  by apply read_elements_from_file_length in Hread.
Qed.

(** A loader that accepts [todo] announced arrays has read that many
    arrays. *)
Lemma load_sorted_arrays_loop_length (todo : nat) (fp : list Z) (num_folders num_files : nat)
    (sorted_folders sorted_files : gmap FsearchDatabaseIndexProperty (list nat)) :
  is_Some (load_sorted_arrays_loop fp num_folders num_files todo sorted_folders sorted_files) →
  (todo * (4 + 4 * num_folders + 4 * num_files) ≤ length fp)%nat.
Proof.
  revert fp sorted_folders sorted_files.
  induction todo as [|todo IH]; intros fp sorted_folders sorted_files [r Hload]; [simpl; lia|].
  cbn [load_sorted_arrays_loop] in Hload.
  apply bind_Some in Hload as ([b fp1] & Hid & Hload).
  apply read_element_from_file_length in Hid.
  case_bool_decide; [done|].
  apply bind_Some in Hload as (id & _ & Hload).
  apply bind_Some in Hload as ([folders fp2] & Hfolders & Hload).
  apply bind_Some in Hload as ([files fp3] & Hfiles & Hload).
  apply load_sorted_entries_length in Hfolders, Hfiles.
  specialize (IH fp3 _ _ (ex_intro _ r Hload)). lia.
Qed.

Lemma save_sorted_entries_inv (fp fp' : FILE) (h : Heap) (entries : list nat)
    (num_entries : nat) (n : Z) :
  save_sorted_entries fp h entries num_entries = Some (n, fp') →
  ∃ data, file_bytes fp' = file_bytes fp ++ data ∧ length data = (4 * num_entries)%nat.
Proof.
  unfold save_sorted_entries. case_bool_decide as Hnum.
  - intros [= <- <-]. exists []. rewrite app_nil_r. split; [done|simpl; lia].
  - intros Hsave. apply bind_Some in Hsave as (indexes & Hbuild & Hwrite).
    apply write_data_to_file_inv in Hwrite as [Hbytes _].
    eexists. split; [exact Hbytes|].
    unfold build_sorted_entry_index_list in Hbuild.
    apply length_mapM in Hbuild. rewrite length_seq in Hbuild.
    rewrite Hbuild. clear. induction indexes as [|i indexes IH]; [done|].
    cbn [fmap list_fmap concat length]. rewrite length_app, le_bytes_length.
    change (list_fmap Z (list Z) (le_bytes 4) indexes) with (le_bytes 4 <$> indexes).
    rewrite IH. lia.
Qed.

(** [save_sorted_arrays] writes one array for each sort id past the name
    order that the store maintains for both types. *)
Lemma save_sorted_array_loop_inv (h : Heap) (store : FsearchDatabaseIndexStore)
    (num_files num_folders : nat) (ids : list FsearchDatabaseIndexProperty)
    (fp fp' : FILE) (written n : Z) :
  foldl (save_sorted_array h store num_files num_folders) (Some (written, fp)) ids
  = Some (n, fp') →
  ∃ data,
    file_bytes fp' = file_bytes fp ++ data
    ∧ length data
      = (length (filter (λ id, bool_decide (is_Some (index_store_get_folders store id))
                               && bool_decide (is_Some (index_store_get_files store id))
                               = true) ids)
         * (4 + 4 * num_folders + 4 * num_files))%nat.
Proof.
  revert fp written.
  induction ids as [|id ids IH]; intros fp written Hsave.
  { injection Hsave as <- <-. exists []. by rewrite app_nil_r. }
  cbn [foldl] in Hsave. rewrite filter_cons.
  destruct (save_sorted_array h store num_files num_folders (Some (written, fp)) id)
    as [[written1 fp1]|] eqn:Hone.
  2:{ exfalso. clear -Hsave. induction ids as [|id' ids IH]; [done|]. by apply IH. }
  destruct (IH _ _ Hsave) as (data & Hdata & Hlen).
  unfold save_sorted_array in Hone. cbn [mbind option_bind] in Hone.
  destruct (index_store_get_folders store id) as [folder_container|];
    [destruct (index_store_get_files store id) as [file_container|]|].
  - apply bind_Some in Hone as ([n1 fp2] & Hw1 & Hone).
    apply write_data_to_file_inv in Hw1 as [Hb1 _].
    apply bind_Some in Hone as ([n2 fp3] & Hw2 & Hone).
    apply save_sorted_entries_inv in Hw2 as (d2 & Hb2 & Hl2).
    apply bind_Some in Hone as ([n3 fp4] & Hw3 & Hone).
    apply save_sorted_entries_inv in Hw3 as (d3 & Hb3 & Hl3).
    injection Hone as <- <-.
    exists (le_bytes 4 (Z.of_nat (property_code id)) ++ d2 ++ d3 ++ data).
    split. { rewrite Hdata, Hb3, Hb2, Hb1. by rewrite <- !app_assoc. }
    rewrite decide_True by (rewrite !bool_decide_eq_true_2; eauto).
    rewrite !length_app, le_bytes_length, Hl2, Hl3, Hlen. simpl. lia.
  - injection Hone as <- <-. exists data. split; [done|].
    rewrite decide_False; [done|].
    rewrite (bool_decide_eq_false_2 (is_Some None)) by (by intros [? ?]).
    by rewrite andb_false_r.
  - injection Hone as <- <-. exists data. split; [done|].
    rewrite decide_False; [done|].
    rewrite (bool_decide_eq_false_2 (is_Some None)) by (by intros [? ?]).
    done.
Qed.

(** The sorted-arrays block [save_sorted_arrays] writes for a sorted store
    that has its name containers announces one array more than it holds
    ([index_store_get_num_fast_sort_indices] counts the name order, the loop
    starts at id 1), and [load_sorted_arrays] rejects it. *)
Theorem saved_sorted_arrays_rejected (fp fp' : FILE) (h : Heap)
    (store : FsearchDatabaseIndexStore) (num_files num_folders : nat) (n : Z) :
  store_is_sorted store = true →
  is_Some (store_folder_container store !! DATABASE_INDEX_PROPERTY_NAME) →
  is_Some (store_file_container store !! DATABASE_INDEX_PROPERTY_NAME) →
  save_sorted_arrays fp h store num_files num_folders = Some (n, fp') →
  ∃ block,
    file_bytes fp' = file_bytes fp ++ block
    ∧ load_sorted_arrays block num_folders num_files = None.
Proof.
  intros Hsorted Hfolder Hfile Hsave.
  unfold save_sorted_arrays in Hsave. cbv zeta in Hsave.
  set (both := λ id, bool_decide (is_Some (store_folder_container store !! id))
                     && bool_decide (is_Some (store_file_container store !! id))) in *.
  assert (index_store_get_num_fast_sort_indices store
          = S (length (filter (λ id, both id = true) sorted_array_ids))) as Hcount.
  { unfold index_store_get_num_fast_sort_indices. fold both.
    rewrite (foldl_count_filter both). unfold index_properties, sorted_array_ids.
    rewrite filter_cons. rewrite decide_True; [done|].
    unfold both. by rewrite !bool_decide_eq_true_2. }
  rewrite Hcount in Hsave.
  set (k := length (filter (λ id, both id = true) sorted_array_ids)) in *.
  assert (k ≤ 4)%nat as Hk.
  { subst k. etransitivity; [apply length_filter|]. done. }
  apply bind_Some in Hsave as ([n0 fp0] & Hw0 & Hsave).
  apply write_data_to_file_inv in Hw0 as [Hb0 _].
  destruct (Z.ltb_spec (Z.of_nat (S k)) 1) as [?|_]; [lia|].
  apply save_sorted_array_loop_inv in Hsave as (data & Hdata & Hlen).
  assert (length data = (k * (4 + 4 * num_folders + 4 * num_files))%nat) as Hlen'.
  { rewrite Hlen. subst k. do 2 f_equal. apply list_filter_iff. intros id.
    unfold both, index_store_get_folders, index_store_get_files. by rewrite Hsorted. }
  exists (le_bytes 4 (Z.of_nat (S k)) ++ data).
  split. { rewrite Hdata, Hb0. by rewrite <- app_assoc. }
  unfold load_sorted_arrays.
  rewrite <- (le_bytes_length 4 (Z.of_nat (S k))) at 1.
  rewrite (read_element_from_file_app (le_bytes 4 (Z.of_nat (S k)))) by done.
  cbn [mbind option_bind]. rewrite le_value_le_bytes_4 by lia. rewrite Nat2Z.id.
  match goal with |- ?load = None => destruct load as [r|] eqn:Hload; [|done] end.
  exfalso.
  pose proof (load_sorted_arrays_loop_length (S k) data num_folders num_files ∅ ∅
                (ex_intro _ r Hload)) as Hneeds.
  rewrite Hlen' in Hneeds. lia.
Qed.

(* --------------------------------------------------------------------- *)
(** ** Snapshot codec: the whole file *)
(* --------------------------------------------------------------------- *)

Lemma save_header_inv (fp fp' : FILE) (n : Z) :
  save_header fp = Some (n, fp') →
  file_bytes fp' = file_bytes fp ++ DATABASE_MAGIC_NUMBER
                   ++ [DATABASE_MAJOR_VERSION; DATABASE_MINOR_VERSION]
  ∧ n = 6.
Proof.
  unfold save_header. intros Hsave.
  apply bind_Some in Hsave as ([n1 fp1] & Hw1 & Hsave).
  apply write_data_to_file_inv in Hw1 as [Hb1 ->].
  apply bind_Some in Hsave as ([n2 fp2] & Hw2 & Hsave).
  apply write_data_to_file_inv in Hw2 as [Hb2 ->].
  apply bind_Some in Hsave as ([n3 fp3] & Hw3 & Hsave).
  apply write_data_to_file_inv in Hw3 as [Hb3 ->].
  injection Hsave as <- <-.
  rewrite Hb3, Hb2, Hb1. rewrite <- !app_assoc. done.
Qed.

(** When [save_header] writes the header without a failed write, it has
    appended six bytes, and [load_header] accepts every stream that starts
    with them and leaves the rest of the stream to be read. *)
Theorem save_header_accepted (fp fp' : FILE) (n : Z) :
  save_header fp = Some (n, fp') →
  ∃ header,
    file_bytes fp' = file_bytes fp ++ header
    ∧ n = Z.of_nat (length header)
    ∧ ∀ rest, load_header (header ++ rest) = Some rest.
Proof.
  intros Hsave. apply save_header_inv in Hsave as [Hbytes ->].
  eexists. split; [exact Hbytes|]. split; [done|]. intros rest. reflexivity.
Qed.

(* --------------------------------------------------------------------- *)
(** ** What the save functions append *)
(* --------------------------------------------------------------------- *)

Section CodecFileFacts.

Context (FLAG_SIZE FLAG_MODIFICATION_TIME : Z) (pool_entry : FsearchDatabaseEntry).

Local Arguments le_bytes : simpl never.
Local Arguments le_value : simpl never.

Lemma save_entry_super_elements_inv (fp fp' : FILE) (index_flags : Z)
    (entry : FsearchDatabaseEntry) (parent_idx : Z) (prev prev' : list Z) (n : Z) :
  save_entry_super_elements FLAG_SIZE FLAG_MODIFICATION_TIME fp index_flags entry parent_idx prev
  = Some (n, prev', fp') →
  ∃ data, file_bytes fp' = file_bytes fp ++ data ∧ n = Z.of_nat (length data).
Proof.
  unfold save_entry_super_elements. cbv zeta. intros Hsave.
  apply bind_Some in Hsave as ([n1 fp1] & Hw1 & Hsave).
  apply write_data_to_file_inv in Hw1 as [Hb1 ->].
  apply bind_Some in Hsave as ([n2 fp2] & Hw2 & Hsave).
  apply write_data_to_file_inv in Hw2 as [Hb2 ->].
  apply bind_Some in Hsave as ([n3 fp3] & Hw3 & Hsave).
  apply optional_write_inv in Hw3 as [Hb3 ->].
  apply bind_Some in Hsave as ([n4 fp4] & Hw4 & Hsave).
  apply optional_write_inv in Hw4 as [Hb4 ->].
  apply bind_Some in Hsave as ([n5 fp5] & Hw5 & Hsave).
  apply optional_write_inv in Hw5 as [Hb5 ->].
  apply bind_Some in Hsave as ([n6 fp6] & Hw6 & Hsave).
  apply write_data_to_file_inv in Hw6 as [Hb6 ->].
  injection Hsave as <- _ <-.
  eexists. split.
  { rewrite Hb6, Hb5, Hb4, Hb3, Hb2, Hb1. rewrite <- !app_assoc. reflexivity. }
  rewrite !length_app. simpl. lia.
Qed.

Lemma save_folders_loop_inv (index_flags : Z) (h : Heap) (folders : list nat)
    (fp fp' : FILE) (name_prev : list Z) (bytes_written n : Z) :
  save_folders_loop FLAG_SIZE FLAG_MODIFICATION_TIME fp index_flags h folders name_prev
    bytes_written = Some (n, fp') →
  ∃ data, file_bytes fp' = file_bytes fp ++ data ∧ n = bytes_written + Z.of_nat (length data).
Proof.
  revert fp name_prev bytes_written.
  induction folders as [|folder folders IH]; intros fp name_prev bytes_written Hsave.
  { injection Hsave as <- <-. exists []. rewrite app_nil_r. simpl. split; [done|lia]. }
  cbn [save_folders_loop] in Hsave.
  apply bind_Some in Hsave as (entry & _ & Hsave).
  apply bind_Some in Hsave as ([n1 fp1] & Hw1 & Hsave).
  apply write_data_to_file_inv in Hw1 as [Hb1 ->].
  apply bind_Some in Hsave as (parent_idx & _ & Hsave).
  apply bind_Some in Hsave as ([[n2 prev2] fp2] & Hw2 & Hsave).
  apply save_entry_super_elements_inv in Hw2 as (d2 & Hb2 & ->).
  apply IH in Hsave as (data & Hdata & ->).
  eexists. split.
  { rewrite Hdata, Hb2, Hb1. rewrite <- !app_assoc. reflexivity. }
  rewrite !length_app. lia.
Qed.

Lemma save_files_loop_inv (index_flags : Z) (files : list nat) (h h' : Heap)
    (fp fp' : FILE) (i : Z) (name_prev : list Z) (bytes_written n : Z) :
  save_files_loop FLAG_SIZE FLAG_MODIFICATION_TIME fp index_flags h files i name_prev
    bytes_written = Some (n, fp', h') →
  ∃ data, file_bytes fp' = file_bytes fp ++ data ∧ n = bytes_written + Z.of_nat (length data).
Proof.
  revert h fp i name_prev bytes_written.
  induction files as [|file files IH]; intros h fp i name_prev bytes_written Hsave.
  { injection Hsave as <- <- <-. exists []. rewrite app_nil_r. simpl. split; [done|lia]. }
  cbn [save_files_loop] in Hsave.
  apply bind_Some in Hsave as (e0 & _ & Hsave).
  apply bind_Some in Hsave as (entry & _ & Hsave).
  apply bind_Some in Hsave as (parent & _ & Hsave).
  apply bind_Some in Hsave as (parent_idx & _ & Hsave).
  apply bind_Some in Hsave as ([[n2 prev2] fp2] & Hw2 & Hsave).
  apply save_entry_super_elements_inv in Hw2 as (d2 & Hb2 & ->).
  apply IH in Hsave as (data & Hdata & ->).
  eexists. split.
  { rewrite Hdata, Hb2. rewrite <- !app_assoc. reflexivity. }
  rewrite !length_app. lia.
Qed.

End CodecFileFacts.

(* --------------------------------------------------------------------- *)
(** ** The sorted-arrays block inside a file *)
(* --------------------------------------------------------------------- *)

(** The block that [save_sorted_arrays] appends to a file is one that
    [load_sorted_arrays] rejects. *)
Lemma save_sorted_arrays_short (fp fp' : FILE) (h : Heap)
    (store : FsearchDatabaseIndexStore) (num_files num_folders : nat) (n : Z) :
  store_is_sorted store = true →
  is_Some (store_folder_container store !! DATABASE_INDEX_PROPERTY_NAME) →
  is_Some (store_file_container store !! DATABASE_INDEX_PROPERTY_NAME) →
  save_sorted_arrays fp h store num_files num_folders = Some (n, fp') →
  ∃ block,
    file_bytes fp' = file_bytes fp ++ block
    ∧ load_sorted_arrays block num_folders num_files = None.
Proof.
  intros Hsorted Hfolder Hfile Hsave.
  unfold save_sorted_arrays in Hsave. cbv zeta in Hsave.
  set (both := λ id, bool_decide (is_Some (store_folder_container store !! id))
                     && bool_decide (is_Some (store_file_container store !! id))) in *.
  assert (index_store_get_num_fast_sort_indices store
          = S (length (filter (λ id, both id = true) sorted_array_ids))) as Hcount.
  { unfold index_store_get_num_fast_sort_indices. fold both.
    rewrite (foldl_count_filter both). unfold index_properties, sorted_array_ids.
    rewrite filter_cons. rewrite decide_True; [done|].
    unfold both. by rewrite !bool_decide_eq_true_2. }
  rewrite Hcount in Hsave.
  set (k := length (filter (λ id, both id = true) sorted_array_ids)) in *.
  assert (k ≤ 4)%nat as Hk.
  { subst k. etransitivity; [apply length_filter|]. done. }
  apply bind_Some in Hsave as ([n0 fp0] & Hw0 & Hsave).
  apply write_data_to_file_inv in Hw0 as [Hb0 _].
  destruct (Z.ltb_spec (Z.of_nat (S k)) 1) as [?|_]; [lia|].
  apply save_sorted_array_loop_inv in Hsave as (data & Hdata & Hlen).
  assert (length data = (k * (4 + 4 * num_folders + 4 * num_files))%nat) as Hlen'.
  { rewrite Hlen. subst k. do 2 f_equal. apply list_filter_iff. intros id.
    unfold both, index_store_get_folders, index_store_get_files. by rewrite Hsorted. }
  exists (le_bytes 4 (Z.of_nat (S k)) ++ data).
  split. { rewrite Hdata, Hb0. by rewrite <- app_assoc. }
  unfold load_sorted_arrays.
  rewrite <- (le_bytes_length 4 (Z.of_nat (S k))) at 1.
  rewrite (read_element_from_file_app (le_bytes 4 (Z.of_nat (S k)))) by done.
  cbn [mbind option_bind]. rewrite le_value_le_bytes_4 by lia. rewrite Nat2Z.id.
  match goal with |- ?load = None => destruct load as [r|] eqn:Hload; [|done] end.
  exfalso.
  pose proof (load_sorted_arrays_loop_length (S k) data num_folders num_files ∅ ∅
                (ex_intro _ r Hload)) as Hneeds.
  rewrite Hlen' in Hneeds. lia.
Qed.

(* --------------------------------------------------------------------- *)
(** ** Room: the bytes written fit the medium *)
(* --------------------------------------------------------------------- *)

Lemma write_data_to_file_capacity (fp fp' : FILE) (data : list Z) (n : Z) :
  write_data_to_file fp data = Some (n, fp') → file_capacity fp' = file_capacity fp.
Proof.
  unfold write_data_to_file, file_capacity. intros Hw.
  repeat case_bool_decide; simplify_eq; simpl; [done|].
  rewrite length_app. lia.
Qed.

Lemma optional_write_capacity (b : bool) (fp fp' : FILE) (data : list Z) (written n : Z) :
  (if b then write_data_to_file fp data ≫= λ '(n, fp), Some (written + n, fp)
   else Some (written, fp)) = Some (n, fp') →
  file_capacity fp' = file_capacity fp.
Proof.
  destruct b; intros Hw.
  - apply bind_Some in Hw as ([m fp1] & Hw & ?). simplify_eq.
    by apply write_data_to_file_capacity in Hw.
  - by simplify_eq.
Qed.

Lemma save_header_capacity (fp fp' : FILE) (n : Z) :
  save_header fp = Some (n, fp') → file_capacity fp' = file_capacity fp.
Proof.
  unfold save_header. intros Hsave.
  apply bind_Some in Hsave as ([n1 fp1] & Hw1 & Hsave).
  apply write_data_to_file_capacity in Hw1.
  apply bind_Some in Hsave as ([n2 fp2] & Hw2 & Hsave).
  apply write_data_to_file_capacity in Hw2.
  apply bind_Some in Hsave as ([n3 fp3] & Hw3 & Hsave).
  apply write_data_to_file_capacity in Hw3.
  injection Hsave as <- <-. congruence.
Qed.

Section CapacityFacts.

Context (FLAG_SIZE FLAG_MODIFICATION_TIME : Z).

Lemma save_entry_super_elements_capacity (fp fp' : FILE) (index_flags : Z)
    (entry : FsearchDatabaseEntry) (parent_idx : Z) (prev prev' : list Z) (n : Z) :
  save_entry_super_elements FLAG_SIZE FLAG_MODIFICATION_TIME fp index_flags entry parent_idx prev
  = Some (n, prev', fp') →
  file_capacity fp' = file_capacity fp.
Proof.
  unfold save_entry_super_elements. cbv zeta. intros Hsave.
  apply bind_Some in Hsave as ([n1 fp1] & Hw1 & Hsave).
  apply write_data_to_file_capacity in Hw1.
  apply bind_Some in Hsave as ([n2 fp2] & Hw2 & Hsave).
  apply write_data_to_file_capacity in Hw2.
  apply bind_Some in Hsave as ([n3 fp3] & Hw3 & Hsave).
  apply optional_write_capacity in Hw3.
  apply bind_Some in Hsave as ([n4 fp4] & Hw4 & Hsave).
  apply optional_write_capacity in Hw4.
  apply bind_Some in Hsave as ([n5 fp5] & Hw5 & Hsave).
  apply optional_write_capacity in Hw5.
  apply bind_Some in Hsave as ([n6 fp6] & Hw6 & Hsave).
  apply write_data_to_file_capacity in Hw6.
  injection Hsave as _ _ <-. congruence.
Qed.

Lemma save_folders_loop_capacity (index_flags : Z) (h : Heap) (folders : list nat)
    (fp fp' : FILE) (name_prev : list Z) (bytes_written n : Z) :
  save_folders_loop FLAG_SIZE FLAG_MODIFICATION_TIME fp index_flags h folders name_prev
    bytes_written = Some (n, fp') →
  file_capacity fp' = file_capacity fp.
Proof.
  revert fp name_prev bytes_written.
  induction folders as [|folder folders IH]; intros fp name_prev bytes_written Hsave.
  { by injection Hsave as _ <-. }
  cbn [save_folders_loop] in Hsave.
  apply bind_Some in Hsave as (entry & _ & Hsave).
  apply bind_Some in Hsave as ([n1 fp1] & Hw1 & Hsave).
  apply write_data_to_file_capacity in Hw1.
  apply bind_Some in Hsave as (parent_idx & _ & Hsave).
  apply bind_Some in Hsave as ([[n2 prev2] fp2] & Hw2 & Hsave).
  apply save_entry_super_elements_capacity in Hw2.
  apply IH in Hsave. congruence.
Qed.

Lemma save_files_loop_capacity (index_flags : Z) (files : list nat) (h h' : Heap)
    (fp fp' : FILE) (i : Z) (name_prev : list Z) (bytes_written n : Z) :
  save_files_loop FLAG_SIZE FLAG_MODIFICATION_TIME fp index_flags h files i name_prev
    bytes_written = Some (n, fp', h') →
  file_capacity fp' = file_capacity fp.
Proof.
  revert h fp i name_prev bytes_written.
  induction files as [|file files IH]; intros h fp i name_prev bytes_written Hsave.
  { by injection Hsave as _ <- _. }
  cbn [save_files_loop] in Hsave.
  apply bind_Some in Hsave as (e0 & _ & Hsave).
  apply bind_Some in Hsave as (entry & _ & Hsave).
  apply bind_Some in Hsave as (parent & _ & Hsave).
  apply bind_Some in Hsave as (parent_idx & _ & Hsave).
  apply bind_Some in Hsave as ([[n2 prev2] fp2] & Hw2 & Hsave).
  apply save_entry_super_elements_capacity in Hw2.
  apply IH in Hsave. congruence.
Qed.

End CapacityFacts.

(* --------------------------------------------------------------------- *)
(** ** The layout of a saved file *)
(* --------------------------------------------------------------------- *)

Lemma Written_bind_inv {A B} (m : Written A) (k : A → Written B) (b : B) :
  m ≫= k = WRITTEN b → ∃ a, m = WRITTEN a ∧ k a = WRITTEN b.
Proof. destruct m as [a| |]; [|done..]. intros Hk. by exists a. Qed.

Lemma checked_inv {A} (m : option A) (a : A) : checked m = WRITTEN a → m = Some a.
Proof. by destruct m; intros [= ->]. Qed.

Lemma non_null_inv {A} (m : option A) (a : A) : non_null m = WRITTEN a → m = Some a.
Proof. by destruct m; intros [= ->]. Qed.

(** Overwriting bytes inside the file takes no room. *)
Lemma write_data_to_file_at_inside (pre old data post : list Z) (room : nat) (fp' : FILE)
    (n : Z) :
  length old = length data →
  write_data_to_file_at {| file_bytes := pre ++ old ++ post; file_room := room |}
    (length pre) data = Some (n, fp') →
  file_bytes fp' = pre ++ data ++ post.
Proof.
  intros Hlen. unfold write_data_to_file_at. cbn [file_bytes file_room].
  case_bool_decide as Hempty.
  { intros [= _ <-]. simpl. destruct data; [|done]. by destruct old. }
  replace (length pre - length (pre ++ old ++ post))%nat with 0%nat
    by (rewrite !length_app; lia).
  cbn [replicate]. rewrite app_nil_r.
  case_bool_decide; [|done]. intros [= _ <-]. cbn [file_bytes].
  rewrite take_app_length. f_equal. f_equal.
  rewrite (app_assoc pre old post).
  by rewrite drop_app_length' by (rewrite length_app; lia).
Qed.

Section FileFacts.

Context (FLAG_SIZE FLAG_MODIFICATION_TIME : Z) (pool_entry : FsearchDatabaseEntry).

Local Arguments le_bytes : simpl never.
Local Arguments le_value : simpl never.

Local Abbreviation joined := fsearch_database_entries_container_get_joined.

Lemma db_file_save_write_layout (fp fp' : FILE) (h h' : Heap)
    (store : FsearchDatabaseIndexStore) :
  file_bytes fp = [] →
  db_file_save_write FLAG_SIZE FLAG_MODIFICATION_TIME fp h store = WRITTEN (fp', h') →
  ∃ folder_container file_container folder_block file_block sorted_block fp1 fp2,
    index_store_get_folders store DATABASE_INDEX_PROPERTY_NAME = Some folder_container
    ∧ index_store_get_files store DATABASE_INDEX_PROPERTY_NAME = Some file_container
    ∧ save_entry_blocks FLAG_SIZE FLAG_MODIFICATION_TIME fp1 (uint64_t (store_flags store)) h
        (joined folder_container) (joined file_container)
      = Some (Z.of_nat (length folder_block), Z.of_nat (length file_block), fp2, h')
    ∧ file_bytes fp2 = file_bytes fp1 ++ folder_block ++ file_block
    ∧ (length folder_block + length file_block ≤ file_room fp)%nat
    ∧ file_bytes fp'
      = snapshot_layout (uint64_t (store_flags store))
          (uint32_t (Z.of_nat (length (joined folder_container))))
          (uint32_t (Z.of_nat (length (joined file_container))))
          folder_block file_block sorted_block
    ∧ load_sorted_arrays sorted_block
        (Z.to_nat (uint32_t (Z.of_nat (length (joined folder_container)))))
        (Z.to_nat (uint32_t (Z.of_nat (length (joined file_container))))) = None.
Proof.
  intros Hempty Hsave. unfold db_file_save_write in Hsave. cbv zeta in Hsave.
  apply Written_bind_inv in Hsave as ([n1 f1] & Hw1 & Hsave). apply checked_inv in Hw1.
  pose proof (save_header_capacity _ _ _ Hw1) as Hc1.
  apply save_header_inv in Hw1 as [Hb1 ->]. rewrite Hempty, app_nil_l in Hb1.
  apply Written_bind_inv in Hsave as ([n2 f2] & Hw2 & Hsave). apply checked_inv in Hw2.
  pose proof (write_data_to_file_capacity _ _ _ _ Hw2) as Hc2.
  apply write_data_to_file_inv in Hw2 as [Hb2 ->].
  apply Written_bind_inv in Hsave as (folder_container & Hfc & Hsave).
  apply non_null_inv in Hfc.
  apply Written_bind_inv in Hsave as ([n3 f3] & Hw3 & Hsave). apply checked_inv in Hw3.
  pose proof (write_data_to_file_capacity _ _ _ _ Hw3) as Hc3.
  apply write_data_to_file_inv in Hw3 as [Hb3 ->].
  apply Written_bind_inv in Hsave as (file_container & Hflc & Hsave).
  apply non_null_inv in Hflc.
  apply Written_bind_inv in Hsave as ([n4 f4] & Hw4 & Hsave). apply checked_inv in Hw4.
  pose proof (write_data_to_file_capacity _ _ _ _ Hw4) as Hc4.
  apply write_data_to_file_inv in Hw4 as [Hb4 ->].
  apply Written_bind_inv in Hsave as ([n5 f5] & Hw5 & Hsave). apply checked_inv in Hw5.
  pose proof (write_data_to_file_capacity _ _ _ _ Hw5) as Hc5.
  apply write_data_to_file_inv in Hw5 as [Hb5 ->].
  apply Written_bind_inv in Hsave as ([n6 f6] & Hw6 & Hsave). apply checked_inv in Hw6.
  pose proof (write_data_to_file_capacity _ _ _ _ Hw6) as Hc6.
  apply write_data_to_file_inv in Hw6 as [Hb6 ->].
  apply Written_bind_inv in Hsave as ([n7 f7] & Hw7 & Hsave). apply checked_inv in Hw7.
  unfold save_indexes in Hw7. cbv zeta in Hw7.
  apply bind_Some in Hw7 as ([n7' f7'] & Hw7 & [= <- <-]).
  pose proof (write_data_to_file_capacity _ _ _ _ Hw7) as Hc7.
  apply write_data_to_file_inv in Hw7 as [Hb7 ->].
  apply Written_bind_inv in Hsave as ([n8 f8] & Hw8 & Hsave). apply checked_inv in Hw8.
  unfold save_excludes in Hw8. cbv zeta in Hw8.
  apply bind_Some in Hw8 as ([n8' f8'] & Hw8 & [= <- <-]).
  pose proof (write_data_to_file_capacity _ _ _ _ Hw8) as Hc8.
  apply write_data_to_file_inv in Hw8 as [Hb8 ->].
  apply Written_bind_inv in Hsave as ([n9 f9] & Hw9 & Hsave). apply checked_inv in Hw9.
  injection Hw9 as <- <-.
  apply Written_bind_inv in Hsave as ([fbs f10] & Hw10 & Hsave). apply checked_inv in Hw10.
  apply Written_bind_inv in Hsave as ([[flbs f11] h11] & Hw11 & Hsave).
  apply checked_inv in Hw11.
  apply Written_bind_inv in Hsave as ([n12 f12] & Hw12 & Hsave). apply checked_inv in Hw12.
  apply Written_bind_inv in Hsave as ([n13 f13] & Hw13 & Hsave). apply checked_inv in Hw13.
  apply Written_bind_inv in Hsave as ([n14 f14] & Hw14 & Hsave). apply checked_inv in Hw14.
  injection Hsave as <- <-.
  set (folders := joined folder_container) in *.
  set (files := joined file_container) in *.
  set (h1 := update_folder_indices h folders) in *.
  pose proof Hw10 as Hfolders. pose proof Hw11 as Hfiles.
  pose proof (save_folders_loop_capacity _ _ _ _ _ _ _ _ _ _ Hw10) as Hc10.
  pose proof (save_files_loop_capacity _ _ _ _ _ _ _ _ _ _ _ _ Hw11) as Hc11.
  unfold save_folders in Hw10. unfold save_files in Hw11.
  destruct (save_folders_loop_inv _ _ _ _ _ _ _ _ _ _ Hw10) as (folder_block & Hb10 & ->).
  destruct (save_files_loop_inv _ _ _ _ _ _ _ _ _ _ _ _ Hw11) as (file_block & Hb11 & ->).
  assert (store_is_sorted store = true ∧
          is_Some (store_folder_container store !! DATABASE_INDEX_PROPERTY_NAME) ∧
          is_Some (store_file_container store !! DATABASE_INDEX_PROPERTY_NAME))
    as (Hsorted & Hfslot & Hflslot).
  { unfold index_store_get_folders, index_store_get_files in Hfc, Hflc.
    destruct (store_is_sorted store); [|done]. rewrite Hfc, Hflc. eauto. }
  apply (save_sorted_arrays_short _ _ _ _ _ _ _ Hsorted Hfslot Hflslot) in Hw12
    as (sorted_block & Hb12 & Hrejected).
  exists folder_container, file_container, folder_block, file_block, sorted_block, f8', f11.
  split; [done|]. split; [done|].
  split.
  { unfold save_entry_blocks. cbv zeta. fold folders files h1.
    rewrite Hfolders. cbn [mbind option_bind]. rewrite Hfiles. cbn [mbind option_bind].
    by rewrite !Z.add_0_l. }
  split. { rewrite Hb11, Hb10. by rewrite <- app_assoc. }
  split.
  { assert (file_capacity f11 = file_capacity fp) as Hcap by congruence.
    unfold file_capacity in Hcap. rewrite Hb11, Hb10, Hempty, !length_app in Hcap.
    simpl in Hcap. lia. }
  split; [|done].
  (* the file before the block sizes are filled in *)
  assert (file_bytes f12
          = (DATABASE_MAGIC_NUMBER ++ [DATABASE_MAJOR_VERSION; DATABASE_MINOR_VERSION]
             ++ le_bytes 8 (uint64_t (store_flags store))
             ++ le_bytes 4 (uint32_t (Z.of_nat (length folders)))
             ++ le_bytes 4 (uint32_t (Z.of_nat (length files))))
            ++ le_bytes 8 0
            ++ le_bytes 8 0
               ++ le_bytes 4 0 ++ le_bytes 4 0 ++ folder_block ++ file_block ++ sorted_block)
    as Hbytes.
  { rewrite Hb12, Hb11, Hb10, Hb8, Hb7, Hb6, Hb5, Hb4, Hb3, Hb2, Hb1.
    by rewrite <- !app_assoc. }
  destruct f12 as [bytes12 room12]. cbn [file_bytes] in Hbytes. subst bytes12.
  match type of Hw13 with
  | write_data_to_file_at _ ?offset _ = _ =>
      replace offset
        with (length (DATABASE_MAGIC_NUMBER
                      ++ [DATABASE_MAJOR_VERSION; DATABASE_MINOR_VERSION]
                      ++ le_bytes 8 (uint64_t (store_flags store))
                      ++ le_bytes 4 (uint32_t (Z.of_nat (length folders)))
                      ++ le_bytes 4 (uint32_t (Z.of_nat (length files))))) in Hw13, Hw14
        by (rewrite !length_app, !le_bytes_length; simpl; lia)
  end.
  apply write_data_to_file_at_inside in Hw13; [|by rewrite !le_bytes_length].
  destruct f13 as [bytes13 room13]. cbn [file_bytes] in Hw13. subst bytes13.
  rewrite (app_assoc _ (le_bytes 8 (uint64_t (0 + Z.of_nat (length folder_block))))) in Hw14.
  match type of Hw14 with
  | write_data_to_file_at (Build_FILE (?pre ++ _) _) ?offset _ = _ =>
      replace offset with (length pre) in Hw14
        by (rewrite !length_app, !le_bytes_length; simpl; lia)
  end.
  apply write_data_to_file_at_inside in Hw14; [|by rewrite !le_bytes_length].
  rewrite Hw14. unfold snapshot_layout. rewrite !Z.add_0_l. by rewrite <- !app_assoc.
Qed.

End FileFacts.


(* --------------------------------------------------------------------- *)
(** ** [db_file_save] and [db_file_load] on the file system *)
(* --------------------------------------------------------------------- *)

Lemma string_app_nil_r (s : string) : s +:+ EmptyString = s.
Proof.
  induction s as [|a s IH]; [done|].
  change (String a s +:+ EmptyString) with (String a (s +:+ EmptyString)). by f_equal.
Qed.

Lemma path_temp_ne (s : string) : s +:+ ".tmp" ≠ s.
Proof.
  intros Heq.
  assert (s +:+ ".tmp" = s +:+ EmptyString) as Happ by (by rewrite string_app_nil_r).
  by apply String.app_inj in Happ.
Qed.

Section SnapshotFileFacts.

Context (FLAG_SIZE FLAG_MODIFICATION_TIME : Z) (pool_entry : FsearchDatabaseEntry).

Local Arguments le_bytes : simpl never.
Local Arguments le_value : simpl never.

Local Abbreviation joined := fsearch_database_entries_container_get_joined.
Local Abbreviation db_file_save := (db_file_save FLAG_SIZE FLAG_MODIFICATION_TIME).
Local Abbreviation db_file_load := (db_file_load FLAG_SIZE FLAG_MODIFICATION_TIME pool_entry).

Lemma db_file_save_true_inv (fs fs' : FileSystem) (room : nat) (rename_ok : bool)
    (h h' : Heap) (store : FsearchDatabaseIndexStore) (file_path : string) :
  db_file_save fs room rename_ok h store file_path = SAVE_TRUE fs' h' →
  let path_full := file_path +:+ "/" +:+ "fsearch.db" in
  ∃ fp, db_file_save_write FLAG_SIZE FLAG_MODIFICATION_TIME
          {| file_bytes := []; file_room := room |} h store = WRITTEN (fp, h')
        ∧ fs_files fs' = <[path_full := file_bytes fp]>
                           (delete (path_full +:+ ".tmp") (delete path_full (fs_files fs)))
        ∧ fs_locked fs' = fs_locked fs ∧ fs_dirs fs' = fs_dirs fs.
Proof.
  unfold db_file_save. cbv zeta.
  destruct (g_file_test_is_dir fs file_path); [|done]. cbn [negb].
  set (path_full := file_path +:+ "/" +:+ "fsearch.db").
  unfold file_open_locked_wb.
  case_bool_decide; [done|]. cbn [fs_locked set_fs_files].
  case_bool_decide; [done|].
  destruct (db_file_save_write _ _ _ _ _) as [[fp h1]| |] eqn:Hwrite; [|done..].
  unfold rename, fclose, unlink. cbn [fs_files set_fs_files].
  rewrite lookup_insert_eq.
  destruct rename_ok; [|done]. intros [= <- <-].
  exists fp. split; [done|]. cbn [fs_files fs_locked fs_dirs set_fs_files].
  split; [|done]. f_equal.
  apply map_eq. intros k.
  destruct (decide (k = path_full +:+ ".tmp")) as [->|]; [by rewrite !lookup_delete_eq|].
  rewrite !(lookup_delete_ne _ (path_full +:+ ".tmp")), lookup_insert_ne by done.
  destruct (decide (k = path_full)) as [->|]; [by rewrite !lookup_delete_eq|].
  by rewrite !(lookup_delete_ne _ path_full), lookup_insert_ne by done.
Qed.

Lemma read_element_le_bytes (k : nat) (v : Z) (rest : list Z) :
  k ≠ 0%nat → read_element_from_file k (le_bytes k v ++ rest) = Some (le_bytes k v, rest).
Proof.
  intros Hk. rewrite <- (le_bytes_length k v) at 1. apply read_element_from_file_app.
  intros Hnil. apply (f_equal length) in Hnil. rewrite le_bytes_length in Hnil. done.
Qed.

Lemma le_value_le_bytes_8 (v : Z) : 0 <= v < 2 ^ 64 → le_value (le_bytes 8 v) = v.
Proof. intros Hv. rewrite le_value_le_bytes. apply Z.mod_small. simpl. lia. Qed.

Lemma load_folders_rest (fp rest : list Z) (index_flags : Z)
    (folders folders' : list FsearchDatabaseEntry) (num_folders folder_block_size : nat) :
  load_folders FLAG_SIZE FLAG_MODIFICATION_TIME fp index_flags folders num_folders
    folder_block_size = Some (rest, folders') →
  rest = drop folder_block_size fp.
Proof.
  unfold load_folders. cbv zeta. case_bool_decide; [done|]. intros Hload.
  apply bind_Some in Hload as ([fb folders1] & _ & Hload).
  case_bool_decide; [done|]. by injection Hload as <- _.
Qed.

Lemma load_files_rest (fp rest : list Z) (index_flags : Z)
    (folders files : list FsearchDatabaseEntry) (num_files file_block_size : nat) :
  load_files FLAG_SIZE FLAG_MODIFICATION_TIME pool_entry fp index_flags folders num_files
    file_block_size = Some (rest, files) →
  rest = drop file_block_size fp.
Proof.
  unfold load_files. cbv zeta. case_bool_decide; [done|]. intros Hload.
  apply bind_Some in Hload as ([fb files1] & _ & Hload).
  case_bool_decide; [done|]. by injection Hload as <- _.
Qed.

Lemma load_entry_blocks_rest (fp rest : list Z) (index_flags : Z)
    (num_folders num_files folder_block_size file_block_size : nat)
    (folders files : list FsearchDatabaseEntry) :
  load_entry_blocks FLAG_SIZE FLAG_MODIFICATION_TIME pool_entry fp index_flags
    num_folders num_files folder_block_size file_block_size = Some (rest, folders, files) →
  rest = drop file_block_size (drop folder_block_size fp).
Proof.
  unfold load_entry_blocks. cbv zeta. intros Hload.
  apply bind_Some in Hload as ([fp1 folders1] & Hfolders & Hload).
  apply load_folders_rest in Hfolders as ->.
  apply bind_Some in Hload as ([fp2 files2] & Hfiles & Hload).
  apply load_files_rest in Hfiles as ->.
  by injection Hload as <- _ _.
Qed.

(** The file a successful [db_file_save] leaves behind: "fsearch.db" in
    the directory holds the snapshot layout around the blocks that
    [save_folders] and [save_files] wrote for the name-sorted containers,
    the temporary file is gone, and no other file was touched. *)
Theorem db_file_save_layout (fs fs' : FileSystem) (room : nat) (rename_ok : bool)
    (h h' : Heap) (store : FsearchDatabaseIndexStore) (file_path : string) :
  db_file_save fs room rename_ok h store file_path = SAVE_TRUE fs' h' →
  let path_full := file_path +:+ "/" +:+ "fsearch.db" in
  ∃ folder_container file_container folder_block file_block sorted_block,
    index_store_get_folders store DATABASE_INDEX_PROPERTY_NAME = Some folder_container
    ∧ index_store_get_files store DATABASE_INDEX_PROPERTY_NAME = Some file_container
    ∧ fs_files fs' !! path_full
      = Some (snapshot_layout (uint64_t (store_flags store))
                (uint32_t (Z.of_nat (length (joined folder_container))))
                (uint32_t (Z.of_nat (length (joined file_container))))
                folder_block file_block sorted_block)
    ∧ fs_files fs' !! (path_full +:+ ".tmp") = None
    ∧ (∀ path, path ≠ path_full → path ≠ path_full +:+ ".tmp" →
         fs_files fs' !! path = fs_files fs !! path)
    ∧ ∃ fp1 fp2,
        save_entry_blocks FLAG_SIZE FLAG_MODIFICATION_TIME fp1 (uint64_t (store_flags store)) h
          (joined folder_container) (joined file_container)
        = Some (Z.of_nat (length folder_block), Z.of_nat (length file_block), fp2, h')
        ∧ file_bytes fp2 = file_bytes fp1 ++ folder_block ++ file_block.
Proof.
  intros Hsave path_full.
  apply db_file_save_true_inv in Hsave as (fp & Hwrite & Hfiles & _). fold path_full in Hfiles.
  apply db_file_save_write_layout in Hwrite
    as (fc & flc & fb & flb & sb & fp1 & fp2 & Hfc & Hflc & Hblocks & Hbytes & _ & Hlayout & _);
    [|done].
  exists fc, flc, fb, flb, sb.
  split; [done|]. split; [done|].
  split. { by rewrite Hfiles, lookup_insert_eq, Hlayout. }
  split.
  { rewrite Hfiles, lookup_insert_ne by (symmetry; apply path_temp_ne).
    by rewrite lookup_delete_eq. }
  split.
  { intros path Hfull Htemp. rewrite Hfiles.
    by rewrite lookup_insert_ne, !lookup_delete_ne by done. }
  eauto.
Qed.

(** [db_file_load] returns [false] on every file [db_file_save] wrote. *)
Theorem db_file_load_rejects_saved (fs fs' : FileSystem) (room : nat) (rename_ok : bool)
    (h h' : Heap) (store : FsearchDatabaseIndexStore) (file_path : string) :
  Z.of_nat room < 2 ^ 64 →
  db_file_save fs room rename_ok h store file_path = SAVE_TRUE fs' h' →
  db_file_load fs' (file_path +:+ "/" +:+ "fsearch.db") = false.
Proof.
  intros Hroom Hsave.
  apply db_file_save_true_inv in Hsave as (fp & Hwrite & Hfiles & _).
  apply db_file_save_write_layout in Hwrite
    as (fc & flc & fb & flb & sb & fp1 & fp2 & _ & _ & _ & _ & Hfit & Hlayout & Hrejected);
    [|done].
  cbn [file_room] in Hfit.
  unfold db_file_load, file_open_locked_rb.
  rewrite Hfiles, lookup_insert_eq. case_bool_decide; [done|].
  apply bool_decide_eq_false. intros [loaded Hload].
  rewrite Hlayout in Hload. unfold snapshot_layout, db_file_load_read in Hload.
  change (load_header (DATABASE_MAGIC_NUMBER
                       ++ [DATABASE_MAJOR_VERSION; DATABASE_MINOR_VERSION] ++ ?rest))
    with (Some rest) in Hload.
  cbn [mbind option_bind] in Hload.
  repeat (rewrite read_element_le_bytes in Hload by done; cbn [mbind option_bind] in Hload).
  rewrite !le_value_le_bytes_4 in Hload by (unfold uint32_t; apply Z.mod_pos_bound; lia).
  rewrite !le_value_le_bytes_8 in Hload by (unfold uint64_t; apply Z.mod_pos_bound; lia).
  unfold uint64_t in Hload at 2 3. rewrite !Z.mod_small, !Nat2Z.id in Hload by lia.
  apply bind_Some in Hload as ([[rest folders] files] & Hblocks & Hload).
  apply load_entry_blocks_rest in Hblocks.
  rewrite drop_app_length, drop_app_length in Hblocks. subst rest.
  by rewrite Hrejected in Hload.
Qed.

(** A [db_file_save] that returns [false] has touched nothing when the path
    is not a directory; otherwise the temporary file does not exist
    afterwards, no file but "fsearch.db" and the temporary file was
    touched, and "fsearch.db" is as it was unless the failure was the final
    rename, after which it is gone. *)
Theorem db_file_save_failure (fs fs' : FileSystem) (room : nat) (rename_ok : bool)
    (h : Heap) (store : FsearchDatabaseIndexStore) (file_path : string) :
  db_file_save fs room rename_ok h store file_path = SAVE_FALSE fs' →
  let path_full := file_path +:+ "/" +:+ "fsearch.db" in
  (g_file_test_is_dir fs file_path = false → fs' = fs)
  ∧ (g_file_test_is_dir fs file_path = true →
       fs_files fs' !! (path_full +:+ ".tmp") = None
       ∧ (fs_files fs' !! path_full = fs_files fs !! path_full
          ∨ rename_ok = false ∧ fs_files fs' !! path_full = None)
       ∧ ∀ path, path ≠ path_full → path ≠ path_full +:+ ".tmp" →
           fs_files fs' !! path = fs_files fs !! path).
Proof.
  unfold db_file_save. cbv zeta.
  set (path_full := file_path +:+ "/" +:+ "fsearch.db").
  assert (path_full ≠ path_full +:+ ".tmp") as Hne by (symmetry; apply path_temp_ne).
  destruct (g_file_test_is_dir fs file_path); cbn [negb].
  { intros Hsave. split; [done|]. intros _. revert Hsave.
    unfold file_open_locked_wb.
    case_bool_decide.
    { intros [= <-]. unfold unlink. cbn [fs_files set_fs_files].
      split; [by rewrite lookup_delete_eq|].
      split; [left; by rewrite lookup_delete_ne|].
      intros path _ Htemp. by rewrite lookup_delete_ne. }
    cbn [fs_locked set_fs_files].
    case_bool_decide.
    { intros [= <-]. unfold unlink. cbn [fs_files set_fs_files].
      split; [by rewrite lookup_delete_eq|].
      split; [left; by rewrite lookup_delete_ne, lookup_insert_ne|].
      intros path _ Htemp. by rewrite lookup_delete_ne, lookup_insert_ne. }
    destruct (db_file_save_write _ _ _ _ _) as [[fp h1]| |] eqn:Hwrite; [| |done].
    - unfold rename, fclose, unlink. cbn [fs_files set_fs_files].
      rewrite lookup_insert_eq. destruct rename_ok; [done|].
      intros [= <-]. cbn [fs_files set_fs_files].
      split; [by rewrite lookup_delete_eq|].
      split.
      + right. split; [done|].
        by rewrite lookup_delete_ne, lookup_insert_ne, lookup_delete_eq.
      + intros path Hfull Htemp.
        by rewrite lookup_delete_ne, lookup_insert_ne, lookup_delete_ne, lookup_insert_ne.
    - intros [= <-]. unfold unlink. cbn [fs_files set_fs_files].
      split; [by rewrite lookup_delete_eq|].
      split; [left; by rewrite lookup_delete_ne, lookup_insert_ne|].
      intros path _ Htemp. by rewrite lookup_delete_ne, lookup_insert_ne. }
  intros [= <-]. split; [done|]. done.
Qed.

End SnapshotFileFacts.

(* --------------------------------------------------------------------- *)
(** ** Folder indices *)
(* --------------------------------------------------------------------- *)

(** On an array of distinct folders [update_folder_indices] sets the idx of
    the folder at position [i] to [i], changes no other field, and leaves
    every entry outside the array as it was. *)
Theorem update_folder_indices_by_position (h : Heap) (folders : list nat) :
  NoDup folders →
  (∀ i p, folders !! i = Some p →
     update_folder_indices h folders !! p = db_entry_set_idx (Z.of_nat i) <$> h !! p)
  ∧ (∀ p, p ∉ folders → update_folder_indices h folders !! p = h !! p).
Proof.
  intros Hnodup. unfold update_folder_indices.
  destruct (update_folder_indices_from_lookup folders h 0 Hnodup) as [Hin Hout].
  split; [|done]. intros i p Hi. by rewrite (Hin i p Hi), Z.add_0_l.
Qed.

(* --------------------------------------------------------------------- *)
(** ** Sorted arrays: one array, and what the loader accepts *)
(* --------------------------------------------------------------------- *)

Lemma uint32_elements_concat (l : list Z) (tail : list Z) :
  Forall (λ v, 0 <= v < 2 ^ 32) l →
  uint32_elements (length l) (concat (le_bytes 4 <$> l) ++ tail) = l.
Proof.
  induction 1 as [|v l Hv _ IH]; [done|].
  cbn [length uint32_elements fmap list_fmap concat].
  change (list_fmap Z (list Z) (le_bytes 4) l) with (le_bytes 4 <$> l).
  rewrite <- app_assoc.
  rewrite take_app_length' by (by rewrite le_bytes_length).
  rewrite drop_app_length' by (by rewrite le_bytes_length).
  by rewrite IH, le_value_le_bytes_4.
Qed.

Lemma concat_le_bytes_length (l : list Z) :
  length (concat (le_bytes 4 <$> l)) = (4 * length l)%nat.
Proof.
  induction l as [|v l IH]; [done|].
  cbn [length fmap list_fmap concat].
  change (list_fmap Z (list Z) (le_bytes 4) l) with (le_bytes 4 <$> l).
  rewrite length_app, le_bytes_length, IH. lia.
Qed.

(** One sorted array survives the round trip.  When the idx of every entry
    of the source array is its position there and the sorted array has the
    length of the source array and holds entries of it only, what
    [save_sorted_entries] writes is read back by [load_sorted_entries],
    which consumes these bytes and no more and yields, position by
    position, the slot of the source array that holds the entry. *)
Theorem sorted_entries_roundtrip (fp fp' : FILE) (h : Heap) (src entries : list nat)
    (n : Z) (rest : list Z) :
  Z.of_nat (length src) < 2 ^ 32 →
  idx_is_position h src →
  length entries = length src →
  (∀ p, p ∈ entries → p ∈ src) →
  save_sorted_entries fp h entries (length src) = Some (n, fp') →
  ∃ data dest,
    file_bytes fp' = file_bytes fp ++ data
    ∧ load_sorted_entries (data ++ rest) (length src) = Some (dest, rest)
    ∧ Forall2 (λ p slot, src !! slot = Some p) entries dest.
Proof.
  intros Hcount Hidx Hlen Hsub. unfold save_sorted_entries.
  case_bool_decide as Hnone.
  { intros [= <- <-]. exists [], [].
    destruct src; [|simpl in Hnone; lia]. destruct entries; [|done].
    rewrite app_nil_r. split; [done|]. split; [done|]. constructor. }
  intros Hsave. apply bind_Some in Hsave as (indexes & Hbuild & Hwrite).
  apply write_data_to_file_inv in Hwrite as [Hbytes _].
  unfold build_sorted_entry_index_list in Hbuild. apply mapM_Some in Hbuild.
  (* the idx written for each position is the slot of the entry in [src] *)
  assert (Forall2 (λ p v, ∃ slot, v = Z.of_nat slot ∧ src !! slot = Some p) entries indexes)
    as Hslots.
  { apply Forall2_same_length_lookup. split.
    { apply Forall2_length in Hbuild. rewrite length_seq in Hbuild. lia. }
    intros i p v Hp Hv.
    assert (seq 0 (length src) !! i = Some i) as Hi.
    { apply lookup_seq. split; [done|]. rewrite <- Hlen. by eapply lookup_lt_Some. }
    pose proof (Forall2_lookup_lr _ _ _ _ _ _ Hbuild Hi Hv) as Hget.
    cbv beta in Hget. rewrite Hp in Hget. cbn [mbind option_bind] in Hget.
    destruct (list_elem_of_lookup_1 src p) as [slot Hslot];
      [apply Hsub; by eapply list_elem_of_lookup_2|].
    rewrite (Hidx slot p Hslot) in Hget. injection Hget as <-. eauto. }
  assert (length indexes = length src) as Hilen
    by (apply Forall2_length in Hslots; lia).
  assert (Forall (λ v, 0 <= v < 2 ^ 32) indexes) as Hrange.
  { apply Forall_forall. intros v Hv.
    apply list_elem_of_lookup_1 in Hv as [i Hv].
    destruct (Forall2_lookup_r _ _ _ _ _ Hslots Hv) as (p & _ & slot & -> & Hslot).
    apply lookup_lt_Some in Hslot. lia. }
  exists (concat (le_bytes 4 <$> indexes)), (Z.to_nat <$> indexes).
  split; [done|]. split.
  - unfold load_sorted_entries, read_elements_from_file.
    rewrite bool_decide_eq_true_2 by (rewrite length_app, concat_le_bytes_length; lia).
    rewrite <- Hilen, <- concat_le_bytes_length.
    rewrite take_app_length, drop_app_length. cbn [mbind option_bind].
    rewrite <- (app_nil_r (concat _)), uint32_elements_concat by done.
    assert (mapM (λ idx, if bool_decide (0 <= idx < Z.of_nat (length indexes))
                         then Some (Z.to_nat idx) else None) indexes
            = Some (Z.to_nat <$> indexes)) as ->; [|done].
    apply mapM_Some. apply Forall2_fmap_r, Forall_Forall2_diag.
    apply Forall_forall. intros v Hv.
    apply list_elem_of_lookup_1 in Hv as [i Hv].
    destruct (Forall2_lookup_r _ _ _ _ _ Hslots Hv) as (p & _ & slot & -> & Hslot).
    apply lookup_lt_Some in Hslot. rewrite bool_decide_eq_true_2 by lia. done.
  - apply Forall2_fmap_r. eapply Forall2_impl; [exact Hslots|].
    intros p v (slot & -> & Hslot). simpl. by rewrite Nat2Z.id.
Qed.

Lemma uint32_elements_length (nmemb : nat) (buf : list Z) :
  length (uint32_elements nmemb buf) = nmemb.
Proof. revert buf. induction nmemb as [|n IH]; intros buf; simpl; [done|]. by rewrite IH. Qed.

Lemma load_sorted_entries_slots (fp rest : list Z) (num : nat) (dest : list nat) :
  load_sorted_entries fp num = Some (dest, rest) →
  length dest = num ∧ Forall (λ slot, (slot < num)%nat) dest.
Proof.
  unfold load_sorted_entries. intros Hload.
  apply bind_Some in Hload as ([buf fp1] & _ & Hload).
  apply bind_Some in Hload as (dest' & Hdest & Hload). injection Hload as <- <-.
  apply mapM_Some in Hdest. split.
  - apply Forall2_length in Hdest. by rewrite uint32_elements_length in Hdest.
  - apply Forall_forall. intros slot Hslot.
    apply list_elem_of_lookup_1 in Hslot as [i Hslot].
    destruct (Forall2_lookup_r _ _ _ _ _ Hdest Hslot) as (idx & _ & Hcheck).
    case_bool_decide; [|done]. injection Hcheck as <-. lia.
Qed.

Lemma load_sorted_arrays_loop_ok (todo : nat) (fp : list Z) (num_folders num_files : nat)
    (sorted_folders sorted_files sorted_folders' sorted_files'
       : gmap FsearchDatabaseIndexProperty (list nat)) :
  sorted_arrays_ok num_folders sorted_folders →
  sorted_arrays_ok num_files sorted_files →
  (∀ k, is_Some (sorted_folders !! k) ↔ is_Some (sorted_files !! k)) →
  load_sorted_arrays_loop fp num_folders num_files todo sorted_folders sorted_files
  = Some (sorted_folders', sorted_files') →
  sorted_arrays_ok num_folders sorted_folders'
  ∧ sorted_arrays_ok num_files sorted_files'
  ∧ (∀ k, is_Some (sorted_folders' !! k) ↔ is_Some (sorted_files' !! k)).
Proof.
  revert fp sorted_folders sorted_files.
  induction todo as [|todo IH]; intros fp sorted_folders sorted_files Hf Hfl Hpair Hload.
  { by injection Hload as <- <-. }
  cbn [load_sorted_arrays_loop] in Hload.
  apply bind_Some in Hload as ([b fp1] & _ & Hload).
  case_bool_decide as Hid; [done|].
  apply bind_Some in Hload as (id & Hcode & Hload).
  apply bind_Some in Hload as ([folders fp2] & Hfolders & Hload).
  apply bind_Some in Hload as ([files fp3] & Hfiles & Hload).
  apply load_sorted_entries_slots in Hfolders as [Hflen Hfslots].
  apply load_sorted_entries_slots in Hfiles as [Hfllen Hflslots].
  assert (id ∈ sorted_array_ids) as Hin.
  { unfold NUM_DATABASE_INDEX_PROPERTIES in Hid. simpl in Hid.
    assert (Z.to_nat (le_value b) = 1 ∨ Z.to_nat (le_value b) = 2
            ∨ Z.to_nat (le_value b) = 3 ∨ Z.to_nat (le_value b) = 4)%nat
      as [Hc|[Hc|[Hc|Hc]]] by lia;
      rewrite Hc in Hcode; injection Hcode as <-;
      unfold sorted_array_ids; simpl; rewrite !elem_of_cons; tauto. }
  apply (IH fp3 (<[id := folders]> sorted_folders) (<[id := files]> sorted_files)); [| | |done].
  - intros k l. destruct (decide (k = id)) as [->|Hne].
    + rewrite lookup_insert_eq. by intros [= <-].
    + rewrite lookup_insert_ne by done. apply Hf.
  - intros k l. destruct (decide (k = id)) as [->|Hne].
    + rewrite lookup_insert_eq. by intros [= <-].
    + rewrite lookup_insert_ne by done. apply Hfl.
  - intros k. destruct (decide (k = id)) as [->|Hne].
    + rewrite !lookup_insert_eq. split; eauto.
    + rewrite !lookup_insert_ne by done. apply Hpair.
Qed.

(** Whatever [load_sorted_arrays] accepts is well-formed: every array it
    fills belongs to a sort id from 1 on, has the length of the folder
    (file) array and holds slots of that array only, and a sort id has a
    folder array exactly when it has a file array. *)
Theorem load_sorted_arrays_well_formed (fp : list Z) (num_folders num_files : nat)
    (sorted_folders sorted_files : gmap FsearchDatabaseIndexProperty (list nat)) :
  load_sorted_arrays fp num_folders num_files = Some (sorted_folders, sorted_files) →
  sorted_arrays_ok num_folders sorted_folders
  ∧ sorted_arrays_ok num_files sorted_files
  ∧ (∀ k, is_Some (sorted_folders !! k) ↔ is_Some (sorted_files !! k)).
Proof.
  unfold load_sorted_arrays. intros Hload.
  apply bind_Some in Hload as ([b fp1] & _ & Hload).
  apply load_sorted_arrays_loop_ok in Hload; [done|..].
  - intros k l. by rewrite lookup_empty.
  - intros k l. by rewrite lookup_empty.
  - intros k. by rewrite !lookup_empty.
Qed.

(* --------------------------------------------------------------------- *)
(** ** Entry blocks: what the loader accepts *)
(* --------------------------------------------------------------------- *)

Section LoaderFacts.

Context (FLAG_SIZE FLAG_MODIFICATION_TIME : Z) (pool_entry : FsearchDatabaseEntry).

Lemma load_entry_super_elements_from_memory_fields (data_block rest : list Z)
    (index_flags : Z) (entry loaded : FsearchDatabaseEntry) (prev prev' : list Z) :
  load_entry_super_elements_from_memory FLAG_SIZE FLAG_MODIFICATION_TIME data_block
    index_flags entry prev = Some (rest, loaded, prev') →
  e_type loaded = e_type entry ∧ e_idx loaded = e_idx entry
  ∧ e_parent loaded = e_parent entry.
Proof.
  unfold load_entry_super_elements_from_memory. cbv zeta. intros Hload.
  apply bind_Some in Hload as ([b1 d1] & _ & Hload).
  apply bind_Some in Hload as ([b2 d2] & _ & Hload).
  apply bind_Some in Hload as ([name d3] & _ & Hload).
  apply bind_Some in Hload as ([e4 d4] & Hsize & Hload).
  apply bind_Some in Hload as ([e5 d5] & Hmtime & Hload).
  injection Hload as _ <- _.
  assert (e_type e4 = e_type entry ∧ e_idx e4 = e_idx entry ∧ e_parent e4 = e_parent entry)
    as (Ht4 & Hi4 & Hp4).
  { destruct (bool_decide (Z.land index_flags FLAG_SIZE ≠ 0)).
    - apply bind_Some in Hsize as ([size d] & _ & [= <- _]). done.
    - by injection Hsize as <- _. }
  destruct (bool_decide (Z.land index_flags FLAG_MODIFICATION_TIME ≠ 0)).
  - apply bind_Some in Hmtime as ([mtime d] & _ & [= <- _]). done.
  - by injection Hmtime as <- _.
Qed.

Lemma folder_slot_lt (folders : list FsearchDatabaseEntry) (parent_idx : Z) (slot : nat) :
  folder_slot folders parent_idx = Some slot → (slot < length folders)%nat.
Proof. unfold folder_slot. case_bool_decide; [|done]. intros [= <-]. lia. Qed.

Lemma load_folders_loop_ok (todo : nat) (fb fb' : list Z) (index_flags : Z)
    (folders folders' : list FsearchDatabaseEntry) (idx : nat) (prev : list Z) :
  (∀ i d, folders !! i = Some d →
     loaded_entry_ok DATABASE_ENTRY_TYPE_FOLDER (length folders) i d) →
  load_folders_loop FLAG_SIZE FLAG_MODIFICATION_TIME fb index_flags folders idx todo prev
  = Some (fb', folders') →
  length folders' = length folders
  ∧ ∀ i d, folders' !! i = Some d →
      loaded_entry_ok DATABASE_ENTRY_TYPE_FOLDER (length folders) i d.
Proof.
  revert fb folders idx prev.
  induction todo as [|todo IH]; intros fb folders idx prev Hok Hload.
  { by injection Hload as <- <-. }
  cbn [load_folders_loop] in Hload.
  apply bind_Some in Hload as (entry & Hentry & Hload).
  apply bind_Some in Hload as ([b1 fb1] & _ & Hload).
  apply bind_Some in Hload as ([[fb2 loaded] prev2] & Hsuper & Hload).
  apply bind_Some in Hload as ([b3 fb3] & _ & Hload).
  apply load_entry_super_elements_from_memory_fields in Hsuper as (Htype & Hidx & _).
  destruct (Hok idx entry Hentry) as (Hetype & Heidx & _).
  apply IH in Hload.
  - rewrite length_insert in Hload. done.
  - rewrite length_insert. intros i d Hd.
    destruct (decide (i = idx)) as [->|Hne].
    + rewrite list_lookup_insert_eq in Hd by (by eapply lookup_lt_Some).
      injection Hd as <-. unfold loaded_entry_ok.
      case_bool_decide; cbn [e_type e_idx e_parent db_entry_set_parent];
        (split; [congruence|]); (split; [congruence|]); [|done].
      intros parent Hparent. by eapply folder_slot_lt.
    + rewrite list_lookup_insert_ne in Hd by done. by apply Hok.
Qed.

Lemma load_files_loop_ok (todo : nat) (fb fb' : list Z) (index_flags : Z)
    (folders files files' : list FsearchDatabaseEntry) (prev : list Z) :
  (∀ i d, files !! i = Some d →
     loaded_entry_ok DATABASE_ENTRY_TYPE_FILE (length folders) i d) →
  load_files_loop FLAG_SIZE FLAG_MODIFICATION_TIME pool_entry fb index_flags folders files
    (length files) todo prev = Some (fb', files') →
  length files' = (length files + todo)%nat
  ∧ ∀ i d, files' !! i = Some d →
      loaded_entry_ok DATABASE_ENTRY_TYPE_FILE (length folders) i d.
Proof.
  revert fb files prev.
  induction todo as [|todo IH]; intros fb files prev Hok Hload.
  { injection Hload as <- <-. split; [lia|done]. }
  cbn [load_files_loop] in Hload.
  apply bind_Some in Hload as ([[fb2 loaded] prev2] & Hsuper & Hload).
  apply bind_Some in Hload as ([b3 fb3] & _ & Hload).
  apply load_entry_super_elements_from_memory_fields in Hsuper as (Htype & Hidx & _).
  replace (S (length files)) with (length (files ++ [db_entry_set_parent
             (folder_slot folders (le_value b3)) loaded])) in Hload
    by (rewrite length_app; simpl; lia).
  apply IH in Hload.
  - rewrite length_app in Hload. simpl in Hload. split; [lia|]. apply Hload.
  - intros i d Hd. apply lookup_app_Some in Hd as [Hd|[Hi Hd]]; [by apply Hok|].
    apply list_lookup_singleton_Some in Hd as [Hi0 <-].
    assert (i = length files) as -> by lia.
    unfold loaded_entry_ok. cbn [e_type e_idx e_parent db_entry_set_parent].
    split; [by rewrite Htype|]. split; [by rewrite Hidx|].
    intros parent Hparent. by eapply folder_slot_lt.
Qed.

(** Whatever blocks [load_folders] and [load_files] accept yield well-formed
    entries: the two block sizes are the numbers of bytes consumed, the
    arrays have the announced lengths, the entry in slot [i] has the type
    of its array and idx [i], and a parent is a slot of the loaded folder
    array. *)
Theorem load_entry_blocks_well_formed (fp rest : list Z) (index_flags : Z)
    (num_folders num_files folder_block_size file_block_size : nat)
    (folders files : list FsearchDatabaseEntry) :
  load_entry_blocks FLAG_SIZE FLAG_MODIFICATION_TIME pool_entry fp index_flags
    num_folders num_files folder_block_size file_block_size = Some (rest, folders, files) →
  rest = drop file_block_size (drop folder_block_size fp)
  ∧ length folders = num_folders
  ∧ length files = num_files
  ∧ (∀ i d, folders !! i = Some d →
       loaded_entry_ok DATABASE_ENTRY_TYPE_FOLDER num_folders i d)
  ∧ (∀ i d, files !! i = Some d →
       loaded_entry_ok DATABASE_ENTRY_TYPE_FILE num_folders i d).
Proof.
  intros Hload. unfold load_entry_blocks in Hload. cbv zeta in Hload.
  apply bind_Some in Hload as ([fp1 folders1] & Hfolders & Hload).
  apply bind_Some in Hload as ([fp2 files2] & Hfiles & Hload).
  injection Hload as <- <- <-.
  pose proof (load_folders_rest _ _ _ _ _ _ _ _ _ Hfolders) as ->.
  pose proof (load_files_rest _ _ _ _ _ _ _ _ _ _ Hfiles) as ->.
  split; [done|].
  assert (length (preallocated_folders pool_entry num_folders) = num_folders) as Hprelen
    by (unfold preallocated_folders; by rewrite length_fmap, length_seq).
  unfold load_folders in Hfolders. cbv zeta in Hfolders.
  case_bool_decide; [done|].
  apply bind_Some in Hfolders as ([fb1 folders1'] & Hloop & Hfolders).
  case_bool_decide; [done|]. injection Hfolders as <-.
  apply load_folders_loop_ok in Hloop as [Hflen Hfok].
  2:{ intros i d Hd. unfold preallocated_folders in Hd.
      rewrite list_lookup_fmap in Hd.
      destruct (seq 0 num_folders !! i) as [i'|] eqn:Hi; [|done].
      apply lookup_seq in Hi as [-> _]. injection Hd as <-.
      unfold loaded_entry_ok. simpl. done. }
  rewrite Hprelen in Hflen, Hfok.
  unfold load_files in Hfiles. cbv zeta in Hfiles.
  case_bool_decide; [done|].
  apply bind_Some in Hfiles as ([fb2 files2'] & Hloop & Hfiles).
  case_bool_decide; [done|]. injection Hfiles as <-.
  apply (load_files_loop_ok num_files _ _ _ _ []) in Hloop as [Hfllen Hflok]; [|done].
  rewrite Hflen in Hflok. done.
Qed.

End LoaderFacts.

(* --------------------------------------------------------------------- *)
(** ** The two record decoders *)
(* --------------------------------------------------------------------- *)

Lemma read_element_is_copy_bytes (size : nat) (stream : list Z) :
  size ≠ 0%nat → read_element_from_file size stream = copy_bytes_and_return_new_src stream size.
Proof.
  intros Hsize. unfold read_element_from_file, copy_bytes_and_return_new_src.
  repeat case_bool_decide; (done || tauto).
Qed.

Lemma load_entry_super_elements_size_only (FLAG_SIZE FLAG_MODIFICATION_TIME : Z)
    (fp : list Z) (index_flags : Z) (entry : FsearchDatabaseEntry) (prev : list Z) :
  Z.land index_flags FLAG_SIZE ≠ 0 →
  Z.land index_flags FLAG_MODIFICATION_TIME = 0 →
  load_entry_super_elements fp entry prev
  = load_entry_super_elements_from_memory FLAG_SIZE FLAG_MODIFICATION_TIME fp index_flags
      entry prev.
Proof.
  intros Hsize Hmtime.
  unfold load_entry_super_elements, load_entry_super_elements_from_memory. cbv zeta.
  rewrite (read_element_is_copy_bytes 1) by done.
  destruct (copy_bytes_and_return_new_src fp 1) as [[b1 fp1]|]; [|done].
  cbn [mbind option_bind]. rewrite (read_element_is_copy_bytes 1) by done.
  destruct (copy_bytes_and_return_new_src fp1 1) as [[b2 fp2]|]; [|done].
  cbn [mbind option_bind].
  assert ((if le_value b2 >? 0 then read_element_from_file (Z.to_nat (le_value b2)) fp2
           else Some ([], fp2))
          = (if le_value b2 >? 0
             then copy_bytes_and_return_new_src fp2 (Z.to_nat (le_value b2))
             else Some ([], fp2))) as ->.
  { destruct (Z.gtb_spec (le_value b2) 0); [|done].
    apply read_element_is_copy_bytes. lia. }
  destruct (if le_value b2 >? 0 then _ else _) as [[name fp3]|]; [|done].
  cbn [mbind option_bind]. rewrite (read_element_is_copy_bytes 8) by done.
  rewrite (bool_decide_eq_true_2 _ Hsize).
  destruct (copy_bytes_and_return_new_src fp3 8) as [[size fp4]|]; [|done].
  cbn [mbind option_bind]. by rewrite bool_decide_eq_false_2 by tauto.
Qed.

(** The decoder that reads a record from the stream always reads a size and
    never a modification time: it reads a record to its end, with some
    result, exactly when the decoder that reads from memory does so for
    flags with the size flag and without the time flag. *)
Theorem load_entry_super_elements_agree (FLAG_SIZE FLAG_MODIFICATION_TIME : Z)
    (fp : list Z) (index_flags : Z) (entry : FsearchDatabaseEntry) (prev : list Z)
    (result : list Z * FsearchDatabaseEntry * list Z) :
  Z.land index_flags FLAG_SIZE ≠ 0 →
  Z.land index_flags FLAG_MODIFICATION_TIME = 0 →
  load_entry_super_elements fp entry prev = Some result
  ↔ load_entry_super_elements_from_memory FLAG_SIZE FLAG_MODIFICATION_TIME fp index_flags
      entry prev = Some result.
Proof.
  intros Hsize Hmtime.
  by rewrite (load_entry_super_elements_size_only FLAG_SIZE FLAG_MODIFICATION_TIME fp
                index_flags entry prev Hsize Hmtime).
Qed.

(* --------------------------------------------------------------------- *)
(** ** The theorems at concrete inputs *)
(* --------------------------------------------------------------------- *)

Lemma token_sticky : cancellable_sticky (Some Examples.token).
Proof.
  intros token [= <-] p q Hpq. unfold Examples.token.
  rewrite !bool_decide_eq_true. lia.
Qed.

Lemma tree_wf : store_entries_wf Examples.tree [1; 2]%nat [3%nat].
Proof.
  assert (∀ name size mtime,
            bool_decide (name_ok name) = true → bool_decide (in_int64 size) = true →
            bool_decide (in_int64 mtime) = true →
            ∀ type parent,
              entry_fields_ok (Examples.entry type name size mtime parent)) as Hfields.
  { intros name size mtime Hname Hsize Hmtime type parent.
    split; [|split]; simpl; by eapply bool_decide_eq_true_1. }
  split.
  - apply NoDup_cons. split; [|apply NoDup_singleton].
    rewrite elem_of_cons, elem_of_nil. intros [?|[]]. done.
  - simpl. lia.
  - simpl. lia.
  - intros p Hp. rewrite !elem_of_cons, elem_of_nil in Hp.
    destruct Hp as [->|[->|[]]]; eexists; (split; [reflexivity|]);
      (split; [done|]); (split; [by apply Hfields; vm_compute|]); simpl; [done|].
    split; [|done]. rewrite elem_of_cons. by left.
  - intros p Hp. rewrite elem_of_cons, elem_of_nil in Hp.
    destruct Hp as [->|[]]. eexists. split; [reflexivity|].
    split; [done|]. split; [by apply Hfields; vm_compute|].
    exists 2%nat. split; [done|]. rewrite !elem_of_cons. tauto.
Qed.

(** C2: the round trip at the store [Examples.tree], saved with the size
    flag alone.  The second folder comes back with its name of 355 bytes,
    and the modification times are those of the fresh entry. *)
Lemma entry_blocks_roundtrip_witness :
  store_entries_wf Examples.tree [1; 2]%nat [3%nat]
  ∧ names_fit [] (entry_names Examples.tree [1; 2]%nat)
  ∧ names_fit [] (entry_names Examples.tree [3%nat])
  ∧ (∃ fp' h',
       save_entry_blocks Examples.FLAG_SIZE Examples.FLAG_MODIFICATION_TIME
         Examples.file 4 Examples.tree [1; 2]%nat [3%nat]
       = Some (387, 17, fp', h'))
  ∧ ∃ blocks loaded_folders loaded_files,
      load_entry_blocks Examples.FLAG_SIZE Examples.FLAG_MODIFICATION_TIME
        Examples.pool_entry (blocks ++ []) 4 2 1 387 17
      = Some ([], loaded_folders, loaded_files)
      ∧ Forall2 (λ p d, ∃ e, Examples.tree !! p = Some e
                         ∧ entry_agrees Examples.FLAG_SIZE Examples.FLAG_MODIFICATION_TIME
                             Examples.pool_entry 4 [1; 2]%nat e d)
          [1; 2]%nat loaded_folders
      ∧ Forall2 (λ p d, ∃ e, Examples.tree !! p = Some e
                         ∧ entry_agrees Examples.FLAG_SIZE Examples.FLAG_MODIFICATION_TIME
                             Examples.pool_entry 4 [1; 2]%nat e d)
          [3%nat] loaded_files
      ∧ ∃ d, loaded_folders !! 1%nat = Some d
             ∧ e_name d = replicate 255 97 ++ replicate 100 98
             ∧ e_size d = 5 ∧ e_mtime d = 0.
Proof.
  assert (names_fit [] (entry_names Examples.tree [1; 2]%nat)) as Hfolder_names
    by (split; [|split]; by vm_compute).
  assert (names_fit [] (entry_names Examples.tree [3%nat])) as Hfile_names
    by (split; by vm_compute).
  assert (∃ fp' h',
            save_entry_blocks Examples.FLAG_SIZE Examples.FLAG_MODIFICATION_TIME
              Examples.file 4 Examples.tree [1; 2]%nat [3%nat]
            = Some (387, 17, fp', h')) as Hsaved
    by (vm_compute; eauto).
  split; [exact tree_wf|]. split; [exact Hfolder_names|]. split; [exact Hfile_names|].
  split; [exact Hsaved|].
  destruct Hsaved as (fp' & h' & Hsave).
  destruct (entry_blocks_roundtrip Examples.FLAG_SIZE Examples.FLAG_MODIFICATION_TIME
              Examples.pool_entry 4 Examples.tree h' [1; 2]%nat [3%nat] Examples.file fp'
              387 17 [] tree_wf Hfolder_names Hfile_names Hsave)
    as (blocks & loaded_folders & loaded_files & _ & Hload & Hfolders & Hfiles).
  exists blocks, loaded_folders, loaded_files.
  split; [exact Hload|]. split; [exact Hfolders|]. split; [exact Hfiles|].
  destruct (Forall2_lookup_l _ _ _ 1%nat 2%nat Hfolders eq_refl)
    as (d & Hd & e & He & Hname & _ & Hsize & Hmtime & _).
  injection He as <-. exists d. by repeat split.
Defined.

(** C2 (as stated) fails twice over.  Saved without the size flag, the
    root folder "a" of size 7 is loaded with the size the fresh entry had;
    and a root folder whose name has 256 bytes, all of them new characters,
    is written with a name length of 0 and loaded with the empty name. *)
Lemma entry_blocks_roundtrip_fails :
  (∃ fp' h' d,
     save_entry_blocks Examples.FLAG_SIZE Examples.FLAG_MODIFICATION_TIME
       Examples.file 0 Examples.heap [10%nat] [] = Some (9, 0, fp', h')
     ∧ load_entry_blocks Examples.FLAG_SIZE Examples.FLAG_MODIFICATION_TIME
         Examples.pool_entry (file_bytes fp') 0 1 0 9 0 = Some ([], [d], [])
     ∧ (e_size <$> Examples.heap !! 10%nat) = Some 7
     ∧ e_size d = 0)
  ∧ (∃ fp' h' d,
       save_entry_blocks Examples.FLAG_SIZE Examples.FLAG_MODIFICATION_TIME
         Examples.file 12 Examples.long_name [1%nat] [] = Some (24, 0, fp', h')
       ∧ load_entry_blocks Examples.FLAG_SIZE Examples.FLAG_MODIFICATION_TIME
           Examples.pool_entry (file_bytes fp') 12 1 0 24 0 = Some ([], [d], [])
       ∧ (e_name <$> Examples.long_name !! 1%nat) = Some (replicate 256 97)
       ∧ e_name d = []).
Proof.
  split.
  - do 3 eexists. split; [vm_compute; reflexivity|]. vm_compute. done.
  - do 3 eexists. split; [vm_compute; reflexivity|]. vm_compute. done.
Qed.

(** [get_name_offset] at the names "abc" and "abde". *)
Lemma get_name_offset_longest_prefix_witness :
  name_ok [97; 98; 99] ∧ name_ok [97; 98; 100; 101]
  ∧ let offset := get_name_offset [97; 98; 99] [97; 98; 100; 101] in
    0 <= offset <= 255
    ∧ take (Z.to_nat offset) [97; 98; 99] = take (Z.to_nat offset) [97; 98; 100; 101]
    ∧ ∀ k : nat,
        (k ≤ 255)%nat → (k ≤ length [97; 98; 99])%nat → (k ≤ length [97; 98; 100; 101])%nat →
        take k [97; 98; 99] = take k [97; 98; 100; 101] → Z.of_nat k <= offset.
Proof.
  assert (name_ok [97; 98; 99]) as Hold by (repeat constructor; lia).
  assert (name_ok [97; 98; 100; 101]) as Hnew by (repeat constructor; lia).
  split; [exact Hold|]. split; [exact Hnew|].
  exact (get_name_offset_longest_prefix _ _ Hold Hnew).
Defined.

(** The record of a folder whose name has 256 bytes, written after the
    empty name: [name_len] wraps around to 0 and the loader sets the empty
    name. *)
Lemma record_name_reproduced_iff_witness :
  let entry := Examples.entry DATABASE_ENTRY_TYPE_FOLDER (replicate 256 97) 7 8 None in
  name_ok (e_name entry)
  ∧ (∃ fp',
       save_entry_super_elements Examples.FLAG_SIZE Examples.FLAG_MODIFICATION_TIME
         Examples.file 12 entry 0 [] = Some (22, e_name entry, fp'))
  ∧ ∃ super loaded,
      load_entry_super_elements_from_memory Examples.FLAG_SIZE
        Examples.FLAG_MODIFICATION_TIME (super ++ []) 12 Examples.pool_entry []
      = Some ([], loaded, [])
      ∧ e_name loaded = []
      ∧ e_name loaded ≠ e_name entry.
Proof.
  set (entry := Examples.entry DATABASE_ENTRY_TYPE_FOLDER (replicate 256 97) 7 8 None).
  assert (name_ok (e_name entry)) as Hname
    by (apply (bool_decide_eq_true_1 (name_ok (e_name entry))); vm_compute; reflexivity).
  assert (∃ fp',
            save_entry_super_elements Examples.FLAG_SIZE Examples.FLAG_MODIFICATION_TIME
              Examples.file 12 entry 0 [] = Some (22, e_name entry, fp')) as Hsaved
    by (vm_compute; eauto).
  split; [exact Hname|]. split; [exact Hsaved|].
  destruct Hsaved as (fp' & Hsave).
  destruct (record_name_reproduced_iff Examples.FLAG_SIZE Examples.FLAG_MODIFICATION_TIME
              Examples.file fp' 12 entry 0 [] (e_name entry) 22 Hname Hsave)
    as (_ & super & _ & Hload).
  destruct (Hload [] Examples.pool_entry) as (loaded & Hloaded & Hloaded_name & Hiff).
  exists super, loaded. split; [exact Hloaded|]. split; [exact Hloaded_name|].
  intros Hsame. apply Hiff in Hsame. vm_compute in Hsame. by apply Hsame.
Defined.

(** C5 at a token that is cancelled from the third program point on. *)
Lemma index_store_start_cancelled_witness :
  cancellable_sticky (Some Examples.token)
  ∧ (∃ p, (p ≤ POINT_FINAL_CHECK)%nat ∧ Examples.token p = true)
  ∧ let self := index_store_start Examples.scan_include Examples.sort_entries
                  (index_store_new [Examples.home] [] 0) (Some Examples.token) in
    store_indices self = []
    ∧ (∀ k, store_file_container self !! k = None ∧ store_folder_container self !! k = None)
    ∧ store_running self = false.
Proof.
  assert (∃ p, (p ≤ POINT_FINAL_CHECK)%nat ∧ Examples.token p = true) as Hcancelled
    by (exists 3%nat; split; [unfold POINT_FINAL_CHECK; lia|reflexivity]).
  split; [exact token_sticky|]. split; [exact Hcancelled|].
  exact (index_store_start_cancelled Examples.scan_include Examples.sort_entries
           [Examples.home] [] 0 Examples.token token_sticky Hcancelled).
Defined.

(** C6 at the descending view of folder 10 and files 20, 21: position 0
    is the last file. *)
Lemma get_entry_for_idx_folded_witness :
  view_folder_container Examples.view
  = Some (Examples.container DATABASE_ENTRY_TYPE_FOLDER [10%nat])
  ∧ view_file_container Examples.view
    = Some (Examples.container DATABASE_ENTRY_TYPE_FILE [20; 21]%nat)
  ∧ 1 + 2 <= 2 ^ 32
  ∧ 0 <= 0 < 1 + 2
  ∧ get_entry_for_idx Examples.view 0 = [10; 20; 21]%nat !! Z.to_nat (1 + 2 - 1 - 0).
Proof.
  assert (1 + 2 <= 2 ^ 32) as Hsum by lia.
  assert (0 <= 0 < 1 + 2) as Hidx by lia.
  split; [reflexivity|]. split; [reflexivity|]. split; [exact Hsum|]. split; [exact Hidx|].
  exact (get_entry_for_idx_folded Examples.view
           (Examples.container DATABASE_ENTRY_TYPE_FOLDER [10%nat])
           (Examples.container DATABASE_ENTRY_TYPE_FILE [20; 21]%nat) 0
           eq_refl eq_refl Hsum Hidx).
Defined.

(** C7 at the same view, registered under id 1: position 3 holds nothing. *)
Lemma get_entry_for_idx_out_of_range_witness :
  get_search_view Examples.database 1 = Some Examples.view
  ∧ 0 <= 3 < 2 ^ 32
  ∧ get_num_search_folder_results Examples.view + get_num_search_file_results Examples.view <= 3
  ∧ get_entry_for_idx Examples.view 3 = None
  ∧ get_entry_info_non_blocking Examples.heap Examples.database 1 3 0
    = (FSEARCH_RESULT_DB_ENTRY_NOT_FOUND, None).
Proof.
  assert (get_search_view Examples.database 1 = Some Examples.view) as Hview by reflexivity.
  assert (0 <= 3 < 2 ^ 32) as Hidx by lia.
  assert (get_num_search_folder_results Examples.view
          + get_num_search_file_results Examples.view <= 3) as Hrange
    by (vm_compute; discriminate).
  split; [exact Hview|]. split; [exact Hidx|]. split; [exact Hrange|].
  exact (get_entry_for_idx_out_of_range Examples.heap Examples.database 1 Examples.view 3 0
           Hview Hidx Hrange).
Defined.

(** C8 at a store that was created, started without a token and then
    told about a new file. *)
Lemma fast_sort_indices_invariant_witness :
  let self := index_store_add_entries Examples.insert_sorted
                (index_store_start Examples.scan_include Examples.sort_entries
                   (index_store_new [Examples.home] [] 0) None)
                [22%nat] false in
  store_reachable Examples.scan_include Examples.sort_entries Examples.insert_sorted self
  ∧ fast_sort_invariant self.
Proof.
  assert (store_reachable Examples.scan_include Examples.sort_entries Examples.insert_sorted
            (index_store_add_entries Examples.insert_sorted
               (index_store_start Examples.scan_include Examples.sort_entries
                  (index_store_new [Examples.home] [] 0) None)
               [22%nat] false)) as Hreach.
  { apply reachable_add_entries, reachable_start; [apply reachable_new|]. by intros token. }
  split; [exact Hreach|].
  exact (fast_sort_indices_invariant Examples.scan_include Examples.sort_entries
           Examples.insert_sorted _ Hreach).
Defined.

(** C10 at the view of three results: a "select all" whose start index is
    3 changes nothing and posts nothing. *)
Lemma modify_selection_no_start_entry_witness :
  get_search_view Examples.database 1 = Some Examples.view
  ∧ get_entry_for_idx Examples.view (uint32_t 3) = None
  ∧ modify_selection Examples.heap Examples.database 1 FSEARCH_SELECTION_TYPE_ALL 3 0
    = Some (Examples.database, []).
Proof.
  split; [reflexivity|]. split; [reflexivity|].
  exact (modify_selection_no_start_entry Examples.heap Examples.database 1 Examples.view
           FSEARCH_SELECTION_TYPE_ALL 3 0 eq_refl eq_refl).
Defined.

(** The loop of [select_range] over the positions 0 to 2 of the view of
    three results. *)
Lemma range_loop_returns_witness :
  in_int32 0 ∧ in_int32 2
  ∧ ∃ view',
      range_loop Examples.heap fsearch_selection_select Examples.view 0 2 = Some view'
      ∧ range_loop_run Examples.heap fsearch_selection_select 2 Examples.view 0 view'.
Proof.
  assert (in_int32 0) as Hstart by (unfold in_int32; lia).
  assert (in_int32 2) as Hend by (unfold in_int32; lia).
  split; [exact Hstart|]. split; [exact Hend|].
  eexists. split; [reflexivity|].
  by apply (range_loop_returns Examples.heap fsearch_selection_select Examples.view _ 0 2
              Hstart Hend).
Defined.

(** C9 at the view of three results: the ranges (2, 0) and (0, 2) select
    the same three entries. *)
Lemma modify_selection_range_endpoints_witness :
  get_search_view Examples.database 1 = Some Examples.view
  ∧ in_int32 2 ∧ in_int32 0
  ∧ modify_selection Examples.heap Examples.database 1 FSEARCH_SELECTION_TYPE_SELECT_RANGE 2 0
    = modify_selection Examples.heap Examples.database 1
        FSEARCH_SELECTION_TYPE_SELECT_RANGE 0 2
  ∧ ∃ self info,
      modify_selection Examples.heap Examples.database 1
        FSEARCH_SELECTION_TYPE_SELECT_RANGE 2 0
      = Some (self, [EVENT_SELECTION_CHANGED 1 info])
      ∧ search_info_num_files_selected info = 2
      ∧ search_info_num_folders_selected info = 1.
Proof.
  assert (in_int32 2) as Ha by (unfold in_int32; lia).
  assert (in_int32 0) as Hb by (unfold in_int32; lia).
  assert (is_Some (get_entry_for_idx Examples.view (uint32_t 2))) as Hstart
    by (vm_compute; eauto).
  assert (is_Some (get_entry_for_idx Examples.view (uint32_t 0))) as Hend
    by (vm_compute; eauto).
  assert (Z.max 2 0 < INT32_MAX) as Hmax by (vm_compute; reflexivity).
  destruct (modify_selection_range_endpoints Examples.heap Examples.database 1
              Examples.view 2 0 eq_refl Ha Hb) as (Hselect & _ & Hrange).
  split; [reflexivity|]. split; [exact Ha|]. split; [exact Hb|].
  split; [by apply Hselect|].
  destruct (Hrange Hstart Hmax) as [-> _].
  do 2 eexists. split; [reflexivity|]. by vm_compute.
Defined.

(** C9 (as stated) fails.  On the view of three results the order of the
    endpoints 0 and 3 matters: position 3 holds no entry, so the range
    (3, 0) returns early while the range (0, 3) selects the three entries.
    And the range (0, INT32_MAX) leaves no selection state at all: its loop
    is never left. *)
Lemma range_endpoints_order_matters :
  modify_selection Examples.heap Examples.database 1 FSEARCH_SELECTION_TYPE_SELECT_RANGE 0 3
  ≠ modify_selection Examples.heap Examples.database 1 FSEARCH_SELECTION_TYPE_SELECT_RANGE 3 0
  ∧ modify_selection Examples.heap Examples.database 1 FSEARCH_SELECTION_TYPE_TOGGLE_RANGE 0 3
    ≠ modify_selection Examples.heap Examples.database 1
        FSEARCH_SELECTION_TYPE_TOGGLE_RANGE 3 0
  ∧ modify_selection Examples.heap Examples.database 1
      FSEARCH_SELECTION_TYPE_SELECT_RANGE 3 0 = Some (Examples.database, [])
  ∧ ∃ self info,
      modify_selection Examples.heap Examples.database 1
        FSEARCH_SELECTION_TYPE_SELECT_RANGE 0 3
      = Some (self, [EVENT_SELECTION_CHANGED 1 info])
      ∧ search_info_num_files_selected info = 2
      ∧ search_info_num_folders_selected info = 1
      ∧ modify_selection Examples.heap Examples.database 1
          FSEARCH_SELECTION_TYPE_SELECT_RANGE 0 INT32_MAX = None
      ∧ modify_selection Examples.heap Examples.database 1
          FSEARCH_SELECTION_TYPE_TOGGLE_RANGE 0 INT32_MAX = None.
Proof.
  split; [|split; [|split]].
  - intros Heq. apply (f_equal (fmap (length ∘ snd))) in Heq. by vm_compute in Heq.
  - intros Heq. apply (f_equal (fmap (length ∘ snd))) in Heq. by vm_compute in Heq.
  - reflexivity.
  - do 2 eexists. split; [reflexivity|]. by vm_compute.
Qed.

(** Through the handler the order of the endpoints does matter when only
    one of them addresses an entry: the range (1, 5) selects the entries at
    positions 1 and 2, the range (5, 1) selects nothing. *)
Lemma modify_selection_range_start_matters :
  snd <$> modify_selection Examples.heap Examples.database 1
            FSEARCH_SELECTION_TYPE_SELECT_RANGE 5 1 = Some []
  ∧ ∃ self info,
      modify_selection Examples.heap Examples.database 1
        FSEARCH_SELECTION_TYPE_SELECT_RANGE 1 5
      = Some (self, [EVENT_SELECTION_CHANGED 1 info])
      ∧ search_info_num_files_selected info = 1
      ∧ search_info_num_folders_selected info = 1.
Proof.
  split; [reflexivity|]. do 2 eexists. split; [reflexivity|]. by vm_compute.
Qed.


(** Two equal scans queued on the engine [Examples.database], which has no
    store. *)
Lemma scan_twice_one_pair_witness :
  db_store Examples.database = None
  ∧ ∃ info,
      snd <$> work_queue_thread Examples.scan_include Examples.sort_entries Examples.heap
                Examples.database
                [FSEARCH_DATABASE_WORK_SCAN [Examples.home] [] 12;
                 FSEARCH_DATABASE_WORK_SCAN [Examples.home] [] 12]
      = Some [EVENT_SCAN_STARTED; EVENT_SCAN_FINISHED info].
Proof.
  split; [reflexivity|].
  exact (scan_twice_one_pair Examples.scan_include Examples.sort_entries Examples.heap
           Examples.database [Examples.home] [] 12 eq_refl).
Defined.

(** The sorted-arrays block of the store a scan of [Examples.home] builds:
    five arrays announced, four written. *)
Lemma saved_sorted_arrays_rejected_witness :
  let store := index_store_start Examples.scan_include Examples.sort_entries
                 (index_store_new [Examples.home] [] 12) None in
  store_is_sorted store = true
  ∧ is_Some (store_folder_container store !! DATABASE_INDEX_PROPERTY_NAME)
  ∧ is_Some (store_file_container store !! DATABASE_INDEX_PROPERTY_NAME)
  ∧ (∃ fp', save_sorted_arrays Examples.file Examples.heap store 2 1 = Some (68, fp'))
  ∧ ∃ block, load_sorted_arrays block 1 2 = None.
Proof.
  set (store := index_store_start Examples.scan_include Examples.sort_entries
                  (index_store_new [Examples.home] [] 12) None).
  assert (∃ fp', save_sorted_arrays Examples.file Examples.heap store 2 1 = Some (68, fp'))
    as Hsaved by (vm_compute; eauto).
  assert (is_Some (store_folder_container store !! DATABASE_INDEX_PROPERTY_NAME)) as Hfolder
    by (vm_compute; eauto).
  assert (is_Some (store_file_container store !! DATABASE_INDEX_PROPERTY_NAME)) as Hfile
    by (vm_compute; eauto).
  split; [reflexivity|]. split; [exact Hfolder|]. split; [exact Hfile|].
  split; [exact Hsaved|]. destruct Hsaved as (fp' & Hsave).
  destruct (saved_sorted_arrays_rejected Examples.file fp' Examples.heap store 2 1 68
              eq_refl Hfolder Hfile Hsave) as (block & _ & Hload).
  by exists block.
Defined.

(* --------------------------------------------------------------------- *)
(** ** The store, the loader and the whole file at example inputs *)
(* --------------------------------------------------------------------- *)

(** The header written to an empty file. *)
Lemma save_header_accepted_witness :
  (∃ fp', save_header Examples.file = Some (6, fp'))
  ∧ ∃ header, length header = 6%nat ∧ ∀ rest, load_header (header ++ rest) = Some rest.
Proof.
  assert (∃ fp', save_header Examples.file = Some (6, fp')) as Hsaved
    by (vm_compute; eauto).
  split; [exact Hsaved|]. destruct Hsaved as (fp' & Hsave).
  destruct (save_header_accepted Examples.file fp' 6 Hsave) as (header & _ & Hlen & Hload).
  exists header. split; [lia|exact Hload].
Defined.

(** The two folders of [Examples.tree] are numbered 0 and 1. *)
Lemma update_folder_indices_by_position_witness :
  NoDup [1; 2]%nat
  ∧ (∀ i p, [1; 2]%nat !! i = Some p →
       update_folder_indices Examples.tree [1; 2]%nat !! p
       = db_entry_set_idx (Z.of_nat i) <$> Examples.tree !! p)
  ∧ (∀ p, p ∉ [1; 2]%nat → update_folder_indices Examples.tree [1; 2]%nat !! p
                            = Examples.tree !! p).
Proof.
  assert (NoDup [1; 2]%nat) as Hnodup.
  { apply NoDup_cons. split; [|apply NoDup_singleton].
    rewrite elem_of_cons, elem_of_nil. intros [?|[]]. done. }
  split; [exact Hnodup|].
  exact (update_folder_indices_by_position Examples.tree [1; 2]%nat Hnodup).
Defined.

Lemma tree_idx_is_position :
  idx_is_position (update_folder_indices Examples.tree [1; 2]%nat) [1; 2]%nat.
Proof. intros [|[|j]] p; simpl; intros [= <-]; reflexivity. Qed.

(** The folders of [Examples.tree] in the order 2, 1, saved as a sorted
    array and loaded back as the slots 1, 0. *)
Lemma sorted_entries_roundtrip_witness :
  let h := update_folder_indices Examples.tree [1; 2]%nat in
  Z.of_nat (length [1; 2]%nat) < 2 ^ 32
  ∧ idx_is_position h [1; 2]%nat
  ∧ (∀ p, p ∈ [2; 1]%nat → p ∈ [1; 2]%nat)
  ∧ (∃ fp', save_sorted_entries Examples.file h [2; 1]%nat 2 = Some (8, fp'))
  ∧ ∃ data dest,
      load_sorted_entries (data ++ []) 2 = Some (dest, [])
      ∧ Forall2 (λ p slot, [1; 2]%nat !! slot = Some p) [2; 1]%nat dest.
Proof.
  set (h := update_folder_indices Examples.tree [1; 2]%nat).
  assert (Z.of_nat (length [1; 2]%nat) < 2 ^ 32) as Hcount by (simpl; lia).
  assert (∀ p, p ∈ [2; 1]%nat → p ∈ [1; 2]%nat) as Hsub
    by (intros p; rewrite !elem_of_cons; tauto).
  assert (∃ fp', save_sorted_entries Examples.file h [2; 1]%nat 2 = Some (8, fp')) as Hsaved
    by (vm_compute; eauto).
  split; [exact Hcount|]. split; [exact tree_idx_is_position|]. split; [exact Hsub|].
  split; [exact Hsaved|]. destruct Hsaved as (fp' & Hsave).
  destruct (sorted_entries_roundtrip Examples.file fp' h [1; 2]%nat [2; 1]%nat 8 []
              Hcount tree_idx_is_position eq_refl Hsub Hsave)
    as (data & dest & _ & Hload & Hslots).
  by exists data, dest.
Defined.

(** A sorted-arrays block of one array, for the sort id 1, over two
    folders and one file. *)
Lemma load_sorted_arrays_well_formed_witness :
  ∃ sorted_folders sorted_files,
    load_sorted_arrays
      [1; 0; 0; 0; 1; 0; 0; 0; 1; 0; 0; 0; 0; 0; 0; 0; 0; 0; 0; 0] 2 1
    = Some (sorted_folders, sorted_files)
    ∧ sorted_arrays_ok 2 sorted_folders
    ∧ sorted_arrays_ok 1 sorted_files
    ∧ ∀ k, is_Some (sorted_folders !! k) ↔ is_Some (sorted_files !! k).
Proof.
  assert (∃ sorted,
            load_sorted_arrays
              [1; 0; 0; 0; 1; 0; 0; 0; 1; 0; 0; 0; 0; 0; 0; 0; 0; 0; 0; 0] 2 1
            = Some sorted) as [[sorted_folders sorted_files] Hload]
    by (vm_compute; eauto).
  exists sorted_folders, sorted_files. split; [exact Hload|].
  exact (load_sorted_arrays_well_formed _ 2 1 sorted_folders sorted_files Hload).
Defined.

(** The blocks saved for the folder 10 and the files 20 and 21 of
    [Examples.heap], loaded back. *)
Lemma load_entry_blocks_well_formed_witness :
  ∃ fp' h' rest folders files,
    save_entry_blocks Examples.FLAG_SIZE Examples.FLAG_MODIFICATION_TIME Examples.file 12
      Examples.heap [10%nat] [20; 21]%nat = Some (25, 47, fp', h')
    ∧ load_entry_blocks Examples.FLAG_SIZE Examples.FLAG_MODIFICATION_TIME
        Examples.pool_entry (file_bytes fp') 12 1 2 25 47 = Some (rest, folders, files)
    ∧ rest = drop 47 (drop 25 (file_bytes fp'))
    ∧ length folders = 1%nat
    ∧ length files = 2%nat
    ∧ (∀ i d, folders !! i = Some d → loaded_entry_ok DATABASE_ENTRY_TYPE_FOLDER 1 i d)
    ∧ (∀ i d, files !! i = Some d → loaded_entry_ok DATABASE_ENTRY_TYPE_FILE 1 i d).
Proof.
  assert (∃ fp' h',
            save_entry_blocks Examples.FLAG_SIZE Examples.FLAG_MODIFICATION_TIME
              Examples.file 12 Examples.heap [10%nat] [20; 21]%nat
            = Some (25, 47, fp', h')) as (fp' & h' & Hsave)
    by (vm_compute; eauto).
  assert (∃ loaded,
            load_entry_blocks Examples.FLAG_SIZE Examples.FLAG_MODIFICATION_TIME
              Examples.pool_entry (file_bytes fp') 12 1 2 25 47 = Some loaded)
    as [[[rest folders] files] Hload].
  { vm_compute in Hsave. injection Hsave as <- _. vm_compute. eauto. }
  exists fp', h', rest, folders, files. split; [exact Hsave|]. split; [exact Hload|].
  exact (load_entry_blocks_well_formed Examples.FLAG_SIZE Examples.FLAG_MODIFICATION_TIME
           Examples.pool_entry _ rest 12 1 2 25 47 folders files Hload).
Defined.

(** A record of a snapshot with the size flag alone: the name "a" after
    the empty name, and the size 5. *)
Lemma load_entry_super_elements_agree_witness :
  Z.land 4 Examples.FLAG_SIZE ≠ 0
  ∧ Z.land 4 Examples.FLAG_MODIFICATION_TIME = 0
  ∧ ∃ loaded,
      load_entry_super_elements [0; 1; 97; 5; 0; 0; 0; 0; 0; 0; 0] Examples.pool_entry []
      = Some ([], loaded, [97])
      ∧ load_entry_super_elements_from_memory Examples.FLAG_SIZE
          Examples.FLAG_MODIFICATION_TIME [0; 1; 97; 5; 0; 0; 0; 0; 0; 0; 0] 4
          Examples.pool_entry [] = Some ([], loaded, [97])
      ∧ e_size loaded = 5.
Proof.
  assert (Z.land 4 Examples.FLAG_SIZE ≠ 0) as Hsize by (by vm_compute).
  assert (Z.land 4 Examples.FLAG_MODIFICATION_TIME = 0) as Hmtime by reflexivity.
  split; [exact Hsize|]. split; [exact Hmtime|].
  eexists. split; [reflexivity|]. split; [|reflexivity].
  by apply (load_entry_super_elements_agree Examples.FLAG_SIZE
              Examples.FLAG_MODIFICATION_TIME _ 4 Examples.pool_entry [] _ Hsize Hmtime).
Defined.

(** The store that was created, started without a token and then told
    about a new file. *)
Lemma examples_store_reachable :
  store_reachable Examples.scan_include Examples.sort_entries Examples.insert_sorted
    (index_store_add_entries Examples.insert_sorted
       (index_store_start Examples.scan_include Examples.sort_entries
          (index_store_new [Examples.home] [] 0) None)
       [22%nat] false).
Proof. apply reachable_add_entries, reachable_start; [apply reachable_new|]. by intros token. Qed.

(** That store is complete. *)
Lemma store_reachable_idle_or_complete_witness :
  let self := index_store_add_entries Examples.insert_sorted
                (index_store_start Examples.scan_include Examples.sort_entries
                   (index_store_new [Examples.home] [] 0) None)
                [22%nat] false in
  store_reachable Examples.scan_include Examples.sort_entries Examples.insert_sorted self
  ∧ ((store_idle self ∧ index_store_get_num_fast_sort_indices self = 0%nat)
     ∨ (store_complete self ∧ index_store_get_num_fast_sort_indices self = 5%nat)).
Proof.
  split; [exact examples_store_reachable|].
  exact (store_reachable_idle_or_complete Examples.scan_include Examples.sort_entries
           Examples.insert_sorted _ examples_store_reachable).
Defined.

(** The ids of the indices of that store. *)
Lemma store_indices_unique_ids_witness :
  let self := index_store_add_entries Examples.insert_sorted
                (index_store_start Examples.scan_include Examples.sort_entries
                   (index_store_new [Examples.home] [] 0) None)
                [22%nat] false in
  store_reachable Examples.scan_include Examples.sort_entries Examples.insert_sorted self
  ∧ NoDup (index_id <$> store_indices self).
Proof.
  split; [exact examples_store_reachable|].
  exact (store_indices_unique_ids Examples.scan_include Examples.sort_entries
           Examples.insert_sorted _ examples_store_reachable).
Defined.

(** A start without a token on a new store with one include. *)
Lemma index_store_start_completes_witness :
  never_cancelled None
  ∧ store_complete (index_store_start Examples.scan_include Examples.sort_entries
                      (index_store_new [Examples.home] [] 0) None).
Proof.
  assert (never_cancelled None) as Hnever by (by intros p _).
  split; [exact Hnever|].
  by destruct (index_store_start_completes Examples.scan_include Examples.sort_entries
                 [Examples.home] [] 0 None Hnever) as [Hcomplete _].
Defined.

(** The example sorter and the example insertion arrange the entries they
    are given. *)
Lemma examples_sort_entries_perm sort_order secondary type entries :
  concat (Examples.sort_entries sort_order secondary type entries) ≡ₚ entries.
Proof. unfold Examples.sort_entries. simpl. by rewrite app_nil_r. Qed.

Lemma examples_insert_sorted_perm c entry :
  concat (Examples.insert_sorted c entry)
  ≡ₚ entry :: fsearch_database_entries_container_get_joined c.
Proof.
  unfold Examples.insert_sorted, fsearch_database_entries_container_get_joined.
  rewrite concat_app. simpl. by rewrite <- Permutation_cons_append.
Qed.

(** The containers of that store, built with the example sorter and the
    example insertion. *)
Lemma store_orders_hold_same_entries_witness :
  let self := index_store_add_entries Examples.insert_sorted
                (index_store_start Examples.scan_include Examples.sort_entries
                   (index_store_new [Examples.home] [] 0) None)
                [22%nat] false in
  (∀ sort_order secondary type entries,
     concat (Examples.sort_entries sort_order secondary type entries) ≡ₚ entries)
  ∧ (∀ c entry,
       concat (Examples.insert_sorted c entry)
       ≡ₚ entry :: fsearch_database_entries_container_get_joined c)
  ∧ store_reachable Examples.scan_include Examples.sort_entries Examples.insert_sorted self
  ∧ store_consistent self.
Proof.
  split; [exact examples_sort_entries_perm|]. split; [exact examples_insert_sorted_perm|].
  split; [exact examples_store_reachable|].
  exact (store_orders_hold_same_entries Examples.scan_include Examples.sort_entries
           Examples.insert_sorted examples_sort_entries_perm examples_insert_sorted_perm
           _ examples_store_reachable).
Defined.

(** The store a scan of [Examples.home] builds, saved into the directory
    "/var/db" of a file system that holds nothing else. *)
Lemma db_file_save_layout_witness :
  let store := index_store_start Examples.scan_include Examples.sort_entries
                 (index_store_new [Examples.home] [] 12) None in
  ∃ fs' h',
    db_file_save Examples.FLAG_SIZE Examples.FLAG_MODIFICATION_TIME Examples.file_system
      1000 true Examples.heap store "/var/db" = SAVE_TRUE fs' h'
    ∧ fs_files fs' !! "/var/db/fsearch.db.tmp" = None
    ∧ ∃ folder_block file_block sorted_block,
        fs_files fs' !! "/var/db/fsearch.db"
        = Some (snapshot_layout 12 1 2 folder_block file_block sorted_block).
Proof.
  set (store := index_store_start Examples.scan_include Examples.sort_entries
                  (index_store_new [Examples.home] [] 12) None).
  assert (∃ fs' h',
            db_file_save Examples.FLAG_SIZE Examples.FLAG_MODIFICATION_TIME
              Examples.file_system 1000 true Examples.heap store "/var/db"
            = SAVE_TRUE fs' h') as (fs' & h' & Hsave)
    by (vm_compute; eauto).
  exists fs', h'. split; [exact Hsave|].
  destruct (db_file_save_layout Examples.FLAG_SIZE Examples.FLAG_MODIFICATION_TIME
              Examples.file_system fs' 1000 true Examples.heap h' store "/var/db" Hsave)
    as (folder_container & file_container & folder_block & file_block & sorted_block
        & Hfolders & Hfiles & Hfile & Htemp & _).
  split; [exact Htemp|]. exists folder_block, file_block, sorted_block.
  injection Hfolders as <-. injection Hfiles as <-. exact Hfile.
Defined.

(** The file that save leaves is not one [db_file_load] accepts. *)
Lemma db_file_load_rejects_saved_witness :
  let store := index_store_start Examples.scan_include Examples.sort_entries
                 (index_store_new [Examples.home] [] 12) None in
  Z.of_nat 1000 < 2 ^ 64
  ∧ ∃ fs' h',
      db_file_save Examples.FLAG_SIZE Examples.FLAG_MODIFICATION_TIME Examples.file_system
        1000 true Examples.heap store "/var/db" = SAVE_TRUE fs' h'
      ∧ db_file_load Examples.FLAG_SIZE Examples.FLAG_MODIFICATION_TIME Examples.pool_entry
          fs' "/var/db/fsearch.db" = false.
Proof.
  set (store := index_store_start Examples.scan_include Examples.sort_entries
                  (index_store_new [Examples.home] [] 12) None).
  assert (Z.of_nat 1000 < 2 ^ 64) as Hroom by lia.
  assert (∃ fs' h',
            db_file_save Examples.FLAG_SIZE Examples.FLAG_MODIFICATION_TIME
              Examples.file_system 1000 true Examples.heap store "/var/db"
            = SAVE_TRUE fs' h') as (fs' & h' & Hsave)
    by (vm_compute; eauto).
  split; [exact Hroom|]. exists fs', h'. split; [exact Hsave|].
  exact (db_file_load_rejects_saved Examples.FLAG_SIZE Examples.FLAG_MODIFICATION_TIME
           Examples.pool_entry Examples.file_system fs' 1000 true Examples.heap h' store
           "/var/db" Hroom Hsave).
Defined.

(** The same save on a medium with room for 10 bytes: a write fails, the
    temporary file is removed and no other file is touched. *)
Lemma db_file_save_failure_witness :
  let store := index_store_start Examples.scan_include Examples.sort_entries
                 (index_store_new [Examples.home] [] 12) None in
  ∃ fs',
    db_file_save Examples.FLAG_SIZE Examples.FLAG_MODIFICATION_TIME Examples.file_system
      10 true Examples.heap store "/var/db" = SAVE_FALSE fs'
    ∧ g_file_test_is_dir Examples.file_system "/var/db" = true
    ∧ fs_files fs' !! "/var/db/fsearch.db.tmp" = None
    ∧ ∀ path, path ≠ "/var/db/fsearch.db" → path ≠ "/var/db/fsearch.db.tmp" →
        fs_files fs' !! path = fs_files Examples.file_system !! path.
Proof.
  set (store := index_store_start Examples.scan_include Examples.sort_entries
                  (index_store_new [Examples.home] [] 12) None).
  assert (∃ fs',
            db_file_save Examples.FLAG_SIZE Examples.FLAG_MODIFICATION_TIME
              Examples.file_system 10 true Examples.heap store "/var/db"
            = SAVE_FALSE fs') as (fs' & Hsave)
    by (vm_compute; eauto).
  assert (g_file_test_is_dir Examples.file_system "/var/db" = true) as Hdir
    by (by vm_compute).
  exists fs'. split; [exact Hsave|]. split; [exact Hdir|].
  destruct (db_file_save_failure Examples.FLAG_SIZE Examples.FLAG_MODIFICATION_TIME
              Examples.file_system fs' 10 true Examples.heap store "/var/db" Hsave)
    as [_ Hfailed].
  destruct (Hfailed Hdir) as (Htemp & _ & Hothers). split; [exact Htemp|exact Hothers].
Defined.
